(** * pyMLChurn: the refresh gate, the business rule and the explanation loop

    A shallow embedding of the decision logic of the pyMLChurn package:
    - [pymlchurn/sp_runner.py]: the time-gated stored-procedure runner
      (module [SpRunner] below);
    - [pymlchurn/cli.py], [pyMLChurn.py]: the business-rule churn flag
      (module [BusinessRule]);
    - [pymlchurn/ml.py]: phrase rendering and the per-row explanation loop
      of [train_and_predict] (module [Ml]).

    Python exceptions are values of [exn]; a computation that may raise
    returns a [Res].  Code that touches the state file or the clock runs in
    a state monad over [World].  Library code (the lowering of text, the
    ISO timestamp codec, the stored-procedure call, scikit-learn, SHAP, the
    reading of a string as a float) enters as section variables, so that
    every property holds for whatever the libraries compute.

    The definitions come first, then sample inputs, then the properties. *)

From Stdlib Require Import ZArith QArith Qround Qabs Ascii String.
From stdpp Require Import gmap strings list fin_maps pretty.

Set Warnings "-register-all".
Open Scope string_scope.
Open Scope Z_scope.

(** ** Exceptions and results *)

Inductive exn :=
| ValueError
| TypeError
| AttributeError
| IndexError
| KeyError
| OSError
| OverflowError
| JSONDecodeError
| NotFittedError
| DatabaseError.

Inductive Res (A : Type) :=
| Ok (a : A)
| Raise (e : exn).
Arguments Ok {A} a.
Arguments Raise {A} e.

#[global] Instance Res_ret : MRet Res := fun A a => Ok a.
#[global] Instance Res_bind : MBind Res := fun A B f r =>
  match r with
  | Ok a => f a
  | Raise e => Raise e
  end.
#[global] Instance Res_fmap : FMap Res := fun A B f r =>
  match r with
  | Ok a => Ok (f a)
  | Raise e => Raise e
  end.

(** [try: body except Exception: handler] *)
Definition try_except {A} (body : Res A) (handler : Res A) : Res A :=
  match body with
  | Ok a => Ok a
  | Raise _ => handler
  end.

Definition is_ok {A} (r : Res A) : bool :=
  match r with Ok _ => true | Raise _ => false end.

(** ** Strings *)

Definition is_upper (c : ascii) : bool :=
  let n := nat_of_ascii c in (65 <=? n)%nat && (n <=? 90)%nat.

(** [str.lower] on one character of ASCII text: only the letters A-Z have
    a lower-case form there.  On a string of ASCII characters [lower] is
    [str.lower]; for other text see [str_lower_ref] below. *)
Definition lower_char (c : ascii) : ascii :=
  if is_upper c then ascii_of_nat (nat_of_ascii c + 32) else c.

Fixpoint lower (s : string) : string :=
  match s with
  | EmptyString => EmptyString
  | String c s' => String (lower_char c) (lower s')
  end.

(** Two characters that are the same letter, in either case. *)
Definition same_letter (a b : ascii) : bool :=
  bool_decide (a = b)
  || (is_upper a && bool_decide (b = ascii_of_nat (nat_of_ascii a + 32)))
  || (is_upper b && bool_decide (a = ascii_of_nat (nat_of_ascii b + 32))).

(** Two strings that differ only in letter case: same length, and at each
    position the same character up to case. *)
Fixpoint differ_only_in_case (s t : string) : bool :=
  match s, t with
  | EmptyString, EmptyString => true
  | String a s', String b t' => same_letter a b && differ_only_in_case s' t'
  | _, _ => false
  end.

(** *** Text beyond ASCII

    A [str] is held as its UTF-8 encoding.  [str.lower] works on the
    characters of the text, by the tables and rules of the Unicode
    standard; it is library code, and the gate takes it as a parameter.
    [str_lower_ref] is an instance for text of ASCII characters and Greek
    letters: it lowers the letters A-Z and the Greek capitals, a capital
    sigma by the rule for the end of a word, and keeps every other
    character. *)

Definition is_ascii_char (c : ascii) : bool := (nat_of_ascii c <? 128)%nat.

Fixpoint is_ascii (s : string) : bool :=
  match s with
  | EmptyString => true
  | String c s' => is_ascii_char c && is_ascii s'
  end.

(** The code points of a text from its encoding: one byte below 128, two
    bytes up to U+07FF.  Every other byte is kept apart as the code point
    U+DC00 plus the byte, as Python's [surrogateescape] does. *)
Fixpoint decode_utf8 (s : string) : list Z :=
  match s with
  | EmptyString => []
  | String c s' =>
      let n := Z.of_nat (nat_of_ascii c) in
      if n <? 128 then n :: decode_utf8 s'
      else
        match s' with
        | String d s'' =>
            let m := Z.of_nat (nat_of_ascii d) in
            if (194 <=? n) && (n <=? 223) && (128 <=? m) && (m <=? 191)
            then ((n - 192) * 64 + (m - 128)) :: decode_utf8 s''
            else (56320 + n) :: decode_utf8 s'
        | EmptyString => [56320 + n]
        end
  end.

Definition byte (n : Z) : ascii := ascii_of_nat (Z.to_nat n).

Definition encode_char (c : Z) : string :=
  if c <? 128 then String (byte c) ""
  else if c <? 2048 then String (byte (192 + c / 64)) (String (byte (128 + c mod 64)) "")
  else String (byte (c - 56320)) "".

Fixpoint encode_utf8 (cs : list Z) : string :=
  match cs with
  | [] => ""
  | c :: cs' => encode_char c ++ encode_utf8 cs'
  end.

(** Alpha to Omega, U+0391 to U+03A9 (U+03A2 is not a letter), and alpha to
    omega, U+03B1 to U+03C9. *)
Definition is_greek_capital (c : Z) : bool := (913 <=? c) && (c <=? 937) && negb (c =? 930).
Definition is_greek_small (c : Z) : bool := (945 <=? c) && (c <=? 969).

Definition cased (c : Z) : bool :=
  ((65 <=? c) && (c <=? 90)) || ((97 <=? c) && (c <=? 122))
  || is_greek_capital c || is_greek_small c.

(** The ASCII characters that the rule for sigma looks through: the
    apostrophe, the full stop, the colon, the circumflex and the grave
    accent. *)
Definition case_ignorable (c : Z) : bool :=
  (c =? 39) || (c =? 46) || (c =? 58) || (c =? 94) || (c =? 96).

(** The lower-case form of one character, whatever stands around it. *)
Definition simple_lower (c : Z) : Z :=
  if ((65 <=? c) && (c <=? 90)) || is_greek_capital c then c + 32 else c.

(** A cased letter follows, after characters that the rule looks through. *)
Fixpoint cased_follows (cs : list Z) : bool :=
  match cs with
  | [] => false
  | c :: cs' => if case_ignorable c then cased_follows cs' else cased c
  end.

(** [before]: a cased letter precedes, before characters that the rule
    looks through.  A capital sigma (U+03A3) after a cased letter and with
    no cased letter after it becomes the final sigma (U+03C2), and the
    small sigma (U+03C3) otherwise. *)
Fixpoint lower_from (before : bool) (cs : list Z) : list Z :=
  match cs with
  | [] => []
  | c :: cs' =>
      (if c =? 931
       then (if before && negb (cased_follows cs') then 962 else 963)
       else simple_lower c)
      :: lower_from (if case_ignorable c then before else cased c) cs'
  end.

Definition str_lower_ref (s : string) : string :=
  encode_utf8 (lower_from false (decode_utf8 s)).

(** Two texts that differ only in letter case: as long as each other, and
    at each position characters with the same lower-case form. *)
Fixpoint text_differ_only_in_case (a b : list Z) : bool :=
  match a, b with
  | [], [] => true
  | x :: a', y :: b' => (simple_lower x =? simple_lower y) && text_differ_only_in_case a' b'
  | _, _ => false
  end.

(** ** JSON documents, as [json.loads] returns them *)

Inductive Json :=
| JNull
| JBool (b : bool)
| JNum (q : Q)
| JStr (s : string)
| JArr (xs : list Json)
| JObj (kvs : gmap string Json).

(** Python truthiness of a loaded JSON value ([not iso]). *)
Definition truthy (v : Json) : bool :=
  match v with
  | JNull => false
  | JBool b => b
  | JNum q => negb (Qeq_bool q 0)
  | JStr s => negb (bool_decide (s = ""))
  | JArr xs => negb (bool_decide (length xs = 0%nat))
  | JObj kvs => negb (bool_decide (size kvs = 0%nat))
  end.

(** [state.get(key)]: only a dict has [get]; a missing key gives [None]. *)
Definition py_get (state : Json) (key : string) : Res Json :=
  match state with
  | JObj kvs => Ok (default JNull (kvs !! key))
  | _ => Raise AttributeError
  end.

(** [state[key] = v]: a dict takes any string key; a list wants an integer
    index, and the other values support no item assignment. *)
Definition py_setitem (state : Json) (key : string) (v : Json) : Res Json :=
  match state with
  | JObj kvs => Ok (JObj (<[key := v]> kvs))
  | _ => Raise TypeError
  end.

(** ** Datetimes

    A [datetime] is an instant counted in microseconds from 1970-01-01
    00:00 UTC, with the UTC offset of its time zone when it has one.  Its
    wall-clock reading lies between 0001-01-01 00:00:00 and 9999-12-31
    23:59:59.999999. *)

Inductive datetime :=
| Naive (wall : Z)
| Aware (instant : Z) (utcoffset : Z).

Definition timedelta_hours (h : Z) : Z := h * 3600000000.

(** [timedelta(hours=h)]: a [timedelta] holds at most 999999999 days either
    way; [h // 24] is its number of days. *)
Definition MAX_DELTA_DAYS : Z := 999999999.

Definition timedelta (hours : Z) : Res Z :=
  if (- MAX_DELTA_DAYS <=? hours / 24) && (hours / 24 <=? MAX_DELTA_DAYS)
  then Ok (timedelta_hours hours)
  else Raise OverflowError.

(** [datetime.min] and [datetime.max], as wall-clock readings. *)
Definition DATETIME_MIN : Z := -62135596800000000.
Definition DATETIME_MAX : Z := 253402300799999999.

Definition in_range (wall : Z) : bool := (DATETIME_MIN <=? wall) && (wall <=? DATETIME_MAX).

(** [d + td] keeps the time zone and adds to the wall-clock reading; a
    result outside the range of [datetime] is an [OverflowError]. *)
Definition dt_add (d : datetime) (td : Z) : Res datetime :=
  match d with
  | Naive w => if in_range (w + td) then Ok (Naive (w + td)) else Raise OverflowError
  | Aware i o => if in_range (i + o + td) then Ok (Aware (i + td) o) else Raise OverflowError
  end.

(** [a >= b]: aware datetimes compare by instant; an aware and a naive
    datetime cannot be ordered. *)
Definition dt_ge (a b : datetime) : Res bool :=
  match a, b with
  | Aware i _, Aware j _ => Ok (j <=? i)
  | Naive v, Naive w => Ok (w <=? v)
  | _, _ => Raise TypeError
  end.

(** *** A reference codec for ISO timestamps

    [datetime.isoformat] and [datetime.fromisoformat] are library code.  The
    gate below is parametric in them; [isoformat_ref] and
    [fromisoformat_ref] are an instance for the text that [isoformat] emits,
    [YYYY-MM-DDTHH:MM:SS[.ffffff][+HH:MM]], used to run the gate on concrete
    state files. *)

Definition digit_char (n : Z) : ascii := ascii_of_nat (48 + Z.to_nat (n mod 10)).

Fixpoint pad (width : nat) (n : Z) : string :=
  match width with
  | O => ""
  | S w => pad w (n / 10) ++ String (digit_char n) ""
  end.

Definition digit_val (c : ascii) : option Z :=
  let n := nat_of_ascii c in
  if (48 <=? n)%nat && (n <=? 57)%nat then Some (Z.of_nat n - 48) else None.

(** Read exactly [width] decimal digits. *)
Fixpoint digits_from (width : nat) (acc : Z) (s : string) : option (Z * string) :=
  match width with
  | O => Some (acc, s)
  | S w =>
      match s with
      | String c s' =>
          match digit_val c with
          | Some d => digits_from w (acc * 10 + d) s'
          | None => None
          end
      | EmptyString => None
      end
  end.

Definition digits (width : nat) (s : string) : option (Z * string) :=
  digits_from width 0 s.

Definition expect (c : ascii) (s : string) : option string :=
  match s with
  | String c' s' => if bool_decide (c = c') then Some s' else None
  | EmptyString => None
  end.

Definition is_leap (y : Z) : bool :=
  ((y mod 4 =? 0) && negb (y mod 100 =? 0)) || (y mod 400 =? 0).

Definition days_in_month (y m : Z) : Z :=
  if m =? 2 then (if is_leap y then 29 else 28)
  else if (m =? 4) || (m =? 6) || (m =? 9) || (m =? 11) then 30
  else 31.

(** Days between 1970-01-01 and the civil date [y-m-d]. *)
Definition days_from_civil (y m d : Z) : Z :=
  let y' := if m <=? 2 then y - 1 else y in
  let era := y' / 400 in
  let yoe := y' - era * 400 in
  let mp := if 2 <? m then m - 3 else m + 9 in
  let doy := (153 * mp + 2) / 5 + d - 1 in
  let doe := yoe * 365 + yoe / 4 - yoe / 100 + doy in
  era * 146097 + doe - 719468.

Definition civil_from_days (z : Z) : Z * Z * Z :=
  let z' := z + 719468 in
  let era := z' / 146097 in
  let doe := z' - era * 146097 in
  let yoe := (doe - doe / 1460 + doe / 36524 - doe / 146096) / 365 in
  let doy := doe - (365 * yoe + yoe / 4 - yoe / 100) in
  let mp := (5 * doy + 2) / 153 in
  let d := doy - (153 * mp + 2) / 5 + 1 in
  let m := if mp <? 10 then mp + 3 else mp - 9 in
  (if m <=? 2 then yoe + era * 400 + 1 else yoe + era * 400, m, d).

Definition usec_per_day : Z := 86400000000.

Definition iso_wall (w : Z) : string :=
  let us := w mod usec_per_day in
  let '(y, m, d) := civil_from_days (w / usec_per_day) in
  pad 4 y ++ "-" ++ pad 2 m ++ "-" ++ pad 2 d ++ "T"
  ++ pad 2 (us / 3600000000) ++ ":" ++ pad 2 (us / 60000000 mod 60)
  ++ ":" ++ pad 2 (us / 1000000 mod 60)
  ++ (if us mod 1000000 =? 0 then "" else "." ++ pad 6 (us mod 1000000)).

Definition iso_offset (o : Z) : string :=
  (if o <? 0 then "-" else "+")
  ++ pad 2 (Z.abs o / 3600000000) ++ ":" ++ pad 2 (Z.abs o / 60000000 mod 60).

Definition isoformat_ref (d : datetime) : string :=
  match d with
  | Naive w => iso_wall w
  | Aware i o => iso_wall (i + o) ++ iso_offset o
  end.

Definition parse_offset (wall : Z) (s : string) : option datetime :=
  match s with
  | EmptyString => Some (Naive wall)
  | String sign s1 =>
      if bool_decide (sign = "+"%char) || bool_decide (sign = "-"%char) then
        '(oh, s2) ← digits 2 s1;
        s3 ← expect ":" s2;
        '(om, s4) ← digits 2 s3;
        if bool_decide (s4 = "") && (oh <? 24) && (om <? 60) then
          let o := oh * 3600000000 + om * 60000000 in
          let o' := if bool_decide (sign = "-"%char) then - o else o in
          Some (Aware (wall - o') o')
        else None
      else None
  end.

Definition fromisoformat_ref (s : string) : option datetime :=
  '(y, s1) ← digits 4 s;
  s2 ← expect "-" s1;
  '(m, s3) ← digits 2 s2;
  s4 ← expect "-" s3;
  '(d, s5) ← digits 2 s4;
  s6 ← expect "T" s5;
  '(hh, s7) ← digits 2 s6;
  s8 ← expect ":" s7;
  '(mi, s9) ← digits 2 s8;
  s10 ← expect ":" s9;
  '(ss, s11) ← digits 2 s10;
  '(us, s12) ← match s11 with
                | String "."%char r => digits 6 r
                | _ => Some (0, s11)
                end;
  if (1 <=? y) && (1 <=? m) && (m <=? 12) && (1 <=? d) && (d <=? days_in_month y m)
     && (hh <? 24) && (mi <? 60) && (ss <? 60) then
    parse_offset (days_from_civil y m d * usec_per_day
                  + hh * 3600000000 + mi * 60000000 + ss * 1000000 + us) s12
  else None.

(** * The refresh gate: [pymlchurn/sp_runner.py] *)

Module SpRunner.

(** The fields of [Config] that the gate reads. *)
Record Config := { server : string; database : string }.

(** What is at [STATE_FILE], seen through the calls the gate makes on it. *)
Inductive StateFile :=
| Inaccessible          (* [STATE_FILE.exists()] raises: its directory cannot be searched *)
| Absent                (* [STATE_FILE.exists()] is false *)
| Unreadable            (* [read_text] raises *)
| Invalid               (* the text is not JSON: [json.loads] raises *)
| Holds (doc : Json).   (* the text is the JSON document [doc] *)

(** [writable]: whether [mkdir] and [write_text] succeed at [STATE_FILE]. *)
Record World := { file : StateFile; writable : bool; clock : Z }.

(** State and exceptions: the world is threaded through, also on a raise. *)
Definition M (A : Type) : Type := World -> Res A * World.

#[global] Instance M_ret : MRet M := fun A a w => (Ok a, w).
#[global] Instance M_bind : MBind M := fun A B f c w =>
  match c w with
  | (Ok a, w') => f a w'
  | (Raise e, w') => (Raise e, w')
  end.

Definition lift {A} (r : Res A) : M A := fun w => (r, w).

Definition _now_utc : M datetime := fun w => (Ok (Aware (clock w) 0), w).

(** [json.loads(STATE_FILE.read_text(encoding='utf-8'))] *)
Definition read_and_parse (f : StateFile) : Res Json :=
  match f with
  | Inaccessible => Raise OSError
  | Absent => Raise OSError
  | Unreadable => Raise OSError
  | Invalid => Raise JSONDecodeError
  | Holds doc => Ok doc
  end.

(** The test [STATE_FILE.exists()] stands before the [try]: an [OSError]
    that it raises, as for a directory that may not be searched, leaves
    [_load_state]; what [read_text] and [json.loads] raise does not. *)
Definition _load_state : M Json := fun w =>
  match file w with
  | Inaccessible => (Raise OSError, w)
  | Absent => (Ok (JObj ∅), w)
  | f => (try_except (read_and_parse f) (Ok (JObj ∅)), w)
  end.

(** [STATE_FILE.exists()] returns. *)
Definition exists_answers (f : StateFile) : bool :=
  match f with
  | Inaccessible => false
  | _ => true
  end.

(** The document that [_load_state] hands to the gate when it returns. *)
Definition loaded (f : StateFile) : Json :=
  match f with
  | Holds doc => doc
  | _ => JObj ∅
  end.

(** The write replaces the whole file by the dump of [state]; where
    [mkdir] fails or [write_text] cannot open the file, the [OSError]
    leaves [_save_state] and the file is as it was.  A write that breaks
    off after the file was opened is not modelled. *)
Definition _save_state (state : Json) : M unit := fun w =>
  if writable w
  then (Ok tt, {| file := Holds state; writable := true; clock := clock w |})
  else (Raise OSError, w).

Record SPRunPolicy := { ttl_hours : Z }.

Definition default_policy : SPRunPolicy := {| ttl_hours := 24 |}.

Definition ttl (p : SPRunPolicy) : Res Z := timedelta (ttl_hours p).

Record RunResult := { ran : bool; reason : string }.

Section Gate.

(** [str.lower], the library's lowering of a text. *)
Variable str_lower : string -> string.

Definition _sp_key (cfg : Config) (sp_name schema : string) : string :=
  String.concat "|"
    [str_lower (server cfg); str_lower (database cfg); str_lower schema; str_lower sp_name].

(** The library codec for timestamps. *)
Variable isoformat : datetime -> string.
Variable fromisoformat : string -> option datetime.

(** The stored procedure, as the gate sees it: started at a clock reading,
    [db.execute_stored_procedure] returns at a later one or raises. *)
Variable run_procedure : Config -> string -> string -> Z -> Res Z.

Definition execute_stored_procedure (cfg : Config) (sp_name schema : string) : M unit :=
  fun w =>
    match run_procedure cfg sp_name schema (clock w) with
    | Ok t' => (Ok tt, {| file := file w; writable := writable w; clock := t' |})
    | Raise e => (Raise e, w)
    end.

(** [datetime.fromisoformat(iso)]: a value that is not a string is a
    [TypeError], a string outside the format a [ValueError]. *)
Definition parse_iso (iso : Json) : Res datetime :=
  match iso with
  | JStr s =>
      match fromisoformat s with
      | Some d => Ok d
      | None => Raise ValueError
      end
  | _ => Raise TypeError
  end.

Definition should_run (cfg : Config) (sp_name schema : string) (policy : SPRunPolicy)
  : M (bool * option datetime) :=
  state ← _load_state;
  let key := _sp_key cfg sp_name schema in
  iso ← lift (py_get state key);
  if negb (truthy iso) then mret (true, None)
  else
    match parse_iso iso with
    | Raise _ => mret (true, None)
    | Ok last =>
        life ← lift (ttl policy);
        due ← lift (dt_add last life);
        now ← _now_utc;
        b ← lift (dt_ge now due);
        mret (b, Some last)
    end.

Definition mark_ran (cfg : Config) (sp_name schema : string) : M unit :=
  state ← _load_state;
  let key := _sp_key cfg sp_name schema in
  now ← _now_utc;
  state' ← lift (py_setitem state key (JStr (isoformat now)));
  _save_state state'.

(** The world after a run that ended at clock reading [t'] was recorded
    under [key] in the mapping [kvs]. *)
Definition recorded (kvs : gmap string Json) (key : string) (t' : Z) : World :=
  {| file := Holds (JObj (<[key := JStr (isoformat (Aware t' 0))]> kvs));
     writable := true; clock := t' |}.

(** What running the refresh and recording it comes to, from a world whose
    persisted mapping is [kvs]: when the call returns and the file can be
    written, [result] and the recorded world; when the call returns and the
    file cannot be written, the [OSError] of the write, after the refresh;
    when the call raises, the raise, and the world as it was. *)
Definition run_outcome (cfg : Config) (sp_name schema : string) (result : RunResult)
    (kvs : gmap string Json) (w : World) : Res RunResult * World :=
  match run_procedure cfg sp_name schema (clock w) with
  | Ok t' =>
      if writable w then (Ok result, recorded kvs (_sp_key cfg sp_name schema) t')
      else (Raise OSError, {| file := file w; writable := false; clock := t' |})
  | Raise e => (Raise e, w)
  end.

Definition maybe_run_sp (cfg : Config) (sp_name schema : string) (force : bool)
    (policy : option SPRunPolicy) : M RunResult :=
  let policy := default default_policy policy in
  if force then
    _ ← execute_stored_procedure cfg sp_name schema;
    _ ← mark_ran cfg sp_name schema;
    mret {| ran := true; reason := "forced" |}
  else
    '(doit, last) ← should_run cfg sp_name schema policy;
    if negb doit then
      match last with
      | Some l => mret {| ran := false; reason := "recent (last run " ++ isoformat l ++ ")" |}
      | None => lift (Raise AttributeError)
      end
    else
      _ ← execute_stored_procedure cfg sp_name schema;
      _ ← mark_ran cfg sp_name schema;
      mret {| ran := true; reason := "ttl_expired" |}.

End Gate.

End SpRunner.

(** * Numbers and dataframe cells *)

(** A Python float that reaches the code below: finite, or NaN.  A finite
    float is the rational it denotes, so order and sign tests on finite
    floats are those of [Q].  Infinities are left out: the fit rejects a
    matrix that holds one, before any explanation is built.  Negative zero
    is not told apart from zero. *)
Inductive pyfloat :=
| Fin (q : Q)
| NaN.

(** One cell of the queried dataframe, as the Python object it holds. *)
Inductive Cell :=
| CNum (q : Q)      (* an int or a finite float *)
| CNaN              (* the float nan *)
| CNone             (* None *)
| CBool (b : bool)
| CStr (s : string).

(** [bool(x)] on a cell, which is what [Series.astype(bool)] applies to each
    element: nan is a non-zero float, hence true. *)
Definition astype_bool (c : Cell) : bool :=
  match c with
  | CNum q => negb (Qeq_bool q 0)
  | CNaN => true
  | CNone => false
  | CBool b => b
  | CStr s => negb (bool_decide (s = ""))
  end.

(** [pd.notna(val)] *)
Definition notna (c : Cell) : bool :=
  match c with
  | CNaN | CNone => false
  | _ => true
  end.

(** [round(v)] of a finite float: to the nearest integer, ties to even. *)
Definition round_half_even (q : Q) : Z :=
  let f := Qfloor q in
  match Qcompare (q - inject_Z f) (1 # 2) with
  | Lt => f
  | Gt => f + 1
  | Eq => if Z.even f then f else f + 1
  end.

(** [int(x)] / [astype(int)]: truncation toward zero. *)
Definition trunc (q : Q) : Z := Z.quot (Qnum q) (Zpos (Qden q)).

(** [f"{n:,}"] for an integer: groups of three digits. *)
Fixpoint group_digits (fuel : nat) (n : Z) : string :=
  match fuel with
  | O => pretty n
  | S fuel' =>
      if n <? 1000 then pretty n
      else group_digits fuel' (n / 1000) ++ "," ++ pad 3 (n mod 1000)
  end.

Definition fmt_int_grouped (n : Z) : string :=
  (if n <? 0 then "-" else "")
  ++ group_digits (Z.to_nat (Z.log2 (Z.abs n))) (Z.abs n).

(** [f"{v:.<digits>f}"], with [,] grouping and a forced [+] on demand: the
    decimal expansion of the float rounded to [digits] places, ties to
    even.  The sign is that of [v], also when the digits are all zero. *)
Definition fmt_fixed (grouped plus : bool) (dgts : nat) (q : Q) : string :=
  let scale := 10 ^ Z.of_nat dgts in
  let r := round_half_even (Qabs q * inject_Z scale) in
  (if Qlt_le_dec q 0 then "-" else if plus then "+" else "")
  ++ (if grouped then fmt_int_grouped (r / scale) else pretty (r / scale))
  ++ "." ++ pad dgts (r mod scale).

Definition is_space (c : ascii) : bool :=
  let n := nat_of_ascii c in (n =? 32)%nat || ((9 <=? n)%nat && (n <=? 13)%nat).

Fixpoint lstrip (s : string) : string :=
  match s with
  | String c s' => if is_space c then lstrip s' else s
  | EmptyString => EmptyString
  end.

Fixpoint rstrip (s : string) : string :=
  match s with
  | String c s' =>
      match rstrip s' with
      | EmptyString => if is_space c then EmptyString else String c EmptyString
      | r => String c r
      end
  | EmptyString => EmptyString
  end.

(** [str.strip()] *)
Definition strip (s : string) : string := rstrip (lstrip s).

Definition startswith (s p : string) : bool := String.prefix p s.

Definition endswith (s p : string) : bool :=
  let n := String.length s in
  let k := String.length p in
  (k <=? n)%nat && bool_decide (String.substring (n - k) k s = p).

(** * The business rule: [main] in [pymlchurn/cli.py] and [pyMLChurn.py] *)

Module BusinessRule.

(** [(today - as_of_dt).dt.days.clip(lower=0)]: dates are day numbers; a
    date that [pd.to_datetime(..., errors='coerce')] could not read is NaT
    ([None]) and its day count is missing. *)
Definition days_since_purchase_today (today : Z) (as_of_dt : option Z) : option Z :=
  (fun d => Z.max 0 (today - d)) <$> as_of_dt.

(** [df.get('in_renewal_grace').astype(bool).fillna(False)]: after the cast
    no element is missing, so [fillna] changes nothing. *)
Definition in_grace (cell : Cell) : bool := astype_bool cell.

(** [90 + (in_grace.astype(int) * 30)] *)
Definition threshold (in_g : bool) : Z := 90 + (if in_g then 1 else 0) * 30.

(** [(days_since_purchase_today >= threshold).astype(int)]: a comparison
    with a missing day count is false. *)
Definition business_churn_now (days : option Z) (th : Z) : Z :=
  match days with
  | Some d => if th <=? d then 1 else 0
  | None => 0
  end.

(** The day count used in the reason text: [0] when it is missing. *)
Definition days_i (days : option Z) : Z := default 0 days.

Definition business_churn_reason (days : option Z) (in_g : bool) : string :=
  let d := days_i days in
  let th_i := threshold in_g in
  if business_churn_now days (threshold in_g) =? 1 then
    if in_g && (90 <? th_i) then
      "No purchases for " ++ pretty d ++ " days; Grace period exceeded"
    else "No purchases for " ++ pretty d ++ " days"
  else
    if in_g && (d <? th_i) then "In renewal grace period (extra 30 days)"
    else if d <? 90 then "Recent purchase within last 90 days"
    else "Within adjusted threshold".

(** One record of the output: day count, flag and reason. *)
Record Outcome := {
  days_since_last_purchase_today : option Z;
  churn_now : Z;
  churn_reason : string
}.

Definition evaluate (today : Z) (as_of_dt : option Z) (grace_cell : Cell) : Outcome :=
  let days := days_since_purchase_today today as_of_dt in
  let in_g := in_grace grace_cell in
  {| days_since_last_purchase_today := days;
     churn_now := business_churn_now days (threshold in_g);
     churn_reason := business_churn_reason days in_g |}.

(** The rule over the rows of a frame. *)
Definition evaluate_rows (today : Z) (rows : list (option Z * Cell)) : list Outcome :=
  map (fun r => evaluate today (fst r) (snd r)) rows.

End BusinessRule.

(** * Scoring and explanation: [pymlchurn/ml.py] *)

Module Ml.

Record MLConfig := {
  customer_id_col : string;
  feature_cols : list string;
  target_col : option string;
  date_col : option string
}.

(** A dataframe: its row count and its columns by name. *)
Record DataFrame := { nrows : nat; columns : gmap string (list Cell) }.

(** [df[col].iloc[i]] *)
Definition iloc (df : DataFrame) (col : string) (i : nat) : Res Cell :=
  match columns df !! col with
  | None => Raise KeyError
  | Some cells =>
      match cells !! i with
      | Some c => Ok c
      | None => Raise IndexError
      end
  end.

(** [xs[i]] on a list or an array *)
Definition index {A} (xs : list A) (i : nat) : Res A :=
  match xs !! i with
  | Some x => Ok x
  | None => Raise IndexError
  end.

(** ** Phrase rendering *)

Definition high_risk : list string :=
  ["recency_days"; "median_gap_days"; "p90_gap_days"; "cv_gap";
   "rev_returns_90d"; "credit_notes_90d"; "orders_neg_30d";
   "backorder_qty_30d"; "credit_notes_prev_month"; "credit_notes_ma3";
   "threshold_days"; "is_maintenance_heavy"; "maint_cycle_days";
   "severity_score"; "lateness_component"; "credits_component";
   "trend_component"].

Definition low_risk : list string :=
  ["rev_180d"; "invoices_90d"; "orders_pos_30d"; "invoices_pos_prev_month";
   "mitigator_component"].

Definition neg_risk : list string :=
  ["pct_change_3m"; "pct_change_6m"; "yoy_change_pct"].

Definition member (x : string) (xs : list string) : bool := bool_decide (x ∈ xs).

Definition _risk_direction (col : string) : string :=
  if member col high_risk then "high"
  else if member col low_risk then "low"
  else if member col neg_risk then "neg"
  else "high".

Definition label_mapping : list (string * string) :=
  [("recency_days", "No purchases for");
   ("median_gap_days", "Typical gap between purchases");
   ("p90_gap_days", "Long purchase gaps (90th percentile)");
   ("cv_gap", "Irregular buying cadence");
   ("in_renewal_grace", "In renewal grace period");
   ("rev_180d", "Revenue in last 180 days");
   ("rev_returns_90d", "Returns value in last 90 days");
   ("invoices_90d", "Invoices in last 90 days");
   ("credit_notes_90d", "Credit notes in last 90 days");
   ("orders_pos_30d", "Positive order value in last 30 days");
   ("orders_neg_30d", "Negative order value in last 30 days");
   ("backorder_qty_30d", "Backorder quantity in last 30 days");
   ("pct_change_3m", "Change vs prior 3 months");
   ("pct_change_6m", "Change vs prior 6 months");
   ("yoy_change_pct", "Year-over-year change");
   ("credit_notes_prev_month", "Credit notes last month");
   ("invoices_pos_prev_month", "Invoices last month");
   ("credit_notes_ma3", "Credit notes per month (3-month average)");
   ("threshold_days", "Days past expected purchase threshold");
   ("is_maintenance_heavy", "Maintenance-heavy profile");
   ("maint_cycle_days", "Maintenance cycle length");
   ("severity_score", "Issue severity score");
   ("lateness_component", "Late purchase signal");
   ("credits_component", "Credits/returns signal");
   ("trend_component", "Negative trend signal");
   ("mitigator_component", "Mitigating signals")].

Fixpoint assoc (k : string) (kvs : list (string * string)) : option string :=
  match kvs with
  | [] => None
  | (k', v) :: rest => if bool_decide (k = k') then Some v else assoc k rest
  end.

(** [mapping.get(col, col)] *)
Definition _friendly_label (col : string) : string :=
  default col (assoc col label_mapping).

Definition count_cols : list string :=
  ["invoices_90d"; "backorder_qty_30d"; "invoices_pos_prev_month";
   "credit_notes_90d"; "credit_notes_prev_month"].

Definition money_cols : list string :=
  ["rev_180d"; "rev_returns_90d"; "orders_pos_30d"; "orders_neg_30d"].

Definition signal_cols : list string :=
  ["lateness_component"; "credits_component"; "trend_component";
   "mitigator_component"].

(** On the floats modelled here no conversion inside [_format_value]
    raises, so none of its [except] branches is taken. *)
Definition _format_value (col : string) (value : pyfloat) : string :=
  match value with
  | NaN => ""
  | Fin v =>
      if endswith col "_days"
         || member col ["recency_days"; "maint_cycle_days"; "threshold_days"]
      then pretty (round_half_even v) ++ " days"
      else if member col count_cols then fmt_int_grouped (round_half_even v)
      else if bool_decide (col = "credit_notes_ma3")
      then fmt_fixed false false 2 v ++ " per month"
      else if member col neg_risk then fmt_fixed false true 1 v ++ "%"
      else if member col money_cols then
        if Qlt_le_dec v 0 then "-$" ++ fmt_fixed true false 2 (Qabs v)
        else "$" ++ fmt_fixed true false 2 v
      else if Qlt_le_dec (Qabs (v - inject_Z (round_half_even v))) (1 # 2)
      then fmt_int_grouped (round_half_even v)
      else fmt_fixed true false 2 v
  end.

(** [bool(value)] on a float *)
Definition float_bool (value : pyfloat) : bool :=
  match value with
  | NaN => true
  | Fin v => negb (Qeq_bool v 0)
  end.

(** [value] is a number below zero *)
Definition is_negative (value : pyfloat) : bool :=
  match value with
  | NaN => false
  | Fin v => if Qlt_le_dec v 0 then true else false
  end.

Definition nonempty (s : string) : bool := negb (bool_decide (s = "")).

Definition _describe (col : string) (value : pyfloat) (z : Q) : string :=
  let label := _friendly_label col in
  let direction := _risk_direction col in
  let val_txt := _format_value col value in
  if bool_decide (col = "is_maintenance_heavy") then
    if float_bool value then "Maintenanceâ€‘heavy profile" else ""
  else if bool_decide (col = "in_renewal_grace") then
    if float_bool value then "In renewal grace period" else ""
  else if bool_decide (direction = "neg") then
    if is_negative value then label ++ " (" ++ val_txt ++ ")" else ""
  else if bool_decide (direction = "high") then
    if Qle_bool z 0 then ""
    else if member col signal_cols then label
    else if startswith label "No purchases for" then strip (label ++ " " ++ val_txt)
    else if nonempty val_txt then label ++ " (" ++ val_txt ++ ")" else label
  else if bool_decide (direction = "low") then
    let base := label in
    let base := if startswith label "Invoices" then "Few invoices in last 90 days" else base in
    let base := if startswith label "Positive order value"
                then "Low positive order value (last 30 days)" else base in
    let base := if startswith label "Revenue in" then "Low recent revenue" else base in
    let base := if startswith label "Mitigating" then "Few mitigating signals" else base in
    if Qle_bool 0 z then ""
    else if member col signal_cols then base
    else if nonempty val_txt then base ++ " (" ++ val_txt ++ ")" else base
  else label ++ " (" ++ val_txt ++ ")".

(** ** Sorting indices *)

(** [np.argsort(values)]: the indices in ascending order of their value.
    Among equal values this sort keeps the input order; numpy's default
    sort promises no order there, and nothing below relies on one. *)
Fixpoint insert_sorted (x : nat * Q) (xs : list (nat * Q)) : list (nat * Q) :=
  match xs with
  | [] => [x]
  | y :: rest =>
      if Qle_bool (snd x) (snd y) then x :: y :: rest
      else y :: insert_sorted x rest
  end.

Definition argsort (values : list Q) : list nat :=
  (foldr insert_sorted [] (zip (seq 0 (length values)) values)).*1.

(** [a * b] on one-dimensional arrays, with numpy's broadcasting of a
    single element. *)
Definition vec_mul (a b : list Q) : Res (list Q) :=
  if bool_decide (length a = length b) then Ok (zip_with Qmult a b)
  else match a, b with
       | [x], _ => Ok (map (Qmult x) b)
       | _, [y] => Ok (map (fun x => Qmult x y) a)
       | _, _ => Raise ValueError
       end.

Definition GENERIC_REASON : string := "elevated churn risk across multiple signals".
Definition ACTUAL_REASON : string := "observed churn within 90 days".

(** The result frame, without its percentage column and its pass-through
    date column. *)
Record Prediction := {
  customer_id : list Cell;
  predicted_churn_90d : list Z;
  predicted_churn_probability_90d : list Q;
  predicted_churn_reason_90d : list string;
  actual_churned_90d : option (list Z);
  actual_churn_reason_90d : option (list string)
}.

Section Pipeline.

(** [float(s)] on a string, [None] when it raises [ValueError]; also the
    reading [pd.to_numeric] gives it. *)
Variable float_of_str : string -> option pyfloat.

(** scikit-learn, as [train_and_predict] uses it: the state of a fitted
    pipeline, the fit, and what a fitted pipeline computes. *)
Context {Fitted : Type}.
Variable fit : list (list pyfloat) -> list Z -> Res Fitted.
Variable predict_proba : Fitted -> list (list pyfloat) -> list Q.
Variable transform : Fitted -> list (list pyfloat) -> list (list Q).
Variable coef_ : Fitted -> list Q.

(** SHAP on the transformed matrix: [None] when the package is missing or
    both explainers raise. *)
Variable shap_values : Fitted -> list (list Q) -> option (list (list Q)).

(** [pd.to_numeric(..., errors="coerce")] on one cell *)
Definition to_numeric (c : Cell) : pyfloat :=
  match c with
  | CNum q => Fin q
  | CNaN | CNone => NaN
  | CBool b => Fin (if b then 1 else 0)
  | CStr s => default NaN (float_of_str s)
  end.

Definition cell_of_float (f : pyfloat) : Cell :=
  match f with
  | Fin q => CNum q
  | NaN => CNaN
  end.

(** A column that is absent is skipped; a boolean column becomes 0/1, which
    is also what the numeric conversion makes of it. *)
Definition _coerce_types (df : DataFrame) (feature_cols : list string) : DataFrame :=
  {| nrows := nrows df;
     columns := foldl (fun out col => alter (map (fun c => cell_of_float (to_numeric c))) col out)
                      (columns df) feature_cols |}.

(** [work[cols].to_numpy()] *)
Definition to_numpy (work : DataFrame) (cols : list string) : Res (list (list pyfloat)) :=
  mapM (fun i => mapM (fun col => to_numeric <$> iloc work col i) cols) (seq 0 (nrows work)).

(** [pd.to_numeric(col, errors="coerce").fillna(0).astype(int)] *)
Definition to_label (c : Cell) : Z :=
  match to_numeric c with
  | Fin q => trunc q
  | NaN => 0
  end.

(** [float(val)] *)
Definition cell_float (c : Cell) : Res pyfloat :=
  match c with
  | CNum q => Ok (Fin q)
  | CNaN => Ok NaN
  | CNone => Raise TypeError
  | CBool b => Ok (Fin (if b then 1 else 0))
  | CStr s =>
      match float_of_str s with
      | Some f => Ok f
      | None => Raise ValueError
      end
  end.

(** The pipeline object: unfitted until [fit] has run. *)
Definition pre_transform (pipe : option Fitted) (X : list (list pyfloat)) : Res (list (list Q)) :=
  match pipe with
  | Some f => Ok (transform f X)
  | None => Raise NotFittedError   (* [check_is_fitted] in [ColumnTransformer.transform] *)
  end.

Definition pipe_coef (pipe : option Fitted) : Res (list Q) :=
  match pipe with
  | Some f => Ok (coef_ f)
  | None => Raise AttributeError
  end.

(** Everything inside [_shap_contributions] runs under its [try]. *)
Definition _shap_contributions (pipe : option Fitted) (X : list (list pyfloat))
  : option (list (list Q)) :=
  match pipe with
  | Some f => shap_values f (transform f X)
  | None => None
  end.

(** ** The explanation loop of [train_and_predict] *)

Section Explain.

Variable df : DataFrame.
Variable cols : list string.           (* [cfg.feature_cols] *)
Variable pipe : option Fitted.
Variable Xt : list (list Q).
Variable phi : option (list (list Q)).

(** The contribution vector of row [i]: SHAP when there is one, else the
    standardized values times the coefficients. *)
Definition contribution (i : nat) : Res (list Q) :=
  match phi with
  | Some p => index p i
  | None =>
      coefs ← pipe_coef pipe;
      xi ← index Xt i;
      vec_mul xi coefs
  end.

(** [float(Xt[i, idx])], [0.0] when that raises *)
Definition z_score (i idx : nat) : Q :=
  default 0%Q (Xt !! i ≫= fun row => row !! idx).

(** The phrase for feature [idx] of row [i] *)
Definition phrase_for (i idx : nat) : Res string :=
  col ← index cols idx;
  val ← iloc df col i;
  v ← (if notna val then cell_float val else Ok NaN);
  Ok (_describe col v (z_score i idx)).

(** The inner [for idx in order] loop.  With [positive_only], an index whose
    contribution is not above zero is passed over. *)
Fixpoint select_phrases (positive_only : bool) (contrib : list Q) (i : nat)
    (order : list nat) (phrases : list string) : Res (list string) :=
  match order with
  | [] => Ok phrases
  | idx :: rest =>
      if (3 <=? length phrases)%nat then Ok phrases
      else
        skip ← (if positive_only
                then c ← index contrib idx; Ok (Qle_bool c 0)
                else Ok false);
        if (skip : bool) then select_phrases positive_only contrib i rest phrases
        else
          phrase ← phrase_for i idx;
          select_phrases positive_only contrib i rest
            (if nonempty phrase then phrases ++ [phrase] else phrases)
  end.

(** A phrase that stands for a feature whose contribution is above zero. *)
Definition risk_phrase (contrib : list Q) (i : nat) (phrase : string) : Prop :=
  exists idx c,
    contrib !! idx = Some c /\ (0 < c)%Q
    /\ phrase_for i idx = Ok phrase /\ phrase <> "".

Definition join_or (fallback : string) (phrases : list string) : string :=
  match phrases with
  | [] => fallback
  | _ => String.concat "; " phrases
  end.

(** The body of the predicted-reason loop for row [i]. *)
Definition row_reason (pred : list Z) (i : nat) : Res string :=
  contrib ← contribution i;
  p ← index pred i;
  let order :=
    if p =? 1 then reverse (argsort contrib)
    else reverse (argsort (Qabs <$> contrib)) in
  phrases ← select_phrases (p =? 1) contrib i order [];
  Ok (join_or GENERIC_REASON phrases).

(** The body of the actual-reason loop for row [i]; [None] is the
    [continue] of a row whose label is not 1. *)
Definition actual_row_reason (actual : list Z) (i : nat) : Res (option string) :=
  a ← index actual i;
  if negb (a =? 1) then Ok None
  else
    contrib ← contribution i;
    phrases ← select_phrases true contrib i (reverse (argsort contrib)) [];
    Ok (Some (join_or ACTUAL_REASON phrases)).

(** [for i in range(len(result))] under [try: ... except Exception: pass]:
    the list of reasons is filled in place, and a raise leaves the loop
    with the list as it then stands. *)
Fixpoint explain_rows (body : nat -> Res (option string)) (i n : nat)
    (reasons : list string) : list string :=
  match n with
  | O => reasons
  | S n' =>
      match body i with
      | Ok (Some r) => explain_rows body (S i) n' (<[i := r]> reasons)
      | Ok None => explain_rows body (S i) n' reasons
      | Raise _ => reasons
      end
  end.

Definition predicted_reasons (pred : list Z) (n : nat) : list string :=
  explain_rows (fun i => Some <$> row_reason pred i) 0 n (replicate n "").

Definition actual_reasons (actual : list Z) (n : nat) : list string :=
  explain_rows (actual_row_reason actual) 0 n (replicate n "").

End Explain.

(** ** [train_and_predict] *)

Definition has_column (df : DataFrame) (col : string) : bool :=
  bool_decide (is_Some (columns df !! col)).

(** [cfg.target_col and cfg.target_col in df.columns] *)
Definition target_present (df : DataFrame) (cfg : MLConfig) : option string :=
  match target_col cfg with
  | Some t => if nonempty t && has_column df t then Some t else None
  | None => None
  end.

Definition column (df : DataFrame) (col : string) : Res (list Cell) :=
  match columns df !! col with
  | Some cells => Ok cells
  | None => Raise KeyError
  end.

(** [pd.DataFrame({...})] wants columns of one length. *)
Definition same_length (a b c : nat) : Res unit :=
  if bool_decide (a = b) && bool_decide (b = c) then Ok tt else Raise ValueError.

(** The label column as 0/1 integers, when the frame has one. *)
Definition labels (frame : DataFrame) (cfg : MLConfig) : Res (option (list Z)) :=
  match target_present frame cfg with
  | Some t => (fun cells : list Cell => Some (to_label <$> cells)) <$> column frame t
  | None => Ok None
  end.

(** What [train_and_predict] holds when it enters the explanation loop. *)
Record Scored := {
  s_ids : list Cell;
  s_pipe : option Fitted;
  s_pred : list Z;
  s_proba : list Q;
  s_Xt : list (list Q);
  s_phi : option (list (list Q))
}.

(** [train_and_predict] up to the explanation loop: the feature check, the
    coercion, the fit and the prediction (or the zeros when there is no
    label), the result frame, the transformed matrix and the SHAP values. *)
Definition score (df : DataFrame) (cfg : MLConfig) : Res Scored :=
  let missing := filter (fun c => has_column df c = false) (feature_cols cfg) in
  if negb (bool_decide (missing = [])) then Raise ValueError
  else
    let work := _coerce_types df (feature_cols cfg) in
    X ← to_numpy work (feature_cols cfg);
    y ← labels work cfg;
    pipe ← match y with
           | Some y' => f ← fit X y'; Ok (Some f)
           | None => Ok None
           end;
    let proba :=
      match pipe with
      | Some f => predict_proba f X
      | None => replicate (length X) 0%Q
      end in
    let pred :=
      match pipe with
      | Some f => (fun p => if Qle_bool (1 # 2) p then 1 else 0) <$> proba
      | None => replicate (length X) 0
      end in
    ids ← column df (customer_id_col cfg);
    _ ← same_length (length ids) (length pred) (length proba);
    Xt ← pre_transform pipe X;
    let phi := _shap_contributions pipe X in
    Ok {| s_ids := ids; s_pipe := pipe; s_pred := pred; s_proba := proba;
          s_Xt := Xt; s_phi := phi |}.

(** The reasons that the predicted-reason loop leaves for a scored frame. *)
Definition reasons_of (df : DataFrame) (cfg : MLConfig) (s : Scored) : list string :=
  predicted_reasons df (feature_cols cfg) (s_pipe s) (s_Xt s) (s_phi s)
    (s_pred s) (length (s_ids s)).

Definition train_and_predict (df : DataFrame) (cfg : MLConfig) : Res Prediction :=
  s ← score df cfg;
  let reasons := reasons_of df cfg s in
  actual ← labels df cfg;
  Ok {| customer_id := s_ids s;
        predicted_churn_90d := s_pred s;
        predicted_churn_probability_90d := s_proba s;
        predicted_churn_reason_90d := reasons;
        actual_churned_90d := actual;
        actual_churn_reason_90d :=
          (fun a => actual_reasons df (feature_cols cfg) (s_pipe s) (s_Xt s) (s_phi s)
                      a (length (s_ids s))) <$> actual |}.

End Pipeline.

(** A reader for plain decimal numerals ([-12], [3.50]) and [nan], the
    instance of [float_of_str] used on concrete frames. *)
Fixpoint read_digits (acc : Z) (n : nat) (s : string) : option (Z * nat) :=
  match s with
  | EmptyString => Some (acc, n)
  | String c s' =>
      match digit_val c with
      | Some d => read_digits (acc * 10 + d) (S n) s'
      | None => None
      end
  end.

Fixpoint split_at_dot (s : string) : string * option string :=
  match s with
  | EmptyString => (EmptyString, None)
  | String c s' =>
      if bool_decide (c = "."%char) then (EmptyString, Some s')
      else let '(a, b) := split_at_dot s' in (String c a, b)
  end.

Definition read_unsigned (s : string) : option Q :=
  let '(ip, fp) := split_at_dot s in
  match read_digits 0 0 ip, fp with
  | Some (_, O), _ => None
  | Some (i, _), None => Some (inject_Z i)
  | Some (i, _), Some f =>
      match read_digits 0 0 f with
      | Some (fr, k) =>
          Some (Qred (inject_Z i + Qmake fr (Z.to_pos (10 ^ Z.of_nat k))))
      | None => None
      end
  | None, _ => None
  end.

Definition decimal_float (s : string) : option pyfloat :=
  if bool_decide (s = "nan") then Some NaN
  else match s with
       | String "-"%char r => (fun q => Fin (- q)) <$> read_unsigned r
       | _ => Fin <$> read_unsigned s
       end.

(** A pipeline with prescribed outputs: whatever it is fitted on, it
    returns the given probabilities, transformed matrix, coefficients and
    SHAP values.  It stands in for scikit-learn when [train_and_predict] is
    run on a concrete frame. *)
Record Canned := {
  c_proba : list Q;
  c_Xt : list (list Q);
  c_coef : list Q;
  c_shap : option (list (list Q))
}.

Definition run_canned (out : Canned) (df : DataFrame) (cfg : MLConfig) : Res Prediction :=
  train_and_predict decimal_float
    (fun _ _ => Ok out) (fun f _ => c_proba f) (fun f _ => c_Xt f) c_coef
    (fun f _ => c_shap f) df cfg.

Definition score_canned (out : Canned) (df : DataFrame) (cfg : MLConfig) : Res Scored :=
  score decimal_float
    (fun _ _ => Ok out) (fun f _ => c_proba f) (fun f _ => c_Xt f)
    (fun f _ => c_shap f) df cfg.

(** A frame from its columns, in order. *)
Definition frame (n : nat) (cols : list (string * list Cell)) : DataFrame :=
  {| nrows := n; columns := list_to_map cols |}.

End Ml.

(** * Sample inputs

    Concrete state files and frames on which the definitions above are
    run. *)

Definition cfg0 : SpRunner.Config :=
  {| SpRunner.server := "SQLPROD01"; SpRunner.database := "SAP" |}.

Definition key0 : string := "sqlprod01|sap|dbo|sp_build_customer_churn_cadence_v1".

(** A refresh that returns after 42 seconds. *)
Definition runner0 (_ : SpRunner.Config) (_ _ : string) (t : Z) : Res Z := Ok (t + 42000000).

(** 2024-03-01 08:00 UTC and the state file of a run recorded then. *)
Definition t0 : Z := 1709280000000000.
Definition kvs0 : gmap string Json := {[ key0 := JStr "2024-03-01T08:00:00+00:00" ]}.

(** That state file, writable, seen 23 hours after the run; the same when
    it cannot be written; and a state file that holds a JSON list. *)
Definition w_recent : SpRunner.World :=
  {| SpRunner.file := SpRunner.Holds (JObj kvs0); SpRunner.writable := true;
     SpRunner.clock := t0 + timedelta_hours 23 |}.

Definition w_read_only : SpRunner.World :=
  {| SpRunner.file := SpRunner.Holds (JObj kvs0); SpRunner.writable := false;
     SpRunner.clock := t0 + timedelta_hours 23 |}.

Definition w_list : SpRunner.World :=
  {| SpRunner.file := SpRunner.Holds (JArr []); SpRunner.writable := true;
     SpRunner.clock := t0 |}.

(** A state file in a directory that may not be searched. *)
Definition w_inaccessible : SpRunner.World :=
  {| SpRunner.file := SpRunner.Inaccessible; SpRunner.writable := false;
     SpRunner.clock := t0 |}.

(** A policy of a hundred million hours, some 11400 years. *)
Definition policy_long : SpRunner.SPRunPolicy := {| SpRunner.ttl_hours := 100000000 |}.

(** The Greek word for street, in capitals (U+039F U+0394 U+039F U+03A3)
    and in small letters (U+03BF U+03B4 U+03BF U+03C3). *)
Definition odos_upper : string := encode_utf8 [927; 916; 927; 931].
Definition odos_lower : string := encode_utf8 [959; 948; 959; 963].

(** Two features of the schema, a label column and a date column. *)
Definition cfg_ml : Ml.MLConfig :=
  {| Ml.customer_id_col := "customer_id";
     Ml.feature_cols := ["recency_days"; "rev_180d"];
     Ml.target_col := Some "churned_hard90";
     Ml.date_col := Some "as_of_date" |}.

(** Two customers, no label column. *)
Definition df_unlabelled : Ml.DataFrame :=
  Ml.frame 2
    [("customer_id", [CNum 101; CNum 102]);
     ("recency_days", [CNum 120; CNum 5]);
     ("rev_180d", [CNum 10; CNum 5000])].

(** Three labelled customers; the second has text where its recency
    should be. *)
Definition df_text : Ml.DataFrame :=
  Ml.frame 3
    [("customer_id", [CNum 101; CNum 102; CNum 103]);
     ("recency_days", [CNum 120; CStr "n/a"; CNum 200]);
     ("rev_180d", [CNum 10; CNum 5000; CNum 0]);
     ("churned_hard90", [CNum 1; CNum 0; CNum 1])].

(** Pipeline outputs for [df_text]: no SHAP values, so contributions are
    standardized values times coefficients. *)
Definition out_text : Ml.Canned :=
  {| Ml.c_proba := [9 # 10; 1 # 10; 8 # 10]%Q;
     Ml.c_Xt := [[1 # 2; -7 # 10]; [0; 6 # 5]; [11 # 10; -9 # 10]]%Q;
     Ml.c_coef := [4 # 5; -3 # 5]%Q;
     Ml.c_shap := None |}.

(** [df_text] as the explanation loop finds it. *)
Definition scored_text : Ml.Scored :=
  {| Ml.s_ids := [CNum 101; CNum 102; CNum 103];
     Ml.s_pipe := Some out_text;
     Ml.s_pred := [1; 0; 1];
     Ml.s_proba := Ml.c_proba out_text;
     Ml.s_Xt := Ml.c_Xt out_text;
     Ml.s_phi := None |}.

(** Two labelled customers; the first has text where its recency should
    be. *)
Definition df_late : Ml.DataFrame :=
  Ml.frame 2
    [("customer_id", [CNum 201; CNum 202]);
     ("recency_days", [CStr "unknown"; CNum 3]);
     ("rev_180d", [CNum 0; CNum 90000]);
     ("churned_hard90", [CNum 0; CNum 1])].

(** Pipeline outputs for [df_late]: the second customer is predicted to
    churn although none of its SHAP contributions is above zero. *)
Definition out_late : Ml.Canned :=
  {| Ml.c_proba := [1 # 5; 3 # 5]%Q;
     Ml.c_Xt := [[0; -1]; [-1; 1]]%Q;
     Ml.c_coef := [4 # 5; -3 # 5]%Q;
     Ml.c_shap := Some ([[3 # 10; -1 # 10]; [-1 # 5; -2 # 5]]%Q) |}.

(** * Further definitions

    Code of the package beyond the gate, the business rule and the
    explanation loop, and the predicates used to state its properties. *)

(** A phrase of row [i] that was rendered, not empty, for some feature. *)
Definition rendered_phrase (float_of_str : string -> option pyfloat)
    (df : Ml.DataFrame) (cols : list string) (Xt : list (list Q))
    (i : nat) (phrase : string) : Prop :=
  phrase <> "" /\ exists idx, Ml.phrase_for float_of_str df cols Xt i idx = Ok phrase.

(** ** Characters and strings, continued *)

Definition is_lower (c : ascii) : bool :=
  let n := nat_of_ascii c in (97 <=? n)%nat && (n <=? 122)%nat.

Definition is_digit (c : ascii) : bool :=
  let n := nat_of_ascii c in (48 <=? n)%nat && (n <=? 57)%nat.

Definition is_alpha (c : ascii) : bool := is_upper c || is_lower c.

(** The class [[A-Za-z0-9]] of the regular expressions in the package. *)
Definition is_alnum (c : ascii) : bool := is_alpha c || is_digit c.

(** [str.upper] on one character of a byte string *)
Definition upper_char (c : ascii) : ascii :=
  if is_lower c then ascii_of_nat (nat_of_ascii c - 32) else c.

Fixpoint string_forall (p : ascii -> bool) (s : string) : bool :=
  match s with
  | EmptyString => true
  | String c s' => p c && string_forall p s'
  end.

Fixpoint contains_char (c : ascii) (s : string) : bool :=
  match s with
  | EmptyString => false
  | String c' s' => bool_decide (c = c') || contains_char c s'
  end.

Fixpoint find_char (p : ascii -> bool) (s : string) : option ascii :=
  match s with
  | EmptyString => None
  | String c s' => if p c then Some c else find_char p s'
  end.

Definition first_char (s : string) : option ascii :=
  match s with
  | EmptyString => None
  | String c _ => Some c
  end.

Fixpoint last_char (s : string) : option ascii :=
  match s with
  | EmptyString => None
  | String c s' =>
      match last_char s' with
      | Some l => Some l
      | None => Some c
      end
  end.

(** The one-byte characters that [str.strip()] removes: tab to carriage
    return, the four separators 28 to 31, and the space. *)
Definition py_is_space (c : ascii) : bool :=
  let n := nat_of_ascii c in
  (n =? 32)%nat || ((9 <=? n)%nat && (n <=? 13)%nat) || ((28 <=? n)%nat && (n <=? 31)%nat).

Fixpoint lstrip_by (p : ascii -> bool) (s : string) : string :=
  match s with
  | String c s' => if p c then lstrip_by p s' else s
  | EmptyString => EmptyString
  end.

Fixpoint rstrip_by (p : ascii -> bool) (s : string) : string :=
  match s with
  | String c s' =>
      match rstrip_by p s' with
      | EmptyString => if p c then EmptyString else String c EmptyString
      | r => String c r
      end
  | EmptyString => EmptyString
  end.

(** [s.strip()] and [s.strip(chars)], by the test for a character to
    remove *)
Definition strip_by (p : ascii -> bool) (s : string) : string :=
  rstrip_by p (lstrip_by p s).

Definition py_strip (s : string) : string := strip_by py_is_space s.

(** * Configuration flags: [pymlchurn/config.py] *)

Module ConfigEnv.

Definition TRUE_WORDS : list string := ["1"; "true"; "yes"; "y"; "on"].
Definition FALSE_WORDS : list string := ["0"; "false"; "no"; "n"; "off"].

Definition _to_bool (value : option string) (default : bool) : bool :=
  match value with
  | None => default
  | Some s =>
      let v := lower (py_strip s) in
      if Ml.member v TRUE_WORDS then true
      else if Ml.member v FALSE_WORDS then false
      else default
  end.

End ConfigEnv.

(** * Drivers and retries: [pymlchurn/db.py] *)

Module Db.

Definition KNOWN_DRIVERS : list string :=
  ["ODBC Driver 18 for SQL Server"; "ODBC Driver 17 for SQL Server"; "SQL Server"].

(** [installed] is what [pyodbc.drivers()] lists; [None] is the
    [RuntimeError] of the last line. *)
Definition pick_driver (installed : list string) (preferred : option string)
  : option string :=
  let fallback := List.find (fun d => Ml.member d installed) KNOWN_DRIVERS in
  match preferred with
  | Some p => if Ml.nonempty p && Ml.member p installed then Some p else fallback
  | None => fallback
  end.

(** One pass through the body of the retry loop: the call returns, raises
    an error of the database layer ([pyodbc.Error], [SQLAlchemyError]),
    which the loop catches, or raises anything else, which it does not. *)
Inductive Attempt (A E : Type) :=
| Succeeds (a : A)
| DbFails (e : E)
| OtherFails (e : E).
Arguments Succeeds {A E} a.
Arguments DbFails {A E} e.
Arguments OtherFails {A E} e.

(** How the retrying function ends; [RaisedNone] is [raise last_err] with
    [last_err] still [None], a [TypeError]; [SleepRefused] is the error of
    a sleep that cannot be taken, raised inside the handler. *)
Inductive Ending (A E : Type) :=
| Returned (a : A)
| Raised (e : E)
| RaisedNone
| SleepRefused.
Arguments Returned {A E} a.
Arguments Raised {A E} e.
Arguments RaisedNone {A E}.
Arguments SleepRefused {A E}.

(** What a run of the loop did: how it ended, how many attempts it made and
    the sleeps it took, in order. *)
Record Run (A E : Type) := {
  ending : Ending A E;
  attempts : nat;
  sleeps : list Q
}.
Arguments ending {A E} r.
Arguments attempts {A E} r.
Arguments sleeps {A E} r.

Section Retry.

Context {A E : Type}.

(** The outcome of the attempt numbered [k], counting from 1. *)
Variable try_ : nat -> Attempt A E.
Variable retries : Z.
Variable backoff : Q.

(** The lengths that can be slept: [time.sleep] raises [ValueError] on a
    negative length and [OverflowError] on one beyond the range of its
    clock, and so does the product for a length beyond the floats. *)
Variable sleep_ok : Q -> bool.

(** [backoff * (2 ** (attempt - 1))]; the product of a float and a power
    of two is exact, so the length is the rational product. *)
Definition delay (attempt : nat) : Q := (backoff * inject_Z (2 ^ Z.of_nat (attempt - 1)))%Q.

(** [for attempt in range(1, retries + 1)], from [attempt] on with [fuel]
    passes left, then the [raise last_err] after the loop. *)
Fixpoint retry_from (fuel : nat) (attempt : nat) (last_err : option E) : Run A E :=
  match fuel with
  | O =>
      {| ending := match last_err with Some e => Raised e | None => RaisedNone end;
         attempts := 0; sleeps := [] |}
  | S fuel' =>
      match try_ attempt with
      | Succeeds a => {| ending := Returned a; attempts := 1; sleeps := [] |}
      | OtherFails e => {| ending := Raised e; attempts := 1; sleeps := [] |}
      | DbFails e =>
          if retries <=? Z.of_nat attempt
          then {| ending := Raised e; attempts := 1; sleeps := [] |}
          else if sleep_ok (delay attempt)
          then
            let rest := retry_from fuel' (S attempt) (Some e) in
            {| ending := ending rest;
               attempts := S (attempts rest);
               sleeps := delay attempt :: sleeps rest |}
          else {| ending := SleepRefused; attempts := 1; sleeps := [] |}
      end
  end.

(** The loop of [execute_stored_procedure], [query_dataframe] and
    [connectivity_info]. *)
Definition with_retries : Run A E := retry_from (Z.to_nat retries) 1 None.

End Retry.

(** The sum of the sleeps of a run *)
Definition total_sleep {A E} (r : Run A E) : Q := foldr Qplus 0%Q (sleeps r).

End Db.

(** * Column names for the SQL load: [pymlchurn/load_sql.py] *)

Module LoadSql.

(** [out.replace(k, v)] for a key of one character *)
Fixpoint replace_char (k : ascii) (v : string) (s : string) : string :=
  match s with
  | EmptyString => EmptyString
  | String c s' =>
      (if bool_decide (c = k) then v else String c EmptyString) ++ replace_char k v s'
  end.

(** The [replacements] dict, in its order. *)
Definition replacements : list (ascii * string) :=
  [(" "%char, "_"); ("/"%char, "_"); ("("%char, "_"); (")"%char, "");
   (":"%char, ""); (","%char, ""); ("%"%char, "pct"); ("-"%char, "_");
   ("["%char, ""); ("]"%char, ""); ("+"%char, "plus")].

Definition underscore : ascii := "_"%char.

(** ["__" in out] *)
Fixpoint has_double_underscore (s : string) : bool :=
  match s with
  | EmptyString => false
  | String a s' =>
      match s' with
      | EmptyString => false
      | String b _ =>
          (bool_decide (a = underscore) && bool_decide (b = underscore))
          || has_double_underscore s'
      end
  end.

(** [out.replace("__", "_")]: the occurrences are taken from the left and
    do not overlap. *)
Fixpoint collapse_once (s : string) : string :=
  match s with
  | EmptyString => EmptyString
  | String a s' =>
      match s' with
      | EmptyString => String a EmptyString
      | String b s'' =>
          if bool_decide (a = underscore) && bool_decide (b = underscore)
          then String underscore (collapse_once s'')
          else String a (collapse_once s')
      end
  end.

(** [while "__" in out: out = out.replace("__", "_")] *)
Fixpoint collapse_loop (fuel : nat) (s : string) : string :=
  match fuel with
  | O => s
  | S fuel' =>
      if has_double_underscore s then collapse_loop fuel' (collapse_once s) else s
  end.

Definition _sanitize (name : string) : string :=
  let out := lower (py_strip name) in
  let out := foldl (fun o kv => replace_char (fst kv) (snd kv) o) out replacements in
  let out := collapse_loop (String.length out) out in
  strip_by (fun c => bool_decide (c = underscore)) out.

(** The rest of a name after its first letter, for
    [^[A-Za-z][A-Za-z0-9]*$]: letters and digits to the end, where [$] also
    accepts one final newline. *)
Fixpoint alnum_to_end (s : string) : bool :=
  match s with
  | EmptyString => true
  | String c s' =>
      if is_alnum c then alnum_to_end s'
      else bool_decide (c = "010"%char) && bool_decide (s' = EmptyString)
  end.

Definition _is_safe_name (name : string) : bool :=
  match name with
  | EmptyString => false
  | String c s' => is_alpha c && alnum_to_end s'
  end.

(** The [rename] map of [_map_dtypes], as a function of the column: the
    names are kept when all of them are safe, and all sanitized
    otherwise. *)
Definition rename (columns : list string) (c : string) : string :=
  if forallb _is_safe_name columns then c else _sanitize c.

End LoadSql.

(** * Output columns: [main] in [pymlchurn/cli.py] and [pyMLChurn.py] *)

Module Cli.

Definition starts_alnum (s : string) : bool :=
  match s with
  | EmptyString => false
  | String c _ => is_alnum c
  end.

(** [re.findall(r"[A-Za-z0-9]+", name)]: the maximal runs of letters and
    digits.  A letter or digit joins the run that follows it, or starts a
    run of its own. *)
Fixpoint tokens (s : string) : list string :=
  match s with
  | EmptyString => []
  | String c s' =>
      let rest := tokens s' in
      if is_alnum c then
        match starts_alnum s', rest with
        | true, t :: ts => String c t :: ts
        | _, _ => String c EmptyString :: rest
        end
      else rest
  end.

(** [t.capitalize()] on a token of letters and digits *)
Definition capitalize (t : string) : string :=
  match t with
  | EmptyString => EmptyString
  | String c rest => String (upper_char c) (lower rest)
  end.

(** [t.isnumeric()] on a token of letters and digits *)
Definition isnumeric (t : string) : bool :=
  Ml.nonempty t && string_forall is_digit t.

(** The first character of a name that is a letter, a digit or a percent
    sign: what decides how the Pascal-case name begins. *)
Definition leading (s : string) : option ascii :=
  find_char (fun c => is_alnum c || bool_decide (c = "%"%char)) s.

Definition _to_pascal (name : string) : string :=
  let name := LoadSql.replace_char "%" " Pct " name in
  String.concat ""
    ((fun t => if isnumeric t then t else capitalize t) <$> tokens name).

(** [[c for c in cols_pref if c in columns] + [c for c in columns if c not
    in cols_pref]] *)
Definition ordered (cols_pref columns : list string) : list string :=
  filter (fun c => c ∈ columns) cols_pref ++ filter (fun c => c ∉ cols_pref) columns.

(** One queried row, as the deduplication sees it: its position in the
    frame, its customer and its date. *)
Record Row := { position : nat; customer : Z; as_of_date : option string }.

(** The date column is made text and stripped; the texts that stand for a
    missing date become NA ([None]). *)
Definition normalize_date (raw : string) : option string :=
  let s := py_strip raw in
  if Ml.member s ["None"; "NaT"; "nan"; ""] then None else Some s.

(** The order of [sort_values] on the date column with
    [na_position='first']: NA before every text, texts as strings. *)
Definition date_le (a b : option string) : bool :=
  match a, b with
  | None, _ => true
  | Some _, None => false
  | Some x, Some y => String.leb x y
  end.

(** What [sort_values] returns is in that order: no row has a date
    before the date of a row above it. *)
Fixpoint in_date_order (rows : list Row) : bool :=
  match rows with
  | [] => true
  | r :: rest =>
      forallb (fun r' => date_le (as_of_date r) (as_of_date r')) rest
      && in_date_order rest
  end.

(** [drop_duplicates(subset=[CUSTOMER_ID_COL], keep='last')] *)
Fixpoint drop_duplicates_last (rows : list Row) : list Row :=
  match rows with
  | [] => []
  | r :: rest =>
      if existsb (fun r' => customer r' =? customer r) rest
      then drop_duplicates_last rest
      else r :: drop_duplicates_last rest
  end.

End Cli.

(** * Sample inputs, continued *)

(** The configuration of [cfg_ml] with a feature that no sample frame
    has. *)
Definition cfg_tenure : Ml.MLConfig :=
  {| Ml.customer_id_col := "customer_id";
     Ml.feature_cols := ["recency_days"; "tenure_days"];
     Ml.target_col := Some "churned_hard90";
     Ml.date_col := Some "as_of_date" |}.

(** A database that times out twice and answers at the third attempt, and
    one that never answers. *)
Definition third_attempt_answers (k : nat) : Db.Attempt string string :=
  if (k <? 3)%nat then Db.DbFails "timeout" else Db.Succeeds "ok".

Definition never_answers (_ : nat) : Db.Attempt string string := Db.DbFails "timeout".

(** A clock that sleeps any length from nothing to a million seconds. *)
Definition sleeps_up_to_a_million (q : Q) : bool :=
  Qle_bool 0 q && Qle_bool q 1000000.

(** Three queried rows of two customers, as queried and as sorted by
    date. *)
Definition row_a : Cli.Row :=
  {| Cli.position := 0; Cli.customer := 101; Cli.as_of_date := Some "2024-03-01" |}.
Definition row_b : Cli.Row :=
  {| Cli.position := 1; Cli.customer := 101; Cli.as_of_date := None |}.
Definition row_c : Cli.Row :=
  {| Cli.position := 2; Cli.customer := 102; Cli.as_of_date := Some "2024-03-02" |}.

(** * Properties *)

(** ** The reference codec on sample timestamps *)

Example isoformat_ref_epoch :
  isoformat_ref (Aware 0 0) = "1970-01-01T00:00:00+00:00".
Proof. reflexivity. Qed.

Example isoformat_ref_2024 :
  isoformat_ref (Aware 1709217000123456 0) = "2024-02-29T14:30:00.123456+00:00".
Proof. vm_compute. reflexivity. Qed.

Example fromisoformat_ref_2024 :
  fromisoformat_ref "2024-02-29T14:30:00.123456+00:00" = Some (Aware 1709217000123456 0).
Proof. vm_compute. reflexivity. Qed.

Example fromisoformat_ref_naive :
  fromisoformat_ref "2024-02-29T14:30:00" = Some (Naive 1709217000000000).
Proof. vm_compute. reflexivity. Qed.

Example fromisoformat_ref_garbage :
  fromisoformat_ref "yesterday" = None.
Proof. reflexivity. Qed.


(** ** Gate keys *)

Lemma lower_char_same_letter (a b : ascii) :
  same_letter a b = true -> lower_char a = lower_char b.
Proof.
  unfold same_letter. intros H.
  apply orb_prop in H as [H | H]; [apply orb_prop in H as [H | H] |].
  - apply bool_decide_eq_true in H. by subst.
  - apply andb_prop in H as [Hup Hb]. apply bool_decide_eq_true in Hb.
    unfold lower_char at 1. rewrite Hup, <- Hb.
    unfold lower_char.
    assert (Hn : is_upper b = false); [| by rewrite Hn].
    unfold is_upper in *. subst b.
    apply andb_prop in Hup as [H1 H2].
    apply Nat.leb_le in H1, H2.
    rewrite nat_ascii_embedding by lia.
    apply andb_false_iff. right. apply Nat.leb_gt. lia.
  - apply andb_prop in H as [Hup Ha]. apply bool_decide_eq_true in Ha.
    unfold lower_char at 2. rewrite Hup, <- Ha.
    unfold lower_char.
    assert (Hn : is_upper a = false); [| by rewrite Hn].
    unfold is_upper in *. subst a.
    apply andb_prop in Hup as [H1 H2].
    apply Nat.leb_le in H1, H2.
    rewrite nat_ascii_embedding by lia.
    apply andb_false_iff. right. apply Nat.leb_gt. lia.
Qed.

Lemma lower_differ_only_in_case (s t : string) :
  differ_only_in_case s t = true -> lower s = lower t.
Proof.
  revert t. induction s as [| a s IH]; intros [| b t] H; simpl in *; try done.
  apply andb_prop in H as [Hc Hr].
  by rewrite (lower_char_same_letter a b Hc), (IH t Hr).
Qed.

(** The relation is exactly equality after lowering. *)
Lemma same_letter_lower_char (a b : ascii) :
  lower_char a = lower_char b -> same_letter a b = true.
Proof.
  unfold lower_char, same_letter. intros H.
  destruct (is_upper a) eqn:Ha, (is_upper b) eqn:Hb.
  - assert (nat_of_ascii a = nat_of_ascii b) as Hn.
    { unfold is_upper in Ha, Hb.
      apply andb_prop in Ha as [_ Ha]. apply andb_prop in Hb as [_ Hb].
      apply Nat.leb_le in Ha, Hb.
      apply (f_equal nat_of_ascii) in H.
      rewrite !nat_ascii_embedding in H by lia. lia. }
    rewrite <- (ascii_nat_embedding a), <- (ascii_nat_embedding b), Hn.
    by rewrite bool_decide_eq_true_2.
  - apply orb_true_iff. left. apply orb_true_iff. right.
    simpl. by apply bool_decide_eq_true_2.
  - apply orb_true_iff. right. simpl. by apply bool_decide_eq_true_2.
  - by rewrite bool_decide_eq_true_2.
Qed.

Lemma differ_only_in_case_lower (s t : string) :
  lower s = lower t -> differ_only_in_case s t = true.
Proof.
  revert t. induction s as [| a s IH]; intros [| b t] H; simpl in *; try done.
  injection H as Hc Hr.
  by rewrite (same_letter_lower_char a b Hc), (IH t Hr).
Qed.

(** On ASCII text the reference lowering is [lower]. *)
Lemma lower_char_simple_lower (c : ascii) :
  is_ascii_char c = true ->
  encode_char (simple_lower (Z.of_nat (nat_of_ascii c))) = String (lower_char c) ""
  /\ (Z.of_nat (nat_of_ascii c) =? 931) = false
  /\ (Z.of_nat (nat_of_ascii c) <? 128) = true.
Proof. destruct c as [[] [] [] [] [] [] [] []]; intros H; try done; by vm_compute. Qed.

Lemma lower_from_ascii (before : bool) (s : string) :
  is_ascii s = true -> encode_utf8 (lower_from before (decode_utf8 s)) = lower s.
Proof.
  revert before. induction s as [| c s IH]; intros before; [done |].
  cbn [is_ascii]. intros [Hc Hs]%andb_prop.
  destruct (lower_char_simple_lower c Hc) as (Hl & Hsig & Hlt).
  cbn [decode_utf8 lower]. cbv zeta. rewrite Hlt.
  cbn [lower_from encode_utf8]. rewrite Hsig, Hl, (IH _ Hs). done.
Qed.

Lemma str_lower_ref_ascii (s : string) :
  is_ascii s = true -> str_lower_ref s = lower s.
Proof. apply lower_from_ascii. Qed.

Lemma same_letter_ascii (a b : ascii) :
  same_letter a b = true -> is_ascii_char a = true -> is_ascii_char b = true.
Proof. destruct a as [[] [] [] [] [] [] [] []], b as [[] [] [] [] [] [] [] []]; by vm_compute. Qed.

Lemma differ_only_in_case_ascii (s t : string) :
  differ_only_in_case s t = true -> is_ascii s = true -> is_ascii t = true.
Proof.
  revert t. induction s as [| a s IH]; intros [| b t] H; simpl in *; try done.
  apply andb_prop in H as [Hc Hr]. intros [Ha Hs]%andb_prop.
  by rewrite (same_letter_ascii a b Hc Ha), (IH t Hr Hs).
Qed.

Lemma lower_agrees (str_lower : string -> string) (s t : string) :
  (forall u, is_ascii u = true -> str_lower u = lower u) ->
  is_ascii s = true -> differ_only_in_case s t = true ->
  str_lower s = str_lower t.
Proof.
  intros Hlow Hs Hd.
  rewrite (Hlow s Hs), (Hlow t (differ_only_in_case_ascii s t Hd Hs)).
  by apply lower_differ_only_in_case.
Qed.




(** ** The gate's decisions *)

Example datetime_range :
  DATETIME_MIN = days_from_civil 1 1 1 * usec_per_day
  /\ DATETIME_MAX = (days_from_civil 9999 12 31 + 1) * usec_per_day - 1.
Proof. split; reflexivity. Qed.

Section GateFacts.

Import SpRunner.

Variable str_lower : string -> string.
Variable isoformat : datetime -> string.
Variable fromisoformat : string -> option datetime.
Variable run_procedure : Config -> string -> string -> Z -> Res Z.

Abbreviation _sp_key := (SpRunner._sp_key str_lower).
Abbreviation should_run := (SpRunner.should_run str_lower fromisoformat).
Abbreviation mark_ran := (SpRunner.mark_ran str_lower isoformat).
Abbreviation maybe_run_sp :=
  (SpRunner.maybe_run_sp str_lower isoformat fromisoformat run_procedure).
Abbreviation run_outcome := (SpRunner.run_outcome str_lower isoformat run_procedure).

Lemma load_state_loaded (w : World) :
  exists_answers (file w) = true -> _load_state w = (Ok (loaded (file w)), w).
Proof. unfold _load_state. by destruct (file w). Qed.

Lemma load_state_inaccessible (w : World) :
  file w = Inaccessible -> _load_state w = (Raise OSError, w).
Proof. unfold _load_state. by intros ->. Qed.

(** A file that loads as a mapping with an entry is there. *)
Lemma loaded_entry (f : StateFile) (kvs : gmap string Json) (k : string) (v : Json) :
  loaded f = JObj kvs -> kvs !! k = Some v -> exists_answers f = true.
Proof. destruct f; simpl; try done. intros [= <-]. by rewrite lookup_empty. Qed.

Lemma ttl_raises (p : SPRunPolicy) (e : exn) : ttl p = Raise e -> e = OverflowError.
Proof. unfold ttl, timedelta. destruct (_ && _); [done | by intros [= <-]]. Qed.

Lemma should_run_unknown cfg sp schema policy w kvs :
  exists_answers (file w) = true ->
  loaded (file w) = JObj kvs ->
  kvs !! _sp_key cfg sp schema = None ->
  should_run cfg sp schema policy w = (Ok (true, None), w).
Proof.
  intros He Hl Hk. unfold SpRunner.should_run, mbind, M_bind.
  rewrite load_state_loaded, Hl by done. unfold lift, py_get. by rewrite Hk.
Qed.

(** What [should_run] does with a stored string that parses. *)
Lemma should_run_parsed cfg sp schema policy w kvs s last :
  loaded (file w) = JObj kvs ->
  kvs !! _sp_key cfg sp schema = Some (JStr s) ->
  s <> "" ->
  fromisoformat s = Some last ->
  should_run cfg sp schema policy w
  = match ttl policy with
    | Raise e => (Raise e, w)
    | Ok life =>
        match dt_add last life with
        | Raise e => (Raise e, w)
        | Ok due =>
            match dt_ge (Aware (clock w) 0) due with
            | Raise e => (Raise e, w)
            | Ok b => (Ok (b, Some last), w)
            end
        end
    end.
Proof.
  intros Hl Hk Hs Hp. unfold SpRunner.should_run, mbind, M_bind.
  rewrite load_state_loaded, Hl by (by eapply loaded_entry).
  unfold lift, py_get. rewrite Hk. simpl.
  rewrite bool_decide_eq_false_2 by done. simpl. rewrite Hp.
  destruct (ttl policy) as [life | e]; [| done].
  destruct (dt_add last life) as [due | e]; [| done].
  unfold _now_utc. by destruct (dt_ge (Aware (clock w) 0) due).
Qed.

Lemma should_run_known cfg sp schema policy w kvs s t off life :
  loaded (file w) = JObj kvs ->
  kvs !! _sp_key cfg sp schema = Some (JStr s) ->
  s <> "" ->
  fromisoformat s = Some (Aware t off) ->
  ttl policy = Ok life ->
  in_range (t + off + life) = true ->
  should_run cfg sp schema policy w
  = (Ok (t + life <=? clock w, Some (Aware t off)), w).
Proof.
  intros Hl Hk Hs Hp Ht Hr.
  rewrite (should_run_parsed _ _ _ _ _ kvs s (Aware t off)) by done.
  rewrite Ht. simpl. by rewrite Hr.
Qed.

Lemma should_run_overflow cfg sp schema policy w kvs s t off :
  loaded (file w) = JObj kvs ->
  kvs !! _sp_key cfg sp schema = Some (JStr s) ->
  s <> "" ->
  fromisoformat s = Some (Aware t off) ->
  ttl policy = Raise OverflowError
  \/ (exists life, ttl policy = Ok life /\ in_range (t + off + life) = false) ->
  should_run cfg sp schema policy w = (Raise OverflowError, w).
Proof.
  intros Hl Hk Hs Hp Hover.
  rewrite (should_run_parsed _ _ _ _ _ kvs s (Aware t off)) by done.
  destruct Hover as [-> | (life & -> & Hr)]; [done |]. simpl. by rewrite Hr.
Qed.

Lemma mark_ran_records cfg sp schema w kvs :
  exists_answers (file w) = true ->
  loaded (file w) = JObj kvs ->
  mark_ran cfg sp schema w
  = if writable w
    then (Ok tt, recorded isoformat kvs (_sp_key cfg sp schema) (clock w))
    else (Raise OSError, w).
Proof.
  intros He Hl. unfold SpRunner.mark_ran, mbind, M_bind.
  rewrite load_state_loaded, Hl by done. simpl. unfold _save_state. simpl.
  by destruct (writable w).
Qed.

Lemma run_and_record cfg sp schema w kvs (result : RunResult) :
  exists_answers (file w) = true ->
  loaded (file w) = JObj kvs ->
  (_ ← execute_stored_procedure run_procedure cfg sp schema;
   _ ← mark_ran cfg sp schema;
   mret result) w
  = run_outcome cfg sp schema result kvs w.
Proof.
  intros He Hl. unfold SpRunner.run_outcome, mbind, M_bind, execute_stored_procedure.
  destruct (run_procedure cfg sp schema (clock w)) as [t' | e]; [| done].
  rewrite (mark_ran_records _ _ _ _ kvs) by done. simpl.
  by destruct (writable w).
Qed.

Lemma maybe_run_sp_forced cfg sp schema policy w kvs :
  exists_answers (file w) = true ->
  loaded (file w) = JObj kvs ->
  maybe_run_sp cfg sp schema true policy w
  = run_outcome cfg sp schema {| ran := true; reason := "forced" |} kvs w.
Proof. intros He Hl. by apply run_and_record. Qed.

Lemma maybe_run_sp_unknown cfg sp schema policy w kvs :
  exists_answers (file w) = true ->
  loaded (file w) = JObj kvs ->
  kvs !! _sp_key cfg sp schema = None ->
  maybe_run_sp cfg sp schema false policy w
  = run_outcome cfg sp schema {| ran := true; reason := "ttl_expired" |} kvs w.
Proof.
  intros He Hl Hk. unfold SpRunner.maybe_run_sp.
  unfold mbind at 1, M_bind at 1.
  rewrite (should_run_unknown _ _ _ _ _ kvs) by done.
  by apply run_and_record.
Qed.

Lemma maybe_run_sp_known cfg sp schema policy w kvs s t off life :
  loaded (file w) = JObj kvs ->
  kvs !! _sp_key cfg sp schema = Some (JStr s) ->
  s <> "" ->
  fromisoformat s = Some (Aware t off) ->
  ttl (default default_policy policy) = Ok life ->
  in_range (t + off + life) = true ->
  (t + life <= clock w ->
     maybe_run_sp cfg sp schema false policy w
     = run_outcome cfg sp schema {| ran := true; reason := "ttl_expired" |} kvs w)
  /\ (clock w < t + life ->
      maybe_run_sp cfg sp schema false policy w
      = (Ok {| ran := false;
               reason := "recent (last run " ++ isoformat (Aware t off) ++ ")" |}, w)).
Proof.
  intros Hl Hk Hs Hp Ht Hr. split.
  - intros Hdue. unfold SpRunner.maybe_run_sp.
    unfold mbind at 1, M_bind at 1.
    rewrite (should_run_known _ _ _ _ _ kvs s t off life) by done.
    rewrite (proj2 (Z.leb_le _ _)) by done.
    apply run_and_record; [by eapply loaded_entry | done].
  - intros Hfresh. unfold SpRunner.maybe_run_sp.
    unfold mbind at 1, M_bind at 1.
    rewrite (should_run_known _ _ _ _ _ kvs s t off life) by done.
    by rewrite (proj2 (Z.leb_gt _ _)) by done.
Qed.

Lemma maybe_run_sp_overflow cfg sp schema policy w kvs s t off :
  loaded (file w) = JObj kvs ->
  kvs !! _sp_key cfg sp schema = Some (JStr s) ->
  s <> "" ->
  fromisoformat s = Some (Aware t off) ->
  ttl (default default_policy policy) = Raise OverflowError
  \/ (exists life, ttl (default default_policy policy) = Ok life
                   /\ in_range (t + off + life) = false) ->
  maybe_run_sp cfg sp schema false policy w = (Raise OverflowError, w).
Proof.
  intros Hl Hk Hs Hp Hover. unfold SpRunner.maybe_run_sp.
  unfold mbind at 1, M_bind at 1.
  by rewrite (should_run_overflow _ _ _ _ _ kvs s t off).
Qed.



(** C10. A key whose stored value is a string that does not parse as an ISO
    datetime is due: [should_run] returns [(True, None)]. *)
Theorem should_run_malformed_timestamp cfg sp schema policy w kvs s :
  loaded (file w) = JObj kvs ->
  kvs !! _sp_key cfg sp schema = Some (JStr s) ->
  fromisoformat s = None ->
  should_run cfg sp schema policy w = (Ok (true, None), w).
Proof.
  intros Hl Hk Hp. unfold SpRunner.should_run, mbind, M_bind.
  rewrite load_state_loaded, Hl by (by eapply loaded_entry).
  unfold lift, py_get. rewrite Hk. simpl.
  destruct (bool_decide (s = "")); simpl; [done |]. by rewrite Hp.
Qed.

End GateFacts.

(** *** The gate on concrete state files *)





Lemma should_run_malformed_timestamp_witness :
  let w := {| SpRunner.file := SpRunner.Holds (JObj {[ key0 := JStr "last tuesday" ]});
              SpRunner.writable := true; SpRunner.clock := t0 |} in
  SpRunner.should_run str_lower_ref fromisoformat_ref cfg0
    "sp_build_customer_churn_cadence_v1" "dbo" SpRunner.default_policy w
  = (Ok (true, None), w).
Proof.
  intros w.
  apply (should_run_malformed_timestamp str_lower_ref fromisoformat_ref cfg0 _ _ _ w
           {[ key0 := JStr "last tuesday" ]} "last tuesday");
    vm_compute; reflexivity.
Defined.

(** A first call on a missing state file runs and records; a second call
    an hour later, with the default policy, reads the recorded time back
    and skips. *)
Example gate_second_call_skips :
  let run := SpRunner.maybe_run_sp str_lower_ref isoformat_ref fromisoformat_ref runner0
               cfg0 "sp_build_customer_churn_cadence_v1" "dbo" false None in
  let first := {| SpRunner.file := SpRunner.Absent; SpRunner.writable := true;
                  SpRunner.clock := t0 |} in
  let later w := {| SpRunner.file := SpRunner.file w; SpRunner.writable := true;
                    SpRunner.clock := SpRunner.clock w + timedelta_hours 1 |} in
  SpRunner.ran <$> fst (run first) = Ok true
  /\ SpRunner.ran <$> fst (run (later (snd (run first)))) = Ok false.
Proof. vm_compute. split; reflexivity. Qed.

(** Two stores outside the reach of the transitions above.  A JSON document
    that is not an object has no [get]: the gate raises on it.  A stored
    timestamp without a time zone cannot be compared with the aware clock
    reading: the gate raises on it too.  The gate itself writes neither. *)
Example gate_on_list_document :
  SpRunner.maybe_run_sp str_lower_ref isoformat_ref fromisoformat_ref runner0
    cfg0 "sp_build_customer_churn_cadence_v1" "dbo" false None w_list
  = (Raise AttributeError, w_list).
Proof. reflexivity. Qed.

Example gate_on_naive_timestamp :
  let w := {| SpRunner.file := SpRunner.Holds (JObj {[ key0 := JStr "2024-03-01T08:00:00" ]});
              SpRunner.writable := true; SpRunner.clock := t0 |} in
  SpRunner.maybe_run_sp str_lower_ref isoformat_ref fromisoformat_ref runner0
    cfg0 "sp_build_customer_churn_cadence_v1" "dbo" false None w
  = (Raise TypeError, w).
Proof. vm_compute. reflexivity. Qed.

(** ** The business rule *)

Lemma business_churn_now_flag (days : option Z) (th : Z) :
  BusinessRule.business_churn_now days th = 1 <-> th <= BusinessRule.days_i days /\ is_Some days.
Proof.
  unfold BusinessRule.business_churn_now, BusinessRule.days_i.
  destruct days as [d |]; simpl.
  - destruct (Z.leb_spec th d); split; try lia; try (intros [? _]; lia); eauto.
  - split; [done | intros [_ [? ?]]; done].
Qed.

Lemma churn_now_iff (today : Z) (as_of_dt : option Z) (grace_cell : Cell) :
  BusinessRule.churn_now (BusinessRule.evaluate today as_of_dt grace_cell) = 1
  <-> BusinessRule.threshold (BusinessRule.in_grace grace_cell)
      <= BusinessRule.days_i (BusinessRule.days_since_purchase_today today as_of_dt).
Proof.
  simpl. split.
  - intros H. by apply business_churn_now_flag in H as [H _].
  - intros H. apply business_churn_now_flag. split; [done |].
    destruct as_of_dt; simpl in *; [eauto |].
    unfold BusinessRule.threshold in H. destruct (BusinessRule.in_grace grace_cell); lia.
Qed.

(** C4. The threshold is 90 days, plus 30 for a customer in grace: 120
    days for a record whose grace cell is [True], 90 for one whose cell is
    [False], and for any other cell by its cast to bool.  The flag is 1
    exactly when the day count reaches the threshold (a missing day count
    is 0 days and never reaches it).  Out of grace, 89 days give flag 0
    and the recent-purchase reason, 90 days give flag 1 and the
    no-purchase reason; in grace, 110 days give flag 0 and the grace
    reason, 121 days give flag 1 and the grace-exceeded reason. *)
Theorem business_rule_threshold (today : Z) (as_of_dt : option Z) (grace_cell : Cell) :
  let out := BusinessRule.evaluate today as_of_dt grace_cell in
  let in_g := BusinessRule.in_grace grace_cell in
  let days := BusinessRule.days_i (BusinessRule.days_since_purchase_today today as_of_dt) in
  BusinessRule.threshold in_g = 90 + (if in_g then 30 else 0)
  /\ (BusinessRule.churn_now out = 1 <-> BusinessRule.threshold in_g <= days)
  /\ (BusinessRule.churn_now out = 0 \/ BusinessRule.churn_now out = 1)
  /\ in_g = astype_bool grace_cell
  /\ (BusinessRule.churn_now out = 1
      <-> 90 + (if astype_bool grace_cell then 30 else 0) <= days)
  /\ (forall b : bool,
        BusinessRule.churn_now (BusinessRule.evaluate today as_of_dt (CBool b)) = 1
        <-> (if b then 120 else 90) <= days)
  /\ BusinessRule.evaluate today (Some (today - 89)) (CBool false)
     = {| BusinessRule.days_since_last_purchase_today := Some 89;
          BusinessRule.churn_now := 0;
          BusinessRule.churn_reason := "Recent purchase within last 90 days" |}
  /\ BusinessRule.evaluate today (Some (today - 90)) (CBool false)
     = {| BusinessRule.days_since_last_purchase_today := Some 90;
          BusinessRule.churn_now := 1;
          BusinessRule.churn_reason := "No purchases for 90 days" |}
  /\ BusinessRule.evaluate today (Some (today - 110)) (CBool true)
     = {| BusinessRule.days_since_last_purchase_today := Some 110;
          BusinessRule.churn_now := 0;
          BusinessRule.churn_reason := "In renewal grace period (extra 30 days)" |}
  /\ BusinessRule.evaluate today (Some (today - 121)) (CBool true)
     = {| BusinessRule.days_since_last_purchase_today := Some 121;
          BusinessRule.churn_now := 1;
          BusinessRule.churn_reason := "No purchases for 121 days; Grace period exceeded" |}.
Proof.
  intros out in_g days.
  assert (Hflag : BusinessRule.churn_now out = 1 <-> BusinessRule.threshold in_g <= days)
    by apply churn_now_iff.
  assert (Hth : BusinessRule.threshold in_g = 90 + (if in_g then 30 else 0))
    by (unfold BusinessRule.threshold; by destruct in_g).
  split; [exact Hth |]. split; [exact Hflag |]. split.
  { subst out. simpl. unfold BusinessRule.business_churn_now.
    destruct (BusinessRule.days_since_purchase_today today as_of_dt); [| by left].
    destruct (_ <=? _); [by right | by left]. }
  split; [reflexivity |]. split.
  { rewrite Hflag, Hth. reflexivity. }
  split.
  { intros b. rewrite (churn_now_iff today as_of_dt (CBool b)).
    unfold BusinessRule.threshold. simpl. by destruct b. }
  unfold BusinessRule.evaluate, BusinessRule.days_since_purchase_today. simpl.
  replace (today - (today - 89)) with 89 by lia.
  replace (today - (today - 90)) with 90 by lia.
  replace (today - (today - 110)) with 110 by lia.
  replace (today - (today - 121)) with 121 by lia.
  repeat split; reflexivity.
Qed.

(** C9. A record whose [in_renewal_grace] cell is NaN counts as in grace:
    the cast to bool makes it true before [fillna(False)] can act, so its
    threshold is 120 days and the flag is 1 exactly from 120 days on. *)
Theorem missing_grace_counts_as_grace (today : Z) (as_of_dt : option Z) :
  let out := BusinessRule.evaluate today as_of_dt CNaN in
  let days := BusinessRule.days_i (BusinessRule.days_since_purchase_today today as_of_dt) in
  BusinessRule.in_grace CNaN = true
  /\ BusinessRule.threshold (BusinessRule.in_grace CNaN) = 120
  /\ (BusinessRule.churn_now out = 1 <-> 120 <= days)
  /\ BusinessRule.evaluate today (Some (today - 100)) CNaN
     = {| BusinessRule.days_since_last_purchase_today := Some 100;
          BusinessRule.churn_now := 0;
          BusinessRule.churn_reason := "In renewal grace period (extra 30 days)" |}.
Proof.
  intros out days.
  repeat split; try apply (churn_now_iff today as_of_dt CNaN).
  unfold BusinessRule.evaluate, BusinessRule.days_since_purchase_today. simpl.
  replace (today - (today - 100)) with 100 by lia. reflexivity.
Qed.

(** In a column of Python objects a missing value is [None], and [None]
    casts to false: such a record is out of grace. *)
Example none_grace_is_out_of_grace :
  BusinessRule.in_grace CNone = false
  /\ BusinessRule.threshold (BusinessRule.in_grace CNone) = 90.
Proof. split; reflexivity. Qed.

(** ** The explanation loop *)

Lemma insert_sorted_perm (x : nat * Q) (xs : list (nat * Q)) :
  Ml.insert_sorted x xs ≡ₚ x :: xs.
Proof.
  induction xs as [| y xs IH]; simpl; [done |].
  destruct (Qle_bool (x.2) (y.2)); [done |].
  rewrite IH. apply Permutation_swap.
Qed.

Lemma argsort_perm (values : list Q) :
  Ml.argsort values ≡ₚ seq 0 (length values).
Proof.
  unfold Ml.argsort.
  assert (H : forall l : list (nat * Q), foldr Ml.insert_sorted [] l ≡ₚ l).
  { induction l as [| x l IH]; simpl; [done |].
    by rewrite insert_sorted_perm, IH. }
  rewrite H, fst_zip; [done |]. by rewrite length_seq.
Qed.

(** Every index that [argsort] returns is an index of the array. *)
Lemma argsort_in_range (values : list Q) (idx : nat) :
  idx ∈ Ml.argsort values -> (idx < length values)%nat.
Proof.
  rewrite argsort_perm, elem_of_seq. lia.
Qed.

Lemma explain_rows_length body i n (reasons : list string) :
  length (Ml.explain_rows body i n reasons) = length reasons.
Proof.
  revert i reasons. induction n as [| n IH]; intros i reasons; simpl; [done |].
  destruct (body i) as [[r |] | e]; rewrite ?IH, ?length_insert; done.
Qed.

(** The loop never writes below its current row. *)
Lemma explain_rows_before body i n (reasons : list string) (j : nat) :
  (j < i)%nat -> Ml.explain_rows body i n reasons !! j = reasons !! j.
Proof.
  revert i reasons. induction n as [| n IH]; intros i reasons Hj; simpl; [done |].
  destruct (body i) as [[r |] | e]; [| apply IH; lia | done].
  rewrite IH by lia. apply list_lookup_insert_ne. lia.
Qed.

(** Once a row raises, no row from it on is written. *)
Lemma explain_rows_after_raise body i n (reasons : list string) (k j : nat) e :
  body k = Raise e -> (i <= k)%nat -> (k <= j)%nat ->
  Ml.explain_rows body i n reasons !! j = reasons !! j.
Proof.
  revert i reasons. induction n as [| n IH]; intros i reasons Hk Hik Hkj; simpl; [done |].
  destruct (decide (i = k)) as [-> | Hne]; [by rewrite Hk |].
  destruct (body i) as [[r |] | e']; [| apply IH; (done || lia) | done].
  rewrite IH by (done || lia). apply list_lookup_insert_ne. lia.
Qed.

(** A row reached without a raise holds what its body returned. *)
Lemma explain_rows_reached body i n (reasons : list string) (j : nat) :
  (forall k, (i <= k <= j)%nat -> is_ok (body k) = true) ->
  (i <= j < i + n)%nat -> (j < length reasons)%nat ->
  Ml.explain_rows body i n reasons !! j
  = match body j with
    | Ok (Some r) => Some r
    | _ => reasons !! j
    end.
Proof.
  revert i reasons. induction n as [| n IH]; intros i reasons Hok Hj Hlen; simpl; [lia |].
  destruct (decide (i = j)) as [-> | Hne].
  - pose proof (Hok j ltac:(lia)) as Hj'.
    destruct (body j) as [[r |] | e]; simpl in Hj'; [| | done].
    + rewrite explain_rows_before by lia. by apply list_lookup_insert_eq.
    + by rewrite explain_rows_before by lia.
  - pose proof (Hok i ltac:(lia)) as Hi.
    destruct (body i) as [[r |] | e] eqn:Hb; simpl in Hi; [| | done].
    + rewrite IH; [| intros k Hk; apply Hok; lia | lia | by rewrite length_insert].
      destruct (body j) as [[r' |] | e']; [done | |];
        apply list_lookup_insert_ne; lia.
    + apply IH; [intros k Hk; apply Hok; lia | lia | done].
Qed.

Section MlFacts.

Variable float_of_str : string -> option pyfloat.
Context {Fitted : Type}.
Variable fit : list (list pyfloat) -> list Z -> Res Fitted.
Variable predict_proba : Fitted -> list (list pyfloat) -> list Q.
Variable transform : Fitted -> list (list pyfloat) -> list (list Q).
Variable coef_ : Fitted -> list Q.
Variable shap_values : Fitted -> list (list Q) -> option (list (list Q)).

Abbreviation score := (Ml.score float_of_str fit predict_proba transform shap_values).
Abbreviation train_and_predict :=
  (Ml.train_and_predict float_of_str fit predict_proba transform coef_ shap_values).
Abbreviation labels := (Ml.labels float_of_str).
Abbreviation select_phrases := (Ml.select_phrases float_of_str).
Abbreviation phrase_for := (Ml.phrase_for float_of_str).
Abbreviation risk_phrase := (Ml.risk_phrase float_of_str).
Abbreviation row_reason := (Ml.row_reason float_of_str coef_).
Abbreviation contribution := (Ml.contribution coef_).
Abbreviation predicted_reasons := (Ml.predicted_reasons float_of_str coef_).
Abbreviation reasons_of := (Ml.reasons_of float_of_str coef_).

Section Rows.

Variable df : Ml.DataFrame.
Variable cols : list string.
Variable pipe : option Fitted.
Variable Xt : list (list Q).
Variable phi : option (list (list Q)).

Lemma select_phrases_cons positive_only contrib i idx rest acc :
  select_phrases df cols Xt positive_only contrib i (idx :: rest) acc
  = if (3 <=? length acc)%nat then Ok acc
    else
      skip ← (if positive_only
              then c ← Ml.index contrib idx; Ok (Qle_bool c 0)
              else Ok false);
      if (skip : bool) then select_phrases df cols Xt positive_only contrib i rest acc
      else
        phrase ← phrase_for df cols Xt i idx;
        select_phrases df cols Xt positive_only contrib i rest
          (if Ml.nonempty phrase then acc ++ [phrase] else acc).
Proof. reflexivity. Qed.

(** The inner loop keeps two facts about [phrases]: at most three
    entries, and, when only risk drivers are wanted, each entry stands for
    a contribution above zero. *)
Lemma select_phrases_invariant contrib i order acc phrases :
  Forall (risk_phrase df cols Xt contrib i) acc -> (length acc <= 3)%nat ->
  select_phrases df cols Xt true contrib i order acc = Ok phrases ->
  Forall (risk_phrase df cols Xt contrib i) phrases /\ (length phrases <= 3)%nat.
Proof.
  revert acc. induction order as [| idx order IH]; intros acc Hacc Hlen.
  - simpl. intros [= ->]. done.
  - rewrite select_phrases_cons.
    destruct (3 <=? length acc)%nat eqn:H3; [intros [= ->]; done |].
    apply Nat.leb_gt in H3.
    destruct (Ml.index contrib idx) as [c | e] eqn:Hc; simpl; [| done].
    destruct (Qle_bool c 0) eqn:Hle; [by apply IH |].
    destruct (phrase_for df cols Xt i idx) as [p | e] eqn:Hp; simpl; [| done].
    apply IH.
    + unfold Ml.nonempty. destruct (bool_decide (p = "")) eqn:Hne; simpl; [done |].
      apply Forall_app. split; [done |]. apply Forall_singleton.
      exists idx, c. unfold Ml.index in Hc.
      destruct (contrib !! idx) eqn:Hl; [| done]. injection Hc as ->.
      repeat split; [| done | by apply bool_decide_eq_false in Hne].
      destruct (Qlt_le_dec 0 c) as [Hlt | Hge]; [done |].
      apply Qle_bool_iff in Hge. congruence.
    + destruct (Ml.nonempty p); [rewrite length_app; simpl; lia | lia].
Qed.

(** With no contribution above zero the inner loop passes over every index
    and returns no phrase. *)
Lemma select_phrases_none contrib i order :
  Forall (fun c => (c <= 0)%Q) contrib ->
  (forall idx, idx ∈ order -> (idx < length contrib)%nat) ->
  select_phrases df cols Xt true contrib i order [] = Ok [].
Proof.
  intros Hall. induction order as [| idx order IH]; intros Hin; [done |].
  rewrite select_phrases_cons. simpl.
  destruct (lookup_lt_is_Some_2 contrib idx) as [c Hc]; [apply Hin; left |].
  unfold Ml.index. rewrite Hc. simpl.
  assert (Hle : Qle_bool c 0 = true).
  { apply Qle_bool_iff. rewrite Forall_forall in Hall. apply Hall.
    by apply list_elem_of_lookup_2 in Hc. }
  rewrite Hle. apply IH. intros idx' H'. apply Hin. by right.
Qed.

(** A row predicted to churn: its phrases are at most three, each one
    stands for a contribution above zero, and there is none when no
    contribution is above zero. *)
Lemma row_reason_churn pred i r :
  pred !! i = Some 1 ->
  row_reason df cols pipe Xt phi pred i = Ok r ->
  exists contrib phrases,
    contribution pipe Xt phi i = Ok contrib
    /\ r = Ml.join_or Ml.GENERIC_REASON phrases
    /\ (length phrases <= 3)%nat
    /\ Forall (risk_phrase df cols Xt contrib i) phrases
    /\ (Forall (fun c => (c <= 0)%Q) contrib -> phrases = []).
Proof.
  intros Hp. unfold Ml.row_reason.
  destruct (contribution pipe Xt phi i) as [contrib | e] eqn:Hc; simpl; [| done].
  unfold Ml.index at 1. rewrite Hp. simpl.
  destruct (select_phrases df cols Xt true contrib i
              (reverse (Ml.argsort contrib)) []) as [phrases | e] eqn:Hs; simpl; [| done].
  intros [= <-]. exists contrib, phrases.
  destruct (select_phrases_invariant contrib i _ [] phrases (Forall_nil_2 _)
              ltac:(simpl; lia) Hs) as [Hall Hlen].
  repeat split; try done.
  intros Hneg.
  rewrite select_phrases_none in Hs; [by injection Hs | done |].
  intros idx Hin. apply argsort_in_range. by apply elem_of_reverse.
Qed.

End Rows.

(** ** [train_and_predict] *)

Lemma has_column_coerce df cols c :
  Ml.has_column (Ml._coerce_types float_of_str df cols) c = Ml.has_column df c.
Proof.
  unfold Ml.has_column, Ml._coerce_types. simpl.
  generalize (Ml.columns df). induction cols as [| col cols IH]; intros m; simpl; [done |].
  rewrite IH. apply bool_decide_ext, lookup_alter_is_Some.
Qed.

Lemma target_present_coerce df cols cfg :
  Ml.target_present (Ml._coerce_types float_of_str df cols) cfg = Ml.target_present df cfg.
Proof.
  unfold Ml.target_present. destruct (Ml.target_col cfg); [| done].
  by rewrite has_column_coerce.
Qed.

(** Reading the label column never raises. *)
Lemma labels_ok frame cfg : exists a, labels frame cfg = Ok a.
Proof.
  unfold Ml.labels, Ml.target_present, Ml.has_column, Ml.column.
  destruct (Ml.target_col cfg) as [t |]; [| by eexists].
  destruct (Ml.nonempty t); simpl; [| by eexists].
  destruct (Ml.columns frame !! t) as [cells |] eqn:Hc.
  - rewrite bool_decide_eq_true_2 by eauto. rewrite Hc. by eexists.
  - rewrite bool_decide_eq_false_2 by (intros [? ?]; done). by eexists.
Qed.

(** Without a label column the pipeline is never fitted, and the transform
    before the explanation loop raises on it: [train_and_predict] cannot
    return. *)
Lemma score_without_labels df cfg :
  Ml.target_present df cfg = None -> exists e, score df cfg = Raise e.
Proof.
  intros Hno. unfold Ml.score.
  destruct (negb _); [by eexists |].
  destruct (Ml.to_numpy _ _ _) as [X | e]; simpl; [| by eexists].
  unfold Ml.labels. rewrite target_present_coerce, Hno. simpl.
  destruct (Ml.column df _) as [ids | e]; simpl; [| by eexists].
  destruct (Ml.same_length _ _ _) as [[] | e]; simpl; by eexists.
Qed.

Lemma train_and_predict_needs_labels df cfg :
  Ml.target_present df cfg = None -> exists e, train_and_predict df cfg = Raise e.
Proof.
  intros Hno. destruct (score_without_labels df cfg Hno) as [e He].
  exists e. unfold Ml.train_and_predict. by rewrite He.
Qed.

(** Once the frame is scored, nothing in the explanation can make
    [train_and_predict] raise. *)
Lemma train_and_predict_scored df cfg s :
  score df cfg = Ok s ->
  exists r, train_and_predict df cfg = Ok r
            /\ Ml.predicted_churn_90d r = Ml.s_pred s
            /\ Ml.predicted_churn_reason_90d r = reasons_of df cfg s.
Proof.
  intros Hs. unfold Ml.train_and_predict. rewrite Hs. simpl.
  destruct (labels_ok df cfg) as [a ->]. simpl. by eexists.
Qed.

Lemma reasons_of_length df cfg s :
  length (reasons_of df cfg s) = length (Ml.s_ids s).
Proof.
  unfold Ml.reasons_of, Ml.predicted_reasons.
  by rewrite explain_rows_length, length_replicate.
Qed.

Lemma reasons_of_reached df cfg s j rj :
  (j < length (Ml.s_ids s))%nat ->
  (forall k, (k <= j)%nat ->
     is_ok (row_reason df (Ml.feature_cols cfg) (Ml.s_pipe s) (Ml.s_Xt s) (Ml.s_phi s)
              (Ml.s_pred s) k) = true) ->
  row_reason df (Ml.feature_cols cfg) (Ml.s_pipe s) (Ml.s_Xt s) (Ml.s_phi s)
    (Ml.s_pred s) j = Ok rj ->
  reasons_of df cfg s !! j = Some rj.
Proof.
  intros Hj Hok Hr. unfold Ml.reasons_of, Ml.predicted_reasons.
  rewrite explain_rows_reached; [by rewrite Hr | | lia | by rewrite length_replicate].
  intros k Hk. specialize (Hok k ltac:(lia)).
  by destruct (row_reason _ _ _ _ _ _ k).
Qed.

Lemma reasons_of_after_raise df cfg s i j e :
  row_reason df (Ml.feature_cols cfg) (Ml.s_pipe s) (Ml.s_Xt s) (Ml.s_phi s)
    (Ml.s_pred s) i = Raise e ->
  (i <= j < length (Ml.s_ids s))%nat ->
  reasons_of df cfg s !! j = Some "".
Proof.
  intros Hr Hj. unfold Ml.reasons_of, Ml.predicted_reasons.
  rewrite (explain_rows_after_raise _ _ _ _ i j e); [| by rewrite Hr | lia | lia].
  apply lookup_replicate_2. lia.
Qed.

(** C2, as the code has it.  When the explanation of row [i] raises,
    [train_and_predict] still returns; the reason of row [i] and of every
    later row stays the empty string, and each row reached before any raise
    keeps the reason computed for it. *)
Theorem explanation_error_leaves_reasons_blank df cfg s i e :
  score df cfg = Ok s ->
  (i < length (Ml.s_ids s))%nat ->
  row_reason df (Ml.feature_cols cfg) (Ml.s_pipe s) (Ml.s_Xt s) (Ml.s_phi s)
    (Ml.s_pred s) i = Raise e ->
  exists r,
    train_and_predict df cfg = Ok r
    /\ length (Ml.predicted_churn_reason_90d r) = length (Ml.s_ids s)
    /\ (forall j, (i <= j < length (Ml.s_ids s))%nat ->
          Ml.predicted_churn_reason_90d r !! j = Some "")
    /\ (forall j rj,
          (forall k, (k <= j)%nat ->
             is_ok (row_reason df (Ml.feature_cols cfg) (Ml.s_pipe s) (Ml.s_Xt s)
                      (Ml.s_phi s) (Ml.s_pred s) k) = true) ->
          (j < length (Ml.s_ids s))%nat ->
          row_reason df (Ml.feature_cols cfg) (Ml.s_pipe s) (Ml.s_Xt s) (Ml.s_phi s)
            (Ml.s_pred s) j = Ok rj ->
          Ml.predicted_churn_reason_90d r !! j = Some rj).
Proof.
  intros Hs Hi Hr.
  destruct (train_and_predict_scored df cfg s Hs) as (r & Hrun & _ & Hreasons).
  exists r. rewrite Hreasons. repeat split; [done | apply reasons_of_length | |].
  - intros j Hj. by apply (reasons_of_after_raise df cfg s i j e).
  - intros j rj Hok Hj Hrj. by apply reasons_of_reached.
Qed.

(** C3, as the code has it.  For a row predicted to churn that the loop
    reaches with no raise at it or before it: the reason is built from at
    most three phrases, each standing for a feature whose contribution is
    above zero; with no such phrase, and so whenever no contribution is
    above zero, the reason is the generic one. *)
Theorem churn_reasons_are_risk_drivers df cfg s i :
  score df cfg = Ok s ->
  (i < length (Ml.s_ids s))%nat ->
  Ml.s_pred s !! i = Some 1 ->
  (forall k, (k <= i)%nat ->
     is_ok (row_reason df (Ml.feature_cols cfg) (Ml.s_pipe s) (Ml.s_Xt s) (Ml.s_phi s)
              (Ml.s_pred s) k) = true) ->
  exists r contrib phrases,
    train_and_predict df cfg = Ok r
    /\ contribution (Ml.s_pipe s) (Ml.s_Xt s) (Ml.s_phi s) i = Ok contrib
    /\ Ml.predicted_churn_reason_90d r !! i
       = Some (Ml.join_or Ml.GENERIC_REASON phrases)
    /\ (length phrases <= 3)%nat
    /\ Forall (risk_phrase df (Ml.feature_cols cfg) (Ml.s_Xt s) contrib i) phrases
    /\ (phrases = [] ->
        Ml.predicted_churn_reason_90d r !! i = Some Ml.GENERIC_REASON)
    /\ (Forall (fun c => (c <= 0)%Q) contrib -> phrases = []).
Proof.
  intros Hs Hi Hp Hok.
  destruct (train_and_predict_scored df cfg s Hs) as (r & Hrun & _ & Hreasons).
  pose proof (Hok i ltac:(lia)) as Hrow.
  destruct (row_reason df (Ml.feature_cols cfg) (Ml.s_pipe s) (Ml.s_Xt s) (Ml.s_phi s)
              (Ml.s_pred s) i) as [ri | e] eqn:Hri; simpl in Hrow; [| done].
  destruct (row_reason_churn _ _ _ _ _ _ _ _ Hp Hri)
    as (contrib & phrases & Hc & -> & Hlen & Hall & Hnone).
  exists r, contrib, phrases. rewrite Hreasons.
  assert (Hat : reasons_of df cfg s !! i = Some (Ml.join_or Ml.GENERIC_REASON phrases))
    by (by apply reasons_of_reached).
  repeat split; try done.
  intros ->. exact Hat.
Qed.

End MlFacts.

(** *** [train_and_predict] on concrete frames *)

Example score_text : Ml.score_canned out_text df_text cfg_ml = Ok scored_text.
Proof. vm_compute. reflexivity. Qed.

(** C1. On a frame with no label column [train_and_predict] does not return
    zeros: whatever the libraries do, it raises [NotFittedError] at the
    transform that precedes the explanation loop. *)
Theorem train_and_predict_without_labels_raises :
  forall (float_of_str : string -> option pyfloat) (Fitted : Type)
         (fit : list (list pyfloat) -> list Z -> Res Fitted)
         (predict_proba : Fitted -> list (list pyfloat) -> list Q)
         (transform : Fitted -> list (list pyfloat) -> list (list Q))
         (coef_ : Fitted -> list Q)
         (shap_values : Fitted -> list (list Q) -> option (list (list Q))),
    Ml.train_and_predict float_of_str fit predict_proba transform coef_ shap_values
      df_unlabelled cfg_ml
    = Raise NotFittedError.
Proof. intros. vm_compute. reflexivity. Qed.

(** Against C2 as stated: on [df_text] the explanation of the second row
    raises, the run returns, and the reason of that row is the empty
    string, not the generic phrase. *)
Lemma explanation_error_counterexample :
  Ml.row_reason Ml.decimal_float Ml.c_coef df_text (Ml.feature_cols cfg_ml)
    (Some out_text) (Ml.c_Xt out_text) None [1; 0; 1] 1 = Raise ValueError
  /\ Ml.predicted_churn_reason_90d <$> Ml.run_canned out_text df_text cfg_ml
     = Ok ["Low recent revenue ($10.00); No purchases for 120 days"; ""; ""]
  /\ "" <> Ml.GENERIC_REASON.
Proof.
  split; [vm_compute; reflexivity |].
  split; [vm_compute; reflexivity | discriminate].
Qed.

Lemma explanation_error_leaves_reasons_blank_witness :
  exists r,
    Ml.run_canned out_text df_text cfg_ml = Ok r
    /\ length (Ml.predicted_churn_reason_90d r) = 3%nat
    /\ (forall j, (1 <= j < 3)%nat -> Ml.predicted_churn_reason_90d r !! j = Some "")
    /\ Ml.predicted_churn_reason_90d r !! 0%nat
       = Some "Low recent revenue ($10.00); No purchases for 120 days".
Proof.
  destruct (explanation_error_leaves_reasons_blank Ml.decimal_float
              (fun _ _ => Ok out_text) (fun f _ => Ml.c_proba f) (fun f _ => Ml.c_Xt f)
              Ml.c_coef (fun f _ => Ml.c_shap f)
              df_text cfg_ml scored_text 1 ValueError)
    as (r & Hrun & Hlen & Hblank & Hkept);
    [vm_compute; reflexivity | vm_compute; lia | vm_compute; reflexivity |].
  exists r. split; [exact Hrun |]. split; [exact Hlen |]. split; [exact Hblank |].
  apply Hkept; [| vm_compute; lia | vm_compute; reflexivity].
  intros k Hk. assert (k = 0%nat) as -> by lia. vm_compute. reflexivity.
Defined.

(** Against C3 as stated: on [df_late] the second row is predicted to
    churn and none of its contributions is above zero, yet its reason is
    the empty string, because the explanation of the first row raised. *)
Lemma churn_reason_counterexample :
  (fun r => (Ml.predicted_churn_90d r, Ml.predicted_churn_reason_90d r))
    <$> Ml.run_canned out_late df_late cfg_ml
  = Ok ([0; 1], [""; ""])
  /\ Ml.contribution Ml.c_coef (Some out_late) (Ml.c_Xt out_late) (Ml.c_shap out_late) 1
     = Ok [-1 # 5; -2 # 5]%Q
  /\ Forall (fun c => (c <= 0)%Q) [-1 # 5; -2 # 5]%Q
  /\ "" <> Ml.GENERIC_REASON.
Proof.
  split; [vm_compute; reflexivity |].
  split; [vm_compute; reflexivity |].
  split; [| discriminate].
  repeat constructor; discriminate.
Qed.

Lemma churn_reasons_are_risk_drivers_witness :
  exists r contrib phrases,
    Ml.run_canned out_text df_text cfg_ml = Ok r
    /\ Ml.contribution Ml.c_coef (Some out_text) (Ml.c_Xt out_text) None 0 = Ok contrib
    /\ Ml.predicted_churn_reason_90d r !! 0%nat
       = Some (Ml.join_or Ml.GENERIC_REASON phrases)
    /\ (length phrases <= 3)%nat
    /\ Forall (Ml.risk_phrase Ml.decimal_float df_text (Ml.feature_cols cfg_ml)
                 (Ml.c_Xt out_text) contrib 0) phrases.
Proof.
  destruct (churn_reasons_are_risk_drivers Ml.decimal_float
              (fun _ _ => Ok out_text) (fun f _ => Ml.c_proba f) (fun f _ => Ml.c_Xt f)
              Ml.c_coef (fun f _ => Ml.c_shap f)
              df_text cfg_ml scored_text 0)
    as (r & contrib & phrases & Hrun & Hc & Hat & Hlen & Hall & _);
    [vm_compute; reflexivity | vm_compute; lia | vm_compute; reflexivity | |].
  - intros k Hk. assert (k = 0%nat) as -> by lia. vm_compute. reflexivity.
  - exists r, contrib, phrases. repeat split; assumption.
Defined.

(** * Further properties *)

(** ** The gate as a whole *)

Section GateMore.

Import SpRunner.

Variable str_lower : string -> string.
Variable isoformat : datetime -> string.
Variable fromisoformat : string -> option datetime.
Variable run_procedure : Config -> string -> string -> Z -> Res Z.

Abbreviation _sp_key := (SpRunner._sp_key str_lower).
Abbreviation should_run := (SpRunner.should_run str_lower fromisoformat).
Abbreviation mark_ran := (SpRunner.mark_ran str_lower isoformat).
Abbreviation maybe_run_sp :=
  (SpRunner.maybe_run_sp str_lower isoformat fromisoformat run_procedure).
Abbreviation run_outcome := (SpRunner.run_outcome str_lower isoformat run_procedure).

Lemma load_state_cases (w : World) :
  _load_state w
  = if exists_answers (file w) then (Ok (loaded (file w)), w) else (Raise OSError, w).
Proof. unfold _load_state. by destruct (file w). Qed.

(** [should_run] only reads. *)
Lemma should_run_reads_only cfg sp schema policy w :
  (should_run cfg sp schema policy w).2 = w.
Proof.
  unfold SpRunner.should_run, mbind, M_bind.
  rewrite load_state_cases. destruct (exists_answers (file w)); [| done].
  unfold lift.
  destruct (py_get (loaded (file w)) (_sp_key cfg sp schema)) as [iso | e]; [| done].
  destruct (negb (truthy iso)); [done |].
  destruct (parse_iso fromisoformat iso) as [last | e]; [| done].
  destruct (ttl policy) as [life | e]; [| done].
  destruct (dt_add last life) as [due | e]; [| done].
  unfold _now_utc. by destruct (dt_ge (Aware (clock w) 0) due).
Qed.

(** When [should_run] answers that no run is due, it has read a fresh
    aware timestamp. *)
Lemma should_run_not_due cfg sp schema policy w last :
  (should_run cfg sp schema policy w).1 = Ok (false, last) ->
  exists kvs s t off life,
    last = Some (Aware t off)
    /\ loaded (file w) = JObj kvs
    /\ kvs !! _sp_key cfg sp schema = Some (JStr s)
    /\ fromisoformat s = Some (Aware t off)
    /\ ttl policy = Ok life
    /\ in_range (t + off + life) = true
    /\ clock w < t + life.
Proof.
  unfold SpRunner.should_run, mbind, M_bind.
  rewrite load_state_cases. destruct (exists_answers (file w)); [| done].
  unfold lift.
  destruct (loaded (file w)) as [| b | q | s0 | xs | kvs] eqn:Hl; try done.
  simpl.
  destruct (kvs !! _sp_key cfg sp schema) as [stored |] eqn:Hk; simpl; [| done].
  destruct (negb (truthy stored)) eqn:Htruthy; [done |].
  destruct stored as [| b | q | s | xs | kvs2]; simpl; try done.
  destruct (fromisoformat s) as [[wall | t off] |] eqn:Hp; simpl; [| | done].
  - destruct (ttl policy) as [life | e]; simpl; [| done].
    by destruct (in_range (wall + life)).
  - destruct (ttl policy) as [life | e] eqn:Ht; simpl; [| done].
    destruct (in_range (t + off + life)) eqn:Hr; simpl; [| done].
    destruct (Z.leb_spec (t + life) (clock w)) as [Hle | Hlt]; simpl; [done |].
    intros [= <-]. by exists kvs, s, t, off, life.
Qed.

(** What [mark_ran] comes to: it raises and leaves the world as it was, or
    it records on a mapping. *)
Lemma mark_ran_outcome cfg sp schema w :
  (exists e, mark_ran cfg sp schema w = (Raise e, w))
  \/ (exists kvs,
        loaded (file w) = JObj kvs
        /\ mark_ran cfg sp schema w
           = (Ok tt, recorded isoformat kvs (_sp_key cfg sp schema) (clock w))).
Proof.
  unfold SpRunner.mark_ran, mbind, M_bind.
  rewrite load_state_cases. destruct (exists_answers (file w)); [| by left; eexists].
  unfold _now_utc, lift.
  destruct (loaded (file w)) as [| b | q | s0 | xs | kvs] eqn:Hl; simpl;
    try (by left; eexists).
  unfold _save_state. destruct (writable w); [| by left; eexists].
  right. by exists kvs.
Qed.

(** Running the refresh and recording it: a raise with the file as it was,
    or the run recorded on a mapping. *)
Lemma run_then_record_outcome cfg sp schema w (result : RunResult) :
  let o := (_ ← execute_stored_procedure run_procedure cfg sp schema;
            _ ← mark_ran cfg sp schema;
            mret result) w in
  (exists e, o.1 = Raise e /\ file o.2 = file w)
  \/ (exists t' kvs,
        run_procedure cfg sp schema (clock w) = Ok t'
        /\ loaded (file w) = JObj kvs
        /\ o = (Ok result, recorded isoformat kvs (_sp_key cfg sp schema) t')).
Proof.
  unfold mbind, M_bind, execute_stored_procedure.
  destruct (run_procedure cfg sp schema (clock w)) as [t' | e]; simpl;
    [| by left; eexists].
  set (w1 := {| file := file w; writable := writable w; clock := t' |}).
  destruct (mark_ran_outcome cfg sp schema w1) as [[e ->] | (kvs & Hl & ->)].
  - left. by exists e.
  - right. by exists t', kvs.
Qed.

(** An unforced call, by what [should_run] answered. *)
Lemma maybe_run_sp_unforced_any cfg sp schema policy w :
  maybe_run_sp cfg sp schema false policy w
  = match (should_run cfg sp schema (default default_policy policy) w).1 with
    | Ok (true, _) =>
        (_ ← execute_stored_procedure run_procedure cfg sp schema;
         _ ← mark_ran cfg sp schema;
         mret {| ran := true; reason := "ttl_expired" |}) w
    | Ok (false, Some l) =>
        (Ok {| ran := false; reason := "recent (last run " ++ isoformat l ++ ")" |}, w)
    | Ok (false, None) => (Raise AttributeError, w)
    | Raise e => (Raise e, w)
    end.
Proof.
  unfold SpRunner.maybe_run_sp. unfold mbind at 1, M_bind at 1.
  pose proof (should_run_reads_only cfg sp schema (default default_policy policy) w) as Hro.
  destruct (should_run cfg sp schema (default default_policy policy) w)
    as [[[doit last] | e] w1]; simpl in Hro; subst w1; [| done].
  destruct doit; simpl; [done |].
  by destruct last.
Qed.

(** A call ends in one of two ways: the file is as it was, and if the call
    returns, it reports no run and the world is as it was; or the refresh
    returned and the run is recorded on the persisted mapping and
    reported. *)
Lemma maybe_run_sp_outcome cfg sp schema force policy w :
  let out := maybe_run_sp cfg sp schema force policy w in
  (file out.2 = file w
   /\ forall res, out.1 = Ok res -> force = false /\ ran res = false /\ out.2 = w)
  \/ (exists t' kvs res,
        run_procedure cfg sp schema (clock w) = Ok t'
        /\ loaded (file w) = JObj kvs
        /\ out = (Ok res, recorded isoformat kvs (_sp_key cfg sp schema) t')
        /\ ran res = true).
Proof.
  intros out. subst out.
  assert (Hrun : forall result, ran result = true ->
    let o := (_ ← execute_stored_procedure run_procedure cfg sp schema;
              _ ← mark_ran cfg sp schema;
              mret result) w in
    (file o.2 = file w
     /\ forall res, o.1 = Ok res -> force = false /\ ran res = false /\ o.2 = w)
    \/ (exists t' kvs res,
          run_procedure cfg sp schema (clock w) = Ok t'
          /\ loaded (file w) = JObj kvs
          /\ o = (Ok res, recorded isoformat kvs (_sp_key cfg sp schema) t')
          /\ ran res = true)).
  { intros result Hres o.
    destruct (run_then_record_outcome cfg sp schema w result)
      as [(e & He & Hf) | (t' & kvs & Hr & Hl & Ho)]; fold o in He, Hf || fold o in Ho.
    - left. split; [done |]. intros res Hok. rewrite Hok in He. done.
    - right. by exists t', kvs, result. }
  destruct force; [by apply Hrun |].
  rewrite maybe_run_sp_unforced_any.
  destruct (should_run _ _ _ _ _).1 as [[[|] [l |]] | e];
    try (by apply Hrun); left; (split; [done |]); try done.
  by intros res [= <-].
Qed.



(** X3. The gate skips only on evidence of a fresh run: a call that reports
    no run was not forced, found under the key a string that parses to an
    aware timestamp [t] with [now < t + ttl], the TTL and the sum both
    within range, and left the world as it was. *)
Theorem maybe_run_sp_skips_only_when_fresh cfg sp schema force policy w res w' :
  maybe_run_sp cfg sp schema force policy w = (Ok res, w') ->
  ran res = false ->
  force = false /\ w' = w
  /\ exists kvs s t off life,
       loaded (file w) = JObj kvs
       /\ kvs !! _sp_key cfg sp schema = Some (JStr s)
       /\ fromisoformat s = Some (Aware t off)
       /\ ttl (default default_policy policy) = Ok life
       /\ in_range (t + off + life) = true
       /\ clock w < t + life
       /\ reason res = "recent (last run " ++ isoformat (Aware t off) ++ ")".
Proof.
  intros Hcall Hres.
  destruct (maybe_run_sp_outcome cfg sp schema force policy w)
    as [[_ Hok] | (t' & kvs0 & res' & _ & _ & Hout & Hran)];
    [| rewrite Hcall in Hout; injection Hout as <- _; congruence].
  rewrite Hcall in Hok. destruct (Hok res eq_refl) as (-> & _ & Hw). simpl in Hw.
  split; [done |]. split; [done |].
  revert Hcall. rewrite maybe_run_sp_unforced_any.
  destruct (should_run _ _ _ _ _).1 as [[[|] last] | e] eqn:Hsr; [| | done].
  - destruct (run_then_record_outcome cfg sp schema w
                {| ran := true; reason := "ttl_expired" |})
      as [(e & He & _) | (t' & kvs0 & _ & _ & Ho)].
    + intros Heq. rewrite Heq in He. done.
    + rewrite Ho. intros [= <- _]. done.
  - destruct (should_run_not_due _ _ _ _ _ _ Hsr)
      as (kvs & s & t & off & life & -> & Hl & Hk & Hp & Ht & Hr & Hlt).
    intros [= <- _]. by exists kvs, s, t, off, life.
Qed.


End GateMore.

(** ** The business rule: reasons, grace and dates *)

(** X5. The reason is fixed by the flag and the grace cast: one of four
    texts.  The fifth text of the source, "Within adjusted threshold", is
    never produced. *)
Theorem business_reason_four_cases (today : Z) (as_of_dt : option Z) (grace_cell : Cell) :
  let out := BusinessRule.evaluate today as_of_dt grace_cell in
  let d := pretty (BusinessRule.days_i (BusinessRule.days_since_purchase_today today as_of_dt)) in
  BusinessRule.churn_reason out
  = (if BusinessRule.churn_now out =? 1 then
       if BusinessRule.in_grace grace_cell
       then "No purchases for " ++ d ++ " days; Grace period exceeded"
       else "No purchases for " ++ d ++ " days"
     else
       if BusinessRule.in_grace grace_cell
       then "In renewal grace period (extra 30 days)"
       else "Recent purchase within last 90 days")
  /\ BusinessRule.churn_reason out <> "Within adjusted threshold".
Proof.
  intros out d. subst out d. simpl.
  unfold BusinessRule.business_churn_reason, BusinessRule.business_churn_now,
    BusinessRule.threshold, BusinessRule.days_i.
  destruct (BusinessRule.days_since_purchase_today today as_of_dt) as [n |];
    destruct (BusinessRule.in_grace grace_cell); simpl.
  - change (90 + 1 * 30) with 120.
    destruct (Z.leb_spec 120 n); simpl; [by split |].
    rewrite (proj2 (Z.ltb_lt n 120)) by done. by split.
  - change (90 + 0 * 30) with 90.
    destruct (Z.leb_spec 90 n); simpl; [by split |].
    rewrite (proj2 (Z.ltb_lt n 90)) by done. by split.
  - by split.
  - by split.
Qed.

(** X6. Grace only delays, and time only moves a record towards the flag: a
    record flagged with its grace cell is flagged with any cell that casts
    to false, and a record flagged today is flagged on every later day. *)
Theorem business_flag_monotone (today today' : Z) (as_of_dt : option Z)
    (grace_cell plain_cell : Cell) :
  BusinessRule.churn_now (BusinessRule.evaluate today as_of_dt grace_cell) = 1 ->
  BusinessRule.in_grace plain_cell = false ->
  today <= today' ->
  BusinessRule.churn_now (BusinessRule.evaluate today as_of_dt plain_cell) = 1
  /\ BusinessRule.churn_now (BusinessRule.evaluate today' as_of_dt grace_cell) = 1.
Proof.
  intros Hflag Hplain Hlater.
  apply churn_now_iff in Hflag. split; apply churn_now_iff.
  - rewrite Hplain. unfold BusinessRule.threshold in *.
    destruct (BusinessRule.in_grace grace_cell); lia.
  - unfold BusinessRule.days_since_purchase_today, BusinessRule.days_i in *.
    destruct as_of_dt as [d |]; simpl in *; [lia |].
    unfold BusinessRule.threshold in *.
    destruct (BusinessRule.in_grace grace_cell); lia.
Qed.

(** X7. The day count is never negative; a purchase dated today or later
    counts 0 days; a record whose date is unreadable has no day count; and
    neither of the two is ever flagged, whatever its grace cell. *)
Theorem business_rule_dates (today : Z) (as_of_dt : option Z) (grace_cell : Cell) :
  let out := BusinessRule.evaluate today as_of_dt grace_cell in
  (forall n, BusinessRule.days_since_last_purchase_today out = Some n -> 0 <= n)
  /\ (forall d, as_of_dt = Some d -> today <= d ->
        BusinessRule.days_since_last_purchase_today out = Some 0
        /\ BusinessRule.churn_now out = 0)
  /\ (as_of_dt = None ->
        BusinessRule.days_since_last_purchase_today out = None
        /\ BusinessRule.churn_now out = 0).
Proof.
  intros out. subst out. simpl. repeat split.
  - destruct as_of_dt as [d |]; simpl; [intros n [= <-]; lia | done].
  - subst. simpl. f_equal. lia.
  - subst. simpl. replace (Z.max 0 (today - d)) with 0 by lia.
    unfold BusinessRule.threshold. by destruct (BusinessRule.in_grace grace_cell).
  - by subst.
  - by subst.
Qed.

(** ** The feature normalizer *)

Section MlMore.

Variable float_of_str : string -> option pyfloat.
Context {Fitted : Type}.
Variable fit : list (list pyfloat) -> list Z -> Res Fitted.
Variable predict_proba : Fitted -> list (list pyfloat) -> list Q.
Variable transform : Fitted -> list (list pyfloat) -> list (list Q).
Variable coef_ : Fitted -> list Q.
Variable shap_values : Fitted -> list (list Q) -> option (list (list Q)).

Abbreviation to_numeric := (Ml.to_numeric float_of_str).
Abbreviation _coerce_types := (Ml._coerce_types float_of_str).
Abbreviation score := (Ml.score float_of_str fit predict_proba transform shap_values).
Abbreviation train_and_predict :=
  (Ml.train_and_predict float_of_str fit predict_proba transform coef_ shap_values).
Abbreviation row_reason := (Ml.row_reason float_of_str coef_).
Abbreviation actual_row_reason := (Ml.actual_row_reason float_of_str coef_).
Abbreviation contribution := (Ml.contribution coef_).
Abbreviation select_phrases := (Ml.select_phrases float_of_str).
Abbreviation phrase_for := (Ml.phrase_for float_of_str).
Abbreviation risk_phrase := (Ml.risk_phrase float_of_str).

(** A coerced cell is a number or NaN, and coercing it again changes
    nothing. *)
Lemma to_numeric_cell_of_float (c : Cell) :
  to_numeric (Ml.cell_of_float (to_numeric c)) = to_numeric c.
Proof. by destruct (to_numeric c). Qed.

Lemma coerce_cells_idempotent (cells : list Cell) :
  map (fun c => Ml.cell_of_float (to_numeric c))
      (map (fun c => Ml.cell_of_float (to_numeric c)) cells)
  = map (fun c => Ml.cell_of_float (to_numeric c)) cells.
Proof.
  rewrite map_map. apply map_ext. intros c. by rewrite to_numeric_cell_of_float.
Qed.

(** The columns after coercion, one by one. *)
Lemma coerce_types_lookup df cols c :
  Ml.columns (_coerce_types df cols) !! c
  = if bool_decide (c ∈ cols)
    then map (fun x => Ml.cell_of_float (to_numeric x)) <$> Ml.columns df !! c
    else Ml.columns df !! c.
Proof.
  unfold Ml._coerce_types. simpl.
  generalize (Ml.columns df).
  induction cols as [| col cols IH]; intros m; simpl; [done |].
  rewrite IH. destruct (decide (c = col)) as [-> | Hne].
  - rewrite lookup_alter_eq.
    rewrite (bool_decide_eq_true_2 (col ∈ col :: cols)) by left.
    destruct (m !! col) as [cells |]; simpl; [| by destruct (bool_decide _)].
    destruct (bool_decide _); [| done]. simpl. by rewrite coerce_cells_idempotent.
  - rewrite lookup_alter_ne by done.
    apply (f_equal (fun b : bool => if b then _ else _)).
    apply bool_decide_ext. rewrite elem_of_cons.
    split; [intros Hin; by right | intros [Heq | Hin]; [by subst | done]].
Qed.

Lemma frame_eq (a b : Ml.DataFrame) :
  Ml.nrows a = Ml.nrows b -> Ml.columns a = Ml.columns b -> a = b.
Proof. destruct a, b. simpl. by intros -> ->. Qed.

(** X8. Coercion is idempotent and touches only what it is asked to: the
    row count and the set of columns are kept, a column that is not a
    feature is left as it was, a feature column holds only numbers and NaN
    afterwards, and coercing a coerced frame changes nothing. *)
Theorem coerce_types_idempotent (df : Ml.DataFrame) (cols : list string) :
  let work := _coerce_types df cols in
  _coerce_types work cols = work
  /\ Ml.nrows work = Ml.nrows df
  /\ dom (Ml.columns work) = dom (Ml.columns df)
  /\ (forall c, c ∉ cols -> Ml.columns work !! c = Ml.columns df !! c)
  /\ (forall c cells, c ∈ cols -> Ml.columns work !! c = Some cells ->
        Forall (fun cell => cell = CNaN \/ exists q, cell = CNum q) cells).
Proof.
  intros work. subst work. split; [| split; [| split; [| split]]].
  - apply frame_eq; [done |].
    apply map_eq. intros c. rewrite !coerce_types_lookup.
    destruct (bool_decide (c ∈ cols)); [| done].
    destruct (Ml.columns df !! c) as [cells |]; simpl; [| done].
    by rewrite coerce_cells_idempotent.
  - done.
  - apply set_eq. intros c. rewrite !elem_of_dom, coerce_types_lookup.
    destruct (bool_decide (c ∈ cols)); [| done]. by rewrite fmap_is_Some.
  - intros c Hc. rewrite coerce_types_lookup. by rewrite bool_decide_eq_false_2.
  - intros c cells Hc. rewrite coerce_types_lookup, bool_decide_eq_true_2 by done.
    destruct (Ml.columns df !! c) as [raw |]; simpl; [| done].
    intros [= <-]. apply Forall_forall. intros cell Hin.
    apply list_elem_of_In, in_map_iff in Hin as (x & <- & _).
    destruct (to_numeric x); simpl; eauto.
Qed.

(** ** [train_and_predict]: what a returned result looks like *)

(** X9. A feature column that the frame lacks stops the run at once with
    [ValueError], before any coercion or fit, whatever else the frame
    holds. *)
Theorem train_and_predict_missing_feature (df : Ml.DataFrame) (cfg : Ml.MLConfig)
    (c : string) :
  c ∈ Ml.feature_cols cfg ->
  Ml.columns df !! c = None ->
  train_and_predict df cfg = Raise ValueError.
Proof.
  intros Hin Hno. unfold Ml.train_and_predict, Ml.score.
  assert (Hm : filter (fun c => Ml.has_column df c = false) (Ml.feature_cols cfg) <> []).
  { intros Hnil.
    assert (Hc : c ∈ filter (fun c => Ml.has_column df c = false) (Ml.feature_cols cfg)).
    { apply list_elem_of_filter. split; [| done].
      unfold Ml.has_column. rewrite Hno. apply bool_decide_eq_false_2. by intros [? ?]. }
    rewrite Hnil in Hc. by apply elem_of_nil in Hc. }
  by rewrite (bool_decide_eq_false_2 _ Hm).
Qed.

(** What [score] has established when it returns. *)
Lemma score_inv df cfg s :
  score df cfg = Ok s ->
  exists f X,
    Ml.s_pipe s = Some f
    /\ Ml.s_proba s = predict_proba f X
    /\ Ml.s_pred s = (fun p => if Qle_bool (1 # 2) p then 1 else 0) <$> Ml.s_proba s
    /\ length (Ml.s_pred s) = length (Ml.s_ids s)
    /\ length (Ml.s_proba s) = length (Ml.s_ids s)
    /\ is_Some (Ml.target_present df cfg).
Proof.
  unfold Ml.score.
  destruct (negb _); [done |].
  destruct (Ml.to_numpy _ _ _) as [X | e]; simpl; [| done].
  unfold Ml.labels. rewrite target_present_coerce.
  destruct (Ml.target_present df cfg) as [t |] eqn:Ht; simpl.
  - destruct (Ml.column _ t) as [cells | e]; simpl; [| done].
    destruct (fit X _) as [f | e]; simpl; [| done].
    destruct (Ml.column df _) as [ids | e]; simpl; [| done].
    unfold Ml.same_length.
    destruct (bool_decide (length ids = _)) eqn:H1; simpl; [| done].
    destruct (bool_decide (_ = length (predict_proba f X))) eqn:H2; simpl; [| done].
    intros [= <-]. simpl. exists f, X.
    apply bool_decide_eq_true in H1, H2.
    repeat split; try done; try congruence; eauto.
  - destruct (Ml.column df _) as [ids | e]; simpl; [| done].
    by destruct (Ml.same_length _ _ _) as [[] | e].
Qed.

Lemma train_and_predict_inv df cfg r :
  train_and_predict df cfg = Ok r ->
  exists s a,
    score df cfg = Ok s
    /\ Ml.labels float_of_str df cfg = Ok a
    /\ Ml.customer_id r = Ml.s_ids s
    /\ Ml.predicted_churn_90d r = Ml.s_pred s
    /\ Ml.predicted_churn_probability_90d r = Ml.s_proba s
    /\ Ml.predicted_churn_reason_90d r = Ml.reasons_of float_of_str coef_ df cfg s
    /\ Ml.actual_churned_90d r = a
    /\ Ml.actual_churn_reason_90d r
       = (fun a => Ml.actual_reasons float_of_str coef_ df (Ml.feature_cols cfg)
                     (Ml.s_pipe s) (Ml.s_Xt s) (Ml.s_phi s) a (length (Ml.s_ids s))) <$> a.
Proof.
  unfold Ml.train_and_predict.
  destruct (score df cfg) as [s | e]; simpl; [| done].
  destruct (Ml.labels float_of_str df cfg) as [a | e]; simpl; [| done].
  intros [= <-]. by exists s, a.
Qed.

(** X10. A returned result has one entry per customer in every column:
    labels, probabilities, reasons and actual reasons are as long as the
    customer ids; and it always carries the actual labels, since
    [train_and_predict] returns only for a frame with a label column. *)
Theorem train_and_predict_shapes (df : Ml.DataFrame) (cfg : Ml.MLConfig) (r : Ml.Prediction) :
  train_and_predict df cfg = Ok r ->
  length (Ml.predicted_churn_90d r) = length (Ml.customer_id r)
  /\ length (Ml.predicted_churn_probability_90d r) = length (Ml.customer_id r)
  /\ length (Ml.predicted_churn_reason_90d r) = length (Ml.customer_id r)
  /\ is_Some (Ml.actual_churned_90d r)
  /\ exists reasons,
       Ml.actual_churn_reason_90d r = Some reasons
       /\ length reasons = length (Ml.customer_id r).
Proof.
  intros Hrun.
  destruct (train_and_predict_inv df cfg r Hrun)
    as (s & a & Hs & Ha & -> & -> & -> & -> & -> & ->).
  destruct (score_inv df cfg s Hs) as (f & X & _ & _ & _ & Hp & Hq & [t Ht]).
  assert (exists labels, a = Some labels) as [labels ->].
  { unfold Ml.labels in Ha. rewrite Ht in Ha.
    destruct (Ml.column df t); simpl in Ha; [| done]. injection Ha as <-. eauto. }
  split; [done |]. split; [done |].
  split; [by rewrite reasons_of_length |].
  split; [eauto |].
  eexists. split; [reflexivity |].
  unfold Ml.actual_reasons. by rewrite explain_rows_length, length_replicate.
Qed.

(** X11. The label follows the probability: in a returned result every
    label is 0 or 1, and it is 1 exactly when the probability of that row
    is at least one half. *)
Theorem predicted_label_threshold (df : Ml.DataFrame) (cfg : Ml.MLConfig) (r : Ml.Prediction)
    (i : nat) (label : Z) :
  train_and_predict df cfg = Ok r ->
  Ml.predicted_churn_90d r !! i = Some label ->
  (label = 0 \/ label = 1)
  /\ exists p,
       Ml.predicted_churn_probability_90d r !! i = Some p
       /\ (label = 1 <-> (1 # 2 <= p)%Q).
Proof.
  intros Hrun.
  destruct (train_and_predict_inv df cfg r Hrun)
    as (s & a & Hs & _ & _ & -> & -> & _).
  destruct (score_inv df cfg s Hs) as (f & X & _ & _ & -> & _).
  rewrite list_lookup_fmap.
  destruct (Ml.s_proba s !! i) as [p |]; simpl; [| done].
  intros [= <-]. split.
  - destruct (Qle_bool _ _); eauto.
  - exists p. split; [done |].
    destruct (Qle_bool (1 # 2) p) eqn:Hle.
    + apply Qle_bool_iff in Hle. done.
    + split; [done |]. intros Hp. apply Qle_bool_iff in Hp. congruence.
Qed.

(** ** The explanation loops, row by row *)

Section RowsMore.

Variable df : Ml.DataFrame.
Variable cols : list string.
Variable pipe : option Fitted.
Variable Xt : list (list Q).
Variable phi : option (list (list Q)).

Abbreviation rendered := (rendered_phrase float_of_str df cols Xt).

(** The inner loop, with or without the sign filter, collects at most
    three phrases, each of them rendered and none of them empty. *)
Lemma select_phrases_rendered positive_only contrib i order acc phrases :
  Forall (rendered i) acc -> (length acc <= 3)%nat ->
  select_phrases df cols Xt positive_only contrib i order acc = Ok phrases ->
  Forall (rendered i) phrases /\ (length phrases <= 3)%nat.
Proof.
  revert acc. induction order as [| idx order IH]; intros acc Hacc Hlen.
  - simpl. intros [= ->]. done.
  - rewrite select_phrases_cons.
    destruct (3 <=? length acc)%nat eqn:H3; [intros [= ->]; done |].
    apply Nat.leb_gt in H3.
    assert (Hstep :
      (phrase ← phrase_for df cols Xt i idx;
       select_phrases df cols Xt positive_only contrib i order
         (if Ml.nonempty phrase then acc ++ [phrase] else acc)) = Ok phrases ->
      Forall (rendered i) phrases /\ (length phrases <= 3)%nat).
    { destruct (phrase_for df cols Xt i idx) as [p | e] eqn:Hp; simpl; [| done].
      apply IH.
      - unfold Ml.nonempty. destruct (bool_decide (p = "")) eqn:Hne; simpl; [done |].
        apply Forall_app. split; [done |]. apply Forall_singleton.
        split; [by apply bool_decide_eq_false in Hne | by exists idx].
      - destruct (Ml.nonempty p); [rewrite length_app; simpl; lia | lia]. }
    destruct positive_only; simpl.
    + destruct (Ml.index contrib idx) as [c | e]; simpl; [| done].
      destruct (Qle_bool c 0); [by apply IH | apply Hstep].
    + apply Hstep.
Qed.

Lemma concat_nonempty (sep : string) (phrases : list string) :
  phrases <> [] -> Forall (fun p => p <> "") phrases -> String.concat sep phrases <> "".
Proof.
  destruct phrases as [| p rest]; [done |]. intros _ Hall.
  apply Forall_cons_1 in Hall as [Hp _].
  destruct p as [| ch p]; [done |].
  simpl. by destruct rest.
Qed.

Lemma join_or_nonempty (fallback : string) (phrases : list string) :
  fallback <> "" -> Forall (fun p => p <> "") phrases ->
  Ml.join_or fallback phrases <> "".
Proof.
  intros Hf Hall. destruct phrases as [| p rest]; [done |].
  by apply concat_nonempty.
Qed.

(** A row whose body returns gets a reason that is not empty. *)
Lemma row_reason_shape pred i r :
  row_reason df cols pipe Xt phi pred i = Ok r ->
  exists phrases,
    r = Ml.join_or Ml.GENERIC_REASON phrases
    /\ (length phrases <= 3)%nat
    /\ Forall (rendered i) phrases
    /\ r <> "".
Proof.
  unfold Ml.row_reason.
  destruct (contribution pipe Xt phi i) as [contrib | e]; simpl; [| done].
  destruct (Ml.index pred i) as [p | e]; simpl; [| done].
  destruct (select_phrases df cols Xt _ contrib i _ []) as [phrases | e] eqn:Hs;
    simpl; [| done].
  intros [= <-]. exists phrases.
  destruct (select_phrases_rendered _ _ _ _ [] phrases (Forall_nil_2 _)
              ltac:(simpl; lia) Hs) as [Hall Hlen].
  repeat split; try done.
  apply join_or_nonempty; [done |].
  eapply Forall_impl; [exact Hall |]. by intros x [? _].
Qed.

(** X12. Whatever the predicted label, the reason of a row whose body
    returns is never empty: it is the generic phrase, or at most three
    rendered phrases joined by "; ". *)
Theorem row_reason_is_never_empty (pred : list Z) (i : nat) (r : string) :
  row_reason df cols pipe Xt phi pred i = Ok r ->
  r <> ""
  /\ exists phrases,
       (length phrases <= 3)%nat
       /\ Forall (rendered i) phrases
       /\ r = match phrases with
              | [] => Ml.GENERIC_REASON
              | _ => String.concat "; " phrases
              end.
Proof.
  intros Hr. destruct (row_reason_shape pred i r Hr) as (phrases & -> & Hlen & Hall & Hne).
  split; [done |]. by exists phrases.
Qed.

(** X13. In the list that the predicted-reason loop leaves, an empty
    reason marks exactly the rows at or after the first raise: the reason
    of row [j] is empty if and only if the body of some row up to [j]
    raised. *)
Theorem empty_reason_marks_raise (pred : list Z) (n j : nat) :
  (j < n)%nat ->
  Ml.predicted_reasons float_of_str coef_ df cols pipe Xt phi pred n !! j = Some ""
  <-> exists k, (k <= j)%nat /\ is_ok (row_reason df cols pipe Xt phi pred k) = false.
Proof.
  intros Hj. unfold Ml.predicted_reasons. split.
  - intros Hempty.
    destruct (decide (Forall (fun k => is_ok (row_reason df cols pipe Xt phi pred k) = true)
                        (seq 0 (S j)))) as [Hall | Hsome].
    + exfalso. rewrite Forall_forall in Hall.
      rewrite explain_rows_reached in Hempty;
        [| | lia | by rewrite length_replicate].
      * destruct (row_reason df cols pipe Xt phi pred j) as [r |] eqn:Hr; simpl in Hempty.
        -- injection Hempty as ->. by destruct (row_reason_shape pred j "" Hr) as (? & _ & _ & _ & ?).
        -- specialize (Hall j ltac:(apply elem_of_seq; lia)). by rewrite Hr in Hall.
      * intros k Hk. specialize (Hall k ltac:(apply elem_of_seq; lia)).
        by destruct (row_reason df cols pipe Xt phi pred k).
    + apply not_Forall_Exists in Hsome; [| intros k; apply _].
      apply Exists_exists in Hsome as (k & Hin & Hk).
      apply elem_of_seq in Hin. exists k. split; [lia |].
      destruct (is_ok (row_reason df cols pipe Xt phi pred k)) eqn:E;
        [exfalso; apply Hk; exact E | done].
  - intros (k & Hk & Hraise).
    destruct (row_reason df cols pipe Xt phi pred k) as [r | e] eqn:Hr; [done |].
    rewrite (explain_rows_after_raise _ _ _ _ k j e); [| by rewrite Hr | lia | lia].
    apply lookup_replicate_2. lia.
Qed.

(** A row whose body gives no reason holds, after the loop, what it held
    before, whatever the other rows do. *)
Lemma explain_rows_unwritten body i n (reasons : list string) (j : nat) :
  (forall r, body j <> Ok (Some r)) ->
  Ml.explain_rows body i n reasons !! j = reasons !! j.
Proof.
  intros Hj. revert i reasons.
  induction n as [| n IH]; intros i reasons; simpl; [done |].
  destruct (body i) as [[r |] | e] eqn:Hb; [| apply IH | done].
  rewrite IH. apply list_lookup_insert_ne. intros ->. by apply (Hj r).
Qed.

(** X14. The actual-reason loop.  A row whose actual label is not 1 keeps
    the empty string, whatever happens at the other rows.  A row whose
    actual label is 1, reached with no raise at it or before it, gets at
    most three phrases, each standing for a contribution above zero, and
    "observed churn within 90 days" when there is none, as when no
    contribution is above zero. *)
Theorem actual_reasons_are_risk_drivers (actual : list Z) (n i : nat) (a : Z) :
  (i < n)%nat ->
  actual !! i = Some a ->
  let reasons := Ml.actual_reasons float_of_str coef_ df cols pipe Xt phi actual n in
  (a <> 1 -> reasons !! i = Some "")
  /\ (a = 1 ->
      (forall k, (k <= i)%nat ->
         is_ok (actual_row_reason df cols pipe Xt phi actual k) = true) ->
      exists contrib phrases,
        contribution pipe Xt phi i = Ok contrib
        /\ reasons !! i = Some (Ml.join_or Ml.ACTUAL_REASON phrases)
        /\ (length phrases <= 3)%nat
        /\ Forall (risk_phrase df cols Xt contrib i) phrases
        /\ (Forall (fun c => (c <= 0)%Q) contrib ->
            reasons !! i = Some Ml.ACTUAL_REASON)).
Proof.
  intros Hi Ha reasons. subst reasons. unfold Ml.actual_reasons. split.
  - intros Hne. rewrite explain_rows_unwritten.
    + by rewrite lookup_replicate_2 by lia.
    + intros r. unfold Ml.actual_row_reason, Ml.index. rewrite Ha. simpl.
      destruct (Z.eqb_spec a 1) as [-> | _]; done.
  - intros -> Hok.
    rewrite explain_rows_reached;
      [| intros k Hk; apply Hok; lia | lia | by rewrite length_replicate].
    rewrite lookup_replicate_2 by lia.
    pose proof (Hok i ltac:(lia)) as Hrow. revert Hrow.
    unfold Ml.actual_row_reason, Ml.index. rewrite Ha. simpl.
    destruct (contribution pipe Xt phi i) as [contrib | e]; simpl; [| done].
    destruct (select_phrases df cols Xt true contrib i
                (reverse (Ml.argsort contrib)) []) as [phrases | e] eqn:Hs;
      simpl; [| done].
    intros _. exists contrib, phrases.
    destruct (select_phrases_invariant float_of_str df cols Xt contrib i _ [] phrases
                (Forall_nil_2 _) ltac:(simpl; lia) Hs) as [Hall Hlen].
    repeat split; try done.
    intros Hneg.
    rewrite (select_phrases_none float_of_str) in Hs; [by injection Hs as <- | done |].
    intros idx Hin. apply argsort_in_range. by apply elem_of_reverse.
Qed.

End RowsMore.

End MlMore.

(** ** Drivers and retries *)

Lemma member_true (x : string) (xs : list string) : Ml.member x xs = true <-> x ∈ xs.
Proof. unfold Ml.member. apply bool_decide_eq_true. Qed.

Lemma member_false (x : string) (xs : list string) : Ml.member x xs = false <-> x ∉ xs.
Proof. unfold Ml.member. apply bool_decide_eq_false. Qed.

Lemma find_known_none (installed : list string) :
  List.find (fun d => Ml.member d installed) Db.KNOWN_DRIVERS = None
  <-> forall d, d ∈ Db.KNOWN_DRIVERS -> d ∉ installed.
Proof.
  split.
  - intros Hnone d Hd. apply member_false.
    apply (find_none _ _ Hnone). by apply list_elem_of_In.
  - intros Hall.
    destruct (List.find _ _) as [d |] eqn:Hf; [| done].
    apply find_some in Hf as [Hin Hd].
    apply member_true in Hd. apply list_elem_of_In in Hin.
    by destruct (Hall d Hin).
Qed.

(** X15. [pick_driver] never names a driver that is not installed; it gives
    the preferred driver whenever that one is named and installed; and it
    fails exactly when neither the preferred driver nor any of the three
    known drivers is installed. *)
Theorem pick_driver_installed (installed : list string) (preferred : option string) :
  (forall d, Db.pick_driver installed preferred = Some d -> d ∈ installed)
  /\ (forall p, preferred = Some p -> p <> "" -> p ∈ installed ->
        Db.pick_driver installed preferred = Some p)
  /\ (Db.pick_driver installed preferred = None
      <-> (forall d, d ∈ Db.KNOWN_DRIVERS -> d ∉ installed)
          /\ (forall p, preferred = Some p -> p = "" \/ p ∉ installed)).
Proof.
  assert (Hfb : forall d,
    List.find (fun d => Ml.member d installed) Db.KNOWN_DRIVERS = Some d -> d ∈ installed).
  { intros d Hf. apply find_some in Hf as [_ Hd]. by apply member_true. }
  unfold Db.pick_driver. split; [| split].
  - intros d. destruct preferred as [p |]; [| apply Hfb].
    destruct (Ml.nonempty p && Ml.member p installed) eqn:Hp; [| apply Hfb].
    intros [= <-]. apply andb_prop in Hp as [_ Hp]. by apply member_true.
  - intros p -> Hne Hin.
    unfold Ml.nonempty. rewrite (bool_decide_eq_false_2 _ Hne). simpl.
    by rewrite (proj2 (member_true p installed) Hin).
  - destruct preferred as [p |].
    + destruct (Ml.nonempty p && Ml.member p installed) eqn:Hp.
      * split; [done |]. intros [_ Hpref].
        apply andb_prop in Hp as [Hne Hin].
        apply member_true in Hin. unfold Ml.nonempty in Hne.
        apply negb_true_iff, bool_decide_eq_false in Hne.
        destruct (Hpref p eq_refl); done.
      * rewrite find_known_none. split; [| by intros [? _]].
        intros Hk. split; [done |]. intros p' [= <-].
        apply andb_false_iff in Hp as [Hne | Hin].
        -- left. unfold Ml.nonempty in Hne.
           by apply negb_false_iff, bool_decide_eq_true in Hne.
        -- right. by apply member_false.
    + rewrite find_known_none. split; [| by intros [? _]].
      intros Hk. split; [done | done].
Qed.

Section RetryFacts.

Context {A E : Type}.
Variable try_ : nat -> Db.Attempt A E.
Variable retries : Z.
Variable backoff : Q.
Variable sleep_ok : Q -> bool.

Abbreviation retry_from := (Db.retry_from try_ retries backoff sleep_ok).
Abbreviation with_retries := (Db.with_retries try_ retries backoff sleep_ok).
Abbreviation delay := (Db.delay backoff).

(** From attempt [a0] on: [m] attempts fail in the database layer, each
    before the last permitted attempt, and the next one does not. *)
Lemma retry_from_stops (m a0 fuel : nat) (last : option E) (fin : Db.Ending A E) :
  (m < fuel)%nat ->
  (forall j, (a0 <= j < a0 + m)%nat -> exists e, try_ j = Db.DbFails e) ->
  (forall j, (a0 <= j < a0 + m)%nat -> sleep_ok (delay j) = true) ->
  Z.of_nat (a0 + m) <= retries \/ m = 0%nat ->
  (match try_ (a0 + m) with
   | Db.Succeeds a => fin = Db.Returned a
   | Db.OtherFails e => fin = Db.Raised e
   | Db.DbFails e => fin = Db.Raised e /\ retries <= Z.of_nat (a0 + m)
   end) ->
  retry_from fuel a0 last
  = {| Db.ending := fin; Db.attempts := S m; Db.sleeps := delay <$> seq a0 m |}.
Proof.
  revert a0 fuel last.
  induction m as [| m IH]; intros a0 fuel last Hfuel Hfail Hsleep Hle Hfin.
  - destruct fuel as [| fuel]; [lia |]. simpl.
    rewrite Nat.add_0_r in Hfin.
    destruct (try_ a0) as [a | e | e]; try by subst.
    destruct Hfin as [-> Hlast].
    by rewrite (proj2 (Z.leb_le _ _) Hlast).
  - destruct fuel as [| fuel]; [lia |]. simpl.
    destruct (Hfail a0 ltac:(lia)) as [e He]. rewrite He.
    destruct Hle as [Hle | ?]; [| lia].
    rewrite (proj2 (Z.leb_gt _ _)) by lia.
    rewrite (Hsleep a0 ltac:(lia)).
    rewrite (IH (S a0) fuel (Some e) ltac:(lia)); [done | | | |].
    + intros j Hj. apply Hfail. lia.
    + intros j Hj. apply Hsleep. lia.
    + left. lia.
    + by replace (S a0 + m)%nat with (a0 + S m)%nat by lia.
Qed.

(** The sleeps before attempt [a0 + m], summed. *)
Lemma sum_delays (a0 m : nat) :
  (1 <= a0)%nat ->
  (foldr Qplus 0 (delay <$> seq a0 m)
   == backoff * inject_Z (2 ^ Z.of_nat (a0 - 1) * (2 ^ Z.of_nat m - 1)))%Q.
Proof.
  revert a0. induction m as [| m IH]; intros a0 Ha; simpl.
  - rewrite Z.mul_0_r. unfold inject_Z. ring.
  - rewrite (IH (S a0)) by lia. unfold Db.delay.
    replace (S a0 - 1)%nat with (S (a0 - 1)) by lia.
    rewrite <- Qmult_plus_distr_r, <- inject_Z_plus.
    apply Qmult_comp; [reflexivity |].
    apply inject_Z_injective.
    rewrite !Nat2Z.inj_succ, !Z.pow_succ_r by lia. ring.
Qed.

Lemma retry_from_attempts_pos (fuel a0 : nat) (last : option E) :
  fuel <> 0%nat -> Db.attempts (retry_from fuel a0 last) <> 0%nat.
Proof.
  destruct fuel as [| fuel]; [done |]. intros _. simpl.
  destruct (try_ a0) as [? | ? | ?]; simpl; try done.
  destruct (retries <=? _); simpl; [done |].
  destruct (sleep_ok _); done.
Qed.

(** What every run of the loop keeps, from attempt [a0] on, when the
    passes left are those of [range(a0, retries + 1)]. *)
Lemma retry_from_bounds (fuel a0 : nat) (last : option E) :
  Z.of_nat fuel = Z.max 0 (retries - Z.of_nat a0 + 1) ->
  let r := retry_from fuel a0 last in
  (Db.attempts r <= fuel)%nat
  /\ length (Db.sleeps r) = pred (Db.attempts r)
  /\ Db.sleeps r = delay <$> seq a0 (length (Db.sleeps r))
  /\ (Db.ending r = Db.RaisedNone -> fuel = 0%nat /\ last = None)
  /\ (fuel = 0%nat -> Db.attempts r = 0%nat).
Proof.
  revert a0 last. induction fuel as [| fuel IH]; intros a0 last Hfuel; simpl.
  - split; [done |]. split; [done |]. split; [done |]. split; [| done].
    destruct last; [intros [=] | done].
  - assert (Hone : forall fin : Db.Ending A E,
      fin <> Db.RaisedNone ->
      let r := {| Db.ending := fin; Db.attempts := 1; Db.sleeps := [] |} in
      (Db.attempts r <= S fuel)%nat
      /\ length (Db.sleeps r) = pred (Db.attempts r)
      /\ Db.sleeps r = delay <$> seq a0 (length (Db.sleeps r))
      /\ (Db.ending r = Db.RaisedNone -> S fuel = 0%nat /\ last = None)
      /\ (S fuel = 0%nat -> Db.attempts r = 0%nat)).
    { intros fin Hfin. simpl. split; [lia |]. split; [done |].
      split; [done |]. split; [intros ?; by destruct Hfin | intros [=]]. }
    destruct (try_ a0) as [a | e | e]; [by apply Hone | | by apply Hone].
    destruct (Z.leb_spec retries (Z.of_nat a0)) as [Hlast | Hmore]; [by apply Hone |].
    destruct (sleep_ok _); [| by apply Hone].
    destruct (IH (S a0) (Some e) ltac:(lia)) as (H1 & H2 & H3 & H4 & H5).
    pose proof (retry_from_attempts_pos fuel (S a0) (Some e) ltac:(lia)) as Hat.
    set (rest := retry_from fuel (S a0) (Some e)) in *.
    cbn [Db.attempts Db.sleeps Db.ending].
    split; [lia |]. split; [| split; [| split]].
    + cbn [length]. rewrite H2. lia.
    + cbn [length seq fmap list_fmap]. by rewrite <- H3.
    + intros Hn. destruct (H4 Hn) as [-> _]. lia.
    + intros [=].
Qed.

(** X16. The loop stops at the first attempt that does not fail in the
    database layer.  When attempts 1 to [k-1] fail there and attempt [k],
    within the permitted number, returns a value or raises another error,
    the function returns that value or raises that error after exactly [k]
    attempts, having slept [backoff * 2^(j-1)] after each failed attempt
    [j], [backoff * (2^(k-1) - 1)] in all, provided each of these lengths
    can be slept. *)
Theorem with_retries_stops_at_first_answer (k : nat) (fin : Db.Ending A E) :
  (1 <= k)%nat -> Z.of_nat k <= retries ->
  (forall j, (1 <= j < k)%nat -> exists e, try_ j = Db.DbFails e) ->
  (forall j, (1 <= j < k)%nat -> sleep_ok (delay j) = true) ->
  (exists a, try_ k = Db.Succeeds a /\ fin = Db.Returned a)
  \/ (exists e, try_ k = Db.OtherFails e /\ fin = Db.Raised e) ->
  let r := with_retries in
  Db.ending r = fin
  /\ Db.attempts r = k
  /\ Db.sleeps r = delay <$> seq 1 (k - 1)
  /\ (Db.total_sleep r == backoff * inject_Z (2 ^ Z.of_nat (k - 1) - 1))%Q.
Proof.
  intros Hk Hle Hfail Hsleep Hlast r. subst r. unfold Db.with_retries.
  rewrite (retry_from_stops (k - 1) 1 _ None fin).
  - replace (S (k - 1)) with k by lia. repeat split; try done.
    unfold Db.total_sleep. simpl. rewrite sum_delays by lia. simpl.
    apply Qmult_comp; [reflexivity |]. apply inject_Z_injective. lia.
  - lia.
  - intros j Hj. apply Hfail. lia.
  - intros j Hj. apply Hsleep. lia.
  - left. lia.
  - replace (1 + (k - 1))%nat with k by lia.
    by destruct Hlast as [(a & -> & ->) | (e & -> & ->)].
Qed.

(** X17. When every permitted attempt fails in the database layer, the
    function makes exactly [retries] attempts, sleeps after each but the
    last, [backoff * (2^(retries-1) - 1)] in all, and raises the error of
    the last attempt, provided each of these lengths can be slept. *)
Theorem with_retries_exhausted (n : nat) (e : E) :
  (1 <= n)%nat -> retries = Z.of_nat n ->
  (forall j, (1 <= j < n)%nat -> exists e', try_ j = Db.DbFails e') ->
  (forall j, (1 <= j < n)%nat -> sleep_ok (delay j) = true) ->
  try_ n = Db.DbFails e ->
  let r := with_retries in
  Db.ending r = Db.Raised e
  /\ Db.attempts r = n
  /\ length (Db.sleeps r) = (n - 1)%nat
  /\ (Db.total_sleep r == backoff * inject_Z (2 ^ Z.of_nat (n - 1) - 1))%Q.
Proof.
  intros Hn Hret Hfail Hsleep Hlast r. subst r. unfold Db.with_retries.
  rewrite (retry_from_stops (n - 1) 1 _ None (Db.Raised e)).
  - replace (S (n - 1)) with n by lia. repeat split; try done.
    + simpl. by rewrite length_fmap, length_seq.
    + unfold Db.total_sleep. simpl. rewrite sum_delays by lia. simpl.
      apply Qmult_comp; [reflexivity |]. apply inject_Z_injective. lia.
  - lia.
  - intros j Hj. apply Hfail. lia.
  - intros j Hj. apply Hsleep. lia.
  - left. lia.
  - replace (1 + (n - 1))%nat with n by lia. rewrite Hlast. split; [done | lia].
Qed.

(** X18. Whatever the attempts do: the function never makes more than
    [retries] attempts, sleeps only between attempts (one sleep fewer than
    attempts, the [j]-th of length [backoff * 2^(j-1)]), and with
    [retries <= 0] it makes no attempt at all and ends in the [TypeError] of
    raising [None], which it does in no other case. *)
Theorem with_retries_bounds :
  let r := with_retries in
  (Z.of_nat (Db.attempts r) <= Z.max 0 retries)
  /\ length (Db.sleeps r) = pred (Db.attempts r)
  /\ Db.sleeps r = delay <$> seq 1 (length (Db.sleeps r))
  /\ (Db.ending r = Db.RaisedNone <-> retries <= 0)
  /\ (retries <= 0 -> Db.attempts r = 0%nat).
Proof.
  intros r. subst r. unfold Db.with_retries.
  destruct (retry_from_bounds (Z.to_nat retries) 1 None ltac:(lia))
    as (H1 & H2 & H3 & H4 & H5).
  repeat split; try done.
  - lia.
  - intros Hn. destruct (H4 Hn) as [Hz _]. lia.
  - intros Hle. replace (Z.to_nat retries) with 0%nat by lia. done.
  - intros Hle. apply H5. lia.
Qed.

End RetryFacts.

(** ** Configuration flags *)

Lemma same_letter_py_is_space (a b : ascii) :
  same_letter a b = true -> py_is_space a = py_is_space b.
Proof.
  unfold same_letter. intros H.
  apply orb_prop in H as [H | H]; [apply orb_prop in H as [H | H] |].
  - apply bool_decide_eq_true in H. by subst.
  - apply andb_prop in H as [Hup Hb]. apply bool_decide_eq_true in Hb.
    unfold is_upper in Hup. apply andb_prop in Hup as [H1 H2].
    apply Nat.leb_le in H1, H2.
    unfold py_is_space. rewrite Hb, nat_ascii_embedding by lia.
    repeat match goal with
           | |- context [(?x =? ?y)%nat] => destruct (Nat.eqb_spec x y); try lia
           | |- context [(?x <=? ?y)%nat] => destruct (Nat.leb_spec x y); try lia
           end; done.
  - apply andb_prop in H as [Hup Ha]. apply bool_decide_eq_true in Ha.
    unfold is_upper in Hup. apply andb_prop in Hup as [H1 H2].
    apply Nat.leb_le in H1, H2.
    unfold py_is_space. rewrite Ha, nat_ascii_embedding by lia.
    repeat match goal with
           | |- context [(?x =? ?y)%nat] => destruct (Nat.eqb_spec x y); try lia
           | |- context [(?x <=? ?y)%nat] => destruct (Nat.leb_spec x y); try lia
           end; done.
Qed.

Lemma lstrip_differ_only_in_case (s t : string) :
  differ_only_in_case s t = true ->
  differ_only_in_case (lstrip_by py_is_space s) (lstrip_by py_is_space t) = true.
Proof.
  revert t. induction s as [| a s IH]; intros [| b t] H; simpl in *; try done.
  apply andb_prop in H as [Hc Hr].
  rewrite <- (same_letter_py_is_space a b Hc).
  destruct (py_is_space a); [by apply IH |].
  simpl. by rewrite Hc, Hr.
Qed.

Lemma rstrip_differ_only_in_case (s t : string) :
  differ_only_in_case s t = true ->
  differ_only_in_case (rstrip_by py_is_space s) (rstrip_by py_is_space t) = true.
Proof.
  revert t. induction s as [| a s IH]; intros [| b t] H; simpl in *; try done.
  apply andb_prop in H as [Hc Hr].
  specialize (IH t Hr).
  rewrite <- (same_letter_py_is_space a b Hc).
  destruct (rstrip_by py_is_space s) as [| a' s'], (rstrip_by py_is_space t) as [| b' t'];
    simpl in *; try done.
  - destruct (py_is_space a); [done |]. simpl. by rewrite Hc.
  - by rewrite Hc, IH.
Qed.


(** * Column names: [LoadSql] and [Cli] *)

Lemma contains_char_app (c : ascii) (a b : string) :
  contains_char c (a ++ b) = contains_char c a || contains_char c b.
Proof.
  induction a as [| x a IH]; simpl; first done.
  by rewrite IH, orb_assoc.
Qed.

Lemma string_forall_contains (p : ascii -> bool) (s : string) (c : ascii) :
  string_forall p s = true -> contains_char c s = true -> p c = true.
Proof.
  induction s as [| x s IH]; simpl; first done.
  intros [Hx Hs]%andb_true_iff [Hc | Hc]%orb_true_iff.
  - apply bool_decide_eq_true in Hc. by subst.
  - by apply IH.
Qed.

Lemma contains_string_forall (p : ascii -> bool) (s : string) :
  (forall c, contains_char c s = true -> p c = true) -> string_forall p s = true.
Proof.
  induction s as [| x s IH]; simpl; first done.
  intros H. apply andb_true_iff. split.
  - apply H. by rewrite bool_decide_eq_true_2.
  - apply IH. intros c Hc. apply H. by rewrite Hc, orb_true_r.
Qed.

Lemma contains_replace_char (c k : ascii) (v s : string) :
  contains_char c (LoadSql.replace_char k v s) = true ->
  (c <> k /\ contains_char c s = true) \/ contains_char c v = true.
Proof.
  induction s as [| x s IH]; simpl; first done.
  rewrite contains_char_app. intros [H | H]%orb_true_iff.
  - destruct (bool_decide (x = k)) eqn:E.
    + by right.
    + left. simpl in H. rewrite orb_false_r in H.
      apply bool_decide_eq_true in H. subst x.
      apply bool_decide_eq_false in E. split; first done.
      by rewrite bool_decide_eq_true_2.
  - destruct (IH H) as [[Hk Hc] | Hv]; [left | by right].
    split; first done. by rewrite Hc, orb_true_r.
Qed.

Lemma replace_all_chars (P : ascii -> Prop) (kvs : list (ascii * string))
    (done_ : list ascii) (s : string) :
  (forall c, contains_char c s = true -> P c /\ c ∉ done_) ->
  (forall k v c, (k, v) ∈ kvs -> contains_char c v = true ->
                 P c /\ c ∉ (done_ ++ kvs.*1)%list) ->
  forall c,
    contains_char c (foldl (fun o kv => LoadSql.replace_char (fst kv) (snd kv) o) s kvs) = true ->
    P c /\ c ∉ (done_ ++ kvs.*1)%list.
Proof.
  revert done_ s. induction kvs as [|[k v] kvs IH]; intros done_ s Hs Hv c Hc.
  - simpl in *. rewrite app_nil_r. by apply Hs.
  - simpl in Hc.
    assert (Heq : (done_ ++ ((k, v) :: kvs).*1 = (done_ ++ [k]) ++ kvs.*1)%list)
      by (by rewrite <- (assoc_L (++))).
    rewrite Heq. apply (IH (done_ ++ [k])%list (LoadSql.replace_char k v s)); last done.
    + intros x Hx. destruct (contains_replace_char _ _ _ _ Hx) as [[Hk Hin] | Hin].
      * destruct (Hs x Hin) as [HP Hd]. split; first done.
        rewrite elem_of_app, list_elem_of_singleton. tauto.
      * destruct (Hv k v x) as [HP Hd]; [left | done |].
        split; first done. rewrite Heq in Hd.
        rewrite elem_of_app in Hd. tauto.
    + intros k' v' x Hin Hx. rewrite <- Heq. apply (Hv k' v' x); last done. by right.
Qed.

Lemma collapse_once_facts (n : nat) (s : string) :
  (String.length s <= n)%nat ->
  (String.length (LoadSql.collapse_once s) <= String.length s)%nat
  /\ (LoadSql.has_double_underscore s = true ->
      (String.length (LoadSql.collapse_once s) < String.length s)%nat)
  /\ (forall c, contains_char c (LoadSql.collapse_once s) = true ->
                contains_char c s = true).
Proof.
  revert s. induction n as [| n IH]; intros s Hn.
  { destruct s; simpl in *; [by repeat split | lia]. }
  destruct s as [| a [| b s]]; [by repeat split | by repeat split |].
  assert (Hs : (String.length s <= n)%nat) by (simpl in Hn; lia).
  assert (Hbs : (String.length (String b s) <= n)%nat) by (simpl in Hn; simpl; lia).
  destruct (IH s Hs) as (L1 & _ & C1).
  destruct (IH (String b s) Hbs) as (L2 & D2 & C2).
  change (LoadSql.collapse_once (String a (String b s)))
    with (if bool_decide (a = LoadSql.underscore) && bool_decide (b = LoadSql.underscore)
          then String LoadSql.underscore (LoadSql.collapse_once s)
          else String a (LoadSql.collapse_once (String b s))).
  change (LoadSql.has_double_underscore (String a (String b s)))
    with ((bool_decide (a = LoadSql.underscore) && bool_decide (b = LoadSql.underscore))
          || LoadSql.has_double_underscore (String b s)).
  destruct (bool_decide (a = LoadSql.underscore) && bool_decide (b = LoadSql.underscore)) eqn:E.
  - apply andb_true_iff in E as [->%bool_decide_eq_true ->%bool_decide_eq_true].
    repeat split.
    + simpl. lia.
    + intros _. simpl. lia.
    + intros c. cbn [contains_char]. intros [H | H]%orb_true_iff.
      * by rewrite H.
      * by rewrite (C1 c H), !orb_true_r.
  - repeat split.
    + cbn [String.length] in *. lia.
    + rewrite orb_false_l. intros H. specialize (D2 H). cbn [String.length] in *. lia.
    + intros c. cbn [contains_char]. intros [H | H]%orb_true_iff.
      * by rewrite H.
      * apply C2 in H. cbn [contains_char] in H. by rewrite H, orb_true_r.
Qed.

Lemma collapse_loop_no_double (fuel : nat) (s : string) :
  (String.length s <= fuel)%nat ->
  LoadSql.has_double_underscore (LoadSql.collapse_loop fuel s) = false.
Proof.
  revert s. induction fuel as [| fuel IH]; intros s Hlen.
  - by destruct s; [| simpl in Hlen; lia].
  - simpl. destruct (LoadSql.has_double_underscore s) eqn:E; last done.
    apply IH. destruct (collapse_once_facts _ s (le_n _)) as (_ & D & _).
    specialize (D E). lia.
Qed.

Lemma contains_collapse_loop (fuel : nat) (s : string) (c : ascii) :
  contains_char c (LoadSql.collapse_loop fuel s) = true -> contains_char c s = true.
Proof.
  revert s. induction fuel as [| fuel IH]; intros s; simpl; first done.
  destruct (LoadSql.has_double_underscore s); last done.
  intros H%IH. by apply (collapse_once_facts _ s (le_n _)).
Qed.

Lemma contains_lstrip_by (p : ascii -> bool) (s : string) (c : ascii) :
  contains_char c (lstrip_by p s) = true -> contains_char c s = true.
Proof.
  induction s as [| x s IH]; simpl; first done.
  destruct (p x); last done.
  intros H%IH. by rewrite H, orb_true_r.
Qed.

Lemma rstrip_by_first (p : ascii -> bool) (s : string) (b : ascii) (r : string) :
  rstrip_by p s = String b r -> exists t, s = String b t.
Proof.
  destruct s as [| x s]; simpl; first done.
  destruct (rstrip_by p s); [destruct (p x) |]; intros H; simplify_eq; eauto.
Qed.

Lemma contains_rstrip_by (p : ascii -> bool) (s : string) (c : ascii) :
  contains_char c (rstrip_by p s) = true -> contains_char c s = true.
Proof.
  induction s as [| x s IH]; simpl; first done.
  destruct (rstrip_by p s) as [| y r] eqn:E.
  - destruct (p x); simpl; first done.
    rewrite orb_false_r. intros H. by rewrite H.
  - cbn [contains_char]. intros [H | H]%orb_true_iff.
    + by rewrite H.
    + by rewrite (IH H), orb_true_r.
Qed.

Lemma no_double_lstrip_by (p : ascii -> bool) (s : string) :
  LoadSql.has_double_underscore s = false ->
  LoadSql.has_double_underscore (lstrip_by p s) = false.
Proof.
  induction s as [| x s IH]; first done.
  intros H. cbn [lstrip_by]. destruct (p x); last done.
  apply IH. destruct s; first done.
  cbn [LoadSql.has_double_underscore] in H. by apply orb_false_iff in H as [_ H].
Qed.

Lemma no_double_rstrip_by (p : ascii -> bool) (s : string) :
  LoadSql.has_double_underscore s = false ->
  LoadSql.has_double_underscore (rstrip_by p s) = false.
Proof.
  induction s as [| x s IH]; first done.
  intros H. cbn [rstrip_by].
  destruct (rstrip_by p s) as [| y r] eqn:E.
  - by destruct (p x).
  - destruct (rstrip_by_first _ _ _ _ E) as [t ->].
    cbn [LoadSql.has_double_underscore] in H.
    apply orb_false_iff in H as [H1 H2].
    specialize (IH H2).
    change (LoadSql.has_double_underscore (String x (String y r)))
      with ((bool_decide (x = LoadSql.underscore) && bool_decide (y = LoadSql.underscore))
            || LoadSql.has_double_underscore (String y r)).
    by rewrite H1, IH.
Qed.

Lemma lstrip_by_first (p : ascii -> bool) (s : string) (c : ascii) :
  first_char (lstrip_by p s) = Some c -> p c = false.
Proof.
  induction s as [| x s IH]; simpl; first done.
  destruct (p x) eqn:E; first done.
  simpl. by intros [= <-].
Qed.

Lemma rstrip_by_keeps_first (p : ascii -> bool) (s : string) (c : ascii) :
  first_char (rstrip_by p s) = Some c -> first_char s = Some c.
Proof.
  destruct (rstrip_by p s) as [| y r] eqn:E; first done.
  destruct (rstrip_by_first _ _ _ _ E) as [t ->]. done.
Qed.

Lemma rstrip_by_last (p : ascii -> bool) (s : string) (c : ascii) :
  last_char (rstrip_by p s) = Some c -> p c = false.
Proof.
  induction s as [| x s IH]; simpl; first done.
  destruct (rstrip_by p s) as [| y r] eqn:E.
  - destruct (p x) eqn:Ex; simpl; first done. by intros [= <-].
  - change (last_char (String x (String y r)))
      with (match last_char (String y r) with Some l => Some l | None => Some x end).
    destruct (last_char (String y r)) as [l |] eqn:El; first done.
    simpl in El. by destruct (last_char r).
Qed.

Lemma contains_lower (s : string) (c : ascii) :
  contains_char c (lower s) = true -> is_upper c = false.
Proof.
  induction s as [| x s IH]; simpl; first done.
  intros [H | H]%orb_true_iff; last by apply IH.
  apply bool_decide_eq_true in H. subst c.
  by destruct x as [[] [] [] [] [] [] [] []].
Qed.

Lemma replacement_texts_clean :
  Forall (fun kv : ascii * string =>
            string_forall (fun c => negb (is_upper c)
                                    && bool_decide (c ∉ LoadSql.replacements.*1)) kv.2 = true)
         LoadSql.replacements.
Proof. repeat constructor. Qed.

Lemma sanitize_chars (name : string) (c : ascii) :
  contains_char c (LoadSql._sanitize name) = true ->
  is_upper c = false /\ c ∉ LoadSql.replacements.*1.
Proof.
  unfold LoadSql._sanitize, strip_by.
  intros H%contains_rstrip_by%contains_lstrip_by%contains_collapse_loop.
  apply (replace_all_chars (fun c => is_upper c = false) LoadSql.replacements []
           (lower (py_strip name))); last done.
  - intros x Hx. split; [by apply (contains_lower (py_strip name)) | apply not_elem_of_nil].
  - intros k v x Hin Hx.
    pose proof replacement_texts_clean as Hall.
    rewrite Forall_forall in Hall. specialize (Hall _ Hin).
    pose proof (string_forall_contains _ _ _ Hall Hx) as Hc. simpl in Hc.
    apply andb_true_iff in Hc as [Hu Hk].
    apply negb_true_iff in Hu. by apply bool_decide_eq_true in Hk.
Qed.

(** X20 ([_sanitize], load_sql.py): whatever the column name, the sanitized
    name holds no upper-case letter and none of the eleven characters of the
    replacement table (space, slash, brackets, colon, comma, percent, hyphen,
    plus), holds no two underscores in a row, and neither begins nor ends
    with an underscore. *)
Theorem sanitize_shape (name : string) :
  let out := LoadSql._sanitize name in
  (forall c, contains_char c out = true ->
             is_upper c = false /\ c ∉ LoadSql.replacements.*1)
  /\ LoadSql.has_double_underscore out = false
  /\ first_char out <> Some LoadSql.underscore
  /\ last_char out <> Some LoadSql.underscore.
Proof.
  intros out. split; [| split; [| split]].
  - intros c. apply sanitize_chars.
  - unfold out, LoadSql._sanitize, strip_by.
    apply no_double_rstrip_by, no_double_lstrip_by, collapse_loop_no_double. lia.
  - unfold out, LoadSql._sanitize, strip_by.
    intros H%rstrip_by_keeps_first%lstrip_by_first. by apply bool_decide_eq_false in H.
  - unfold out, LoadSql._sanitize, strip_by.
    intros H%rstrip_by_last. by apply bool_decide_eq_false in H.
Qed.

Lemma alnum_to_end_chars (s : string) (c : ascii) :
  LoadSql.alnum_to_end s = true -> contains_char c s = true ->
  is_alnum c = true \/ c = "010"%char.
Proof.
  induction s as [| x s IH]; simpl; first done.
  destruct (is_alnum x) eqn:E.
  - intros Hs [H | H]%orb_true_iff; last by apply IH.
    apply bool_decide_eq_true in H. subst. by left.
  - intros [Hx Hs]%andb_true_iff. apply bool_decide_eq_true in Hx, Hs. subst.
    simpl. rewrite orb_false_r. intros H%bool_decide_eq_true. by right.
Qed.

Lemma safe_name_chars (name : string) (c : ascii) :
  LoadSql._is_safe_name name = true -> contains_char c name = true ->
  is_alnum c = true \/ c = "010"%char.
Proof.
  destruct name as [| x s]; simpl; first done.
  intros [Hx Hs]%andb_true_iff [H | H]%orb_true_iff.
  - apply bool_decide_eq_true in H. subst. left. unfold is_alnum. by rewrite Hx.
  - by apply (alnum_to_end_chars s).
Qed.

(** X21 ([_map_dtypes], [create_table_if_missing], load_sql.py): the name
    under which a column of the frame is declared between square brackets
    never holds a square bracket itself, whether the names were kept or
    sanitized. *)
Theorem renamed_column_has_no_bracket (columns : list string) (c : string) :
  c ∈ columns ->
  contains_char "[" (LoadSql.rename columns c) = false
  /\ contains_char "]" (LoadSql.rename columns c) = false.
Proof.
  intros Hin. unfold LoadSql.rename.
  destruct (forallb LoadSql._is_safe_name columns) eqn:E.
  - rewrite forallb_forall in E.
    assert (Hsafe : LoadSql._is_safe_name c = true) by (apply E; by apply list_elem_of_In).
    split.
    + destruct (contains_char "[" c) eqn:Hc; last done.
      by destruct (safe_name_chars _ _ Hsafe Hc).
    + destruct (contains_char "]" c) eqn:Hc; last done.
      by destruct (safe_name_chars _ _ Hsafe Hc).
  - split.
    + destruct (contains_char "[" (LoadSql._sanitize c)) eqn:Hc; last done.
      destruct (sanitize_chars _ _ Hc) as [_ Hk]. exfalso. apply Hk.
      apply (bool_decide_unpack _). by vm_compute.
    + destruct (contains_char "]" (LoadSql._sanitize c)) eqn:Hc; last done.
      destruct (sanitize_chars _ _ Hc) as [_ Hk]. exfalso. apply Hk.
      apply (bool_decide_unpack _). by vm_compute.
Qed.

Lemma string_forall_app (p : ascii -> bool) (a b : string) :
  string_forall p (a ++ b) = string_forall p a && string_forall p b.
Proof.
  induction a as [| x a IH]; simpl; first done.
  by rewrite IH, andb_assoc.
Qed.

Lemma string_forall_concat (p : ascii -> bool) (l : list string) :
  Forall (fun t => string_forall p t = true) l ->
  string_forall p (String.concat "" l) = true.
Proof.
  induction 1 as [| t l Ht Hl IH]; simpl; first done.
  destruct l as [| u l]; first done.
  rewrite string_forall_app, Ht. simpl. exact IH.
Qed.

Lemma tokens_alnum (s : string) :
  Forall (fun t => string_forall is_alnum t = true) (Cli.tokens s).
Proof.
  induction s as [| c s IH]; simpl; first by constructor.
  destruct (is_alnum c) eqn:E; last done.
  destruct (Cli.starts_alnum s), (Cli.tokens s) as [| t ts];
    try (constructor; [by simpl; rewrite E | done]).
  inversion IH; subst. constructor; last done. simpl. by rewrite E.
Qed.

Lemma is_alnum_upper_char (c : ascii) : is_alnum c = true -> is_alnum (upper_char c) = true.
Proof. by destruct c as [[] [] [] [] [] [] [] []]. Qed.

Lemma is_alnum_lower_char (c : ascii) : is_alnum c = true -> is_alnum (lower_char c) = true.
Proof. by destruct c as [[] [] [] [] [] [] [] []]. Qed.

Lemma is_alpha_upper_char (c : ascii) : is_alpha (upper_char c) = is_alpha c.
Proof. by destruct c as [[] [] [] [] [] [] [] []]. Qed.

Lemma is_digit_upper_char (c : ascii) : is_digit c = true -> upper_char c = c.
Proof. by destruct c as [[] [] [] [] [] [] [] []]. Qed.

Lemma capitalize_alnum (t : string) :
  string_forall is_alnum t = true -> string_forall is_alnum (Cli.capitalize t) = true.
Proof.
  destruct t as [| c t]; simpl; first done.
  intros [Hc Ht]%andb_true_iff. rewrite (is_alnum_upper_char _ Hc). simpl.
  induction t as [| x t IH]; simpl in *; first done.
  apply andb_true_iff in Ht as [Hx Ht]. by rewrite (is_alnum_lower_char _ Hx), IH.
Qed.

Lemma to_pascal_alnum (name : string) :
  string_forall is_alnum (Cli._to_pascal name) = true.
Proof.
  unfold Cli._to_pascal. apply string_forall_concat.
  apply Forall_fmap. eapply Forall_impl; first apply tokens_alnum.
  intros t Ht. simpl. destruct (Cli.isnumeric t); [done | by apply capitalize_alnum].
Qed.

(** The first token begins with the first letter or digit of the string. *)
Lemma tokens_first (s : string) :
  match Cli.tokens s with
  | [] => find_char is_alnum s = None
  | t :: _ => exists c r, t = String c r /\ find_char is_alnum s = Some c
  end.
Proof.
  induction s as [| c s IH]; simpl; first done.
  destruct (is_alnum c) eqn:E; last done.
  destruct (Cli.starts_alnum s), (Cli.tokens s) as [| t ts]; eauto.
Qed.

Lemma first_char_app (a b : string) :
  a <> "" -> first_char (a ++ b) = first_char a.
Proof. by destruct a. Qed.

Lemma to_pascal_first (name : string) :
  first_char (Cli._to_pascal name)
  = upper_char <$> find_char is_alnum (LoadSql.replace_char "%" " Pct " name).
Proof.
  unfold Cli._to_pascal.
  pose proof (tokens_first (LoadSql.replace_char "%" " Pct " name)) as H.
  destruct (Cli.tokens _) as [| t ts]; first by rewrite H.
  destruct H as (c & r & -> & ->).
  assert (Hf : first_char (if Cli.isnumeric (String c r) then String c r
                           else Cli.capitalize (String c r)) = Some (upper_char c)).
  { destruct (Cli.isnumeric (String c r)) eqn:E; last done.
    unfold Cli.isnumeric in E. simpl in E. apply andb_true_iff in E as [E _].
    simpl. by rewrite (is_digit_upper_char _ E). }
  rewrite fmap_cons. set (rest := fmap _ ts).
  destruct rest as [| u rest]; first exact Hf.
  cbn [String.concat]. rewrite first_char_app; first exact Hf.
  by destruct (Cli.isnumeric (String c r)).
Qed.

Lemma find_alnum_replaced (s : string) :
  find_char is_alnum (LoadSql.replace_char "%" " Pct " s)
  = match Cli.leading s with
    | Some c => if bool_decide (c = "%"%char) then Some "P"%char else Some c
    | None => None
    end.
Proof.
  unfold Cli.leading. induction s as [| c s IH]; simpl; first done.
  destruct (bool_decide (c = "%"%char)) eqn:E.
  - apply bool_decide_eq_true in E. by subst.
  - rewrite orb_false_r. simpl. destruct (is_alnum c); [by rewrite E | done].
Qed.

Lemma alnum_to_end_all (s : string) :
  string_forall is_alnum s = true -> LoadSql.alnum_to_end s = true.
Proof.
  induction s as [| c s IH]; simpl; first done.
  intros [-> Hs]%andb_true_iff. by apply IH.
Qed.

Lemma to_pascal_safe (name : string) :
  LoadSql._is_safe_name (Cli._to_pascal name) = true
  <-> exists c, Cli.leading name = Some c /\ (is_alpha c = true \/ c = "%"%char).
Proof.
  pose proof (to_pascal_alnum name) as Hall.
  pose proof (to_pascal_first name) as Hfirst.
  rewrite find_alnum_replaced in Hfirst.
  destruct (Cli._to_pascal name) as [| x out].
  - simpl in *. split; first done. intros (c & Hc & _). rewrite Hc in Hfirst.
    by destruct (bool_decide _).
  - simpl in Hall, Hfirst. apply andb_true_iff in Hall as [_ Hall].
    unfold LoadSql._is_safe_name. rewrite (alnum_to_end_all _ Hall), andb_true_r.
    destruct (Cli.leading name) as [c |]; last done.
    destruct (bool_decide (c = "%"%char)) eqn:E; simpl in Hfirst; simplify_eq.
    + apply bool_decide_eq_true in E. subst. split; [eauto | done].
    + rewrite is_alpha_upper_char. apply bool_decide_eq_false in E.
      split; first by eauto. by intros (? & [= <-] & [? | ?]).
Qed.

(** X22 ([_to_pascal], cli.py; [to_pascal], pyMLChurn.py): a Pascal-case
    column name holds only letters and digits; and it is a safe name for
    the SQL load exactly when the first letter, digit or percent sign of
    the original name is a letter or a percent sign, so not when the name
    begins with a digit or holds no letter or digit at all. *)
Theorem to_pascal_shape (name : string) :
  string_forall is_alnum (Cli._to_pascal name) = true
  /\ (LoadSql._is_safe_name (Cli._to_pascal name) = true
      <-> exists c, Cli.leading name = Some c /\ (is_alpha c = true \/ c = "%"%char)).
Proof. split; [apply to_pascal_alnum | apply to_pascal_safe]. Qed.

(** X23 ([main], pyMLChurn.py, with [_map_dtypes], load_sql.py): when every
    column of the output begins, after its punctuation, with a letter or a
    percent sign, the SQL load keeps the Pascal-case names as they are; as
    soon as one column does not, every column is loaded under its
    sanitized, lower-case name instead. *)
Theorem pascal_names_kept_or_all_sanitized (names : list string) :
  let good n := exists c, Cli.leading n = Some c /\ (is_alpha c = true \/ c = "%"%char) in
  let columns := Cli._to_pascal <$> names in
  (Forall good names -> forall c, LoadSql.rename columns c = c)
  /\ (~ Forall good names -> forall c, LoadSql.rename columns c = LoadSql._sanitize c).
Proof.
  intros good columns. unfold LoadSql.rename.
  destruct (forallb LoadSql._is_safe_name columns) eqn:E.
  - split; first done. intros Hn. exfalso. apply Hn.
    rewrite forallb_forall in E. apply Forall_forall. intros n Hin.
    apply to_pascal_safe, E, list_elem_of_In. unfold columns.
    by apply list_elem_of_fmap_2.
  - split; last done. intros Hall. exfalso.
    assert (forallb LoadSql._is_safe_name columns = true); last congruence.
    apply forallb_forall. intros c [n [-> Hin]]%list_elem_of_In%list_elem_of_fmap.
    apply to_pascal_safe. rewrite Forall_forall in Hall. by apply Hall.
Qed.

(** X24 ([main], cli.py and pyMLChurn.py): putting the preferred columns
    first loses and invents no column: a name is in the new order exactly
    when it is a column of the frame; and when neither list repeats a name,
    the new order is a rearrangement of the columns, preferred names first
    and the others in their old order. *)
Theorem ordered_is_a_rearrangement (cols_pref columns : list string) :
  (forall c, c ∈ Cli.ordered cols_pref columns <-> c ∈ columns)
  /\ (NoDup cols_pref -> NoDup columns ->
      Cli.ordered cols_pref columns ≡ₚ columns
      /\ exists front back,
           Cli.ordered cols_pref columns = (front ++ back)%list
           /\ sublist front cols_pref /\ sublist back columns
           /\ (forall c, c ∈ front -> c ∈ cols_pref)
           /\ (forall c, c ∈ back -> c ∉ cols_pref)).
Proof.
  assert (Hmem : forall c, c ∈ Cli.ordered cols_pref columns <-> c ∈ columns).
  { intros c. unfold Cli.ordered. rewrite elem_of_app, !list_elem_of_filter.
    destruct (decide (c ∈ cols_pref)); tauto. }
  split; first exact Hmem.
  intros Hp Hc. split.
  - apply NoDup_Permutation; [| done | done].
    unfold Cli.ordered. apply NoDup_app. repeat split.
    + by apply NoDup_filter.
    + intros c [_ H1]%list_elem_of_filter [H2 _]%list_elem_of_filter. done.
    + by apply NoDup_filter.
  - eexists _, _. split; first reflexivity.
    repeat split.
    + apply sublist_filter.
    + apply sublist_filter.
    + by intros c [_ H]%list_elem_of_filter.
    + by intros c [H _]%list_elem_of_filter.
Qed.

Lemma date_le_refl (d : option string) : Cli.date_le d d = true.
Proof.
  destruct d as [s |]; simpl; last done.
  by destruct (String.leb_total s s).
Qed.

Lemma drop_duplicates_last_sub (rows : list Cli.Row) (r : Cli.Row) :
  r ∈ Cli.drop_duplicates_last rows -> r ∈ rows.
Proof.
  induction rows as [| x rows IH]; simpl; first done.
  destruct (existsb _ rows).
  - intros H. right. by apply IH.
  - intros [-> | H]%elem_of_cons; [left | right; by apply IH].
Qed.

Lemma drop_duplicates_last_unique (rows : list Cli.Row) :
  NoDup (Cli.customer <$> Cli.drop_duplicates_last rows).
Proof.
  induction rows as [| x rows IH]; simpl; first by constructor.
  destruct (existsb _ rows) eqn:E; first done.
  rewrite fmap_cons. constructor; last done.
  intros [r [Heq Hin%drop_duplicates_last_sub]]%list_elem_of_fmap.
  assert (existsb (fun r' => Cli.customer r' =? Cli.customer x) rows = true); last congruence.
  apply existsb_exists. exists r. split; first by apply list_elem_of_In.
  apply Z.eqb_eq. done.
Qed.

Lemma drop_duplicates_last_latest (rows : list Cli.Row) (r : Cli.Row) :
  Cli.in_date_order rows = true ->
  r ∈ rows ->
  exists k, k ∈ Cli.drop_duplicates_last rows
            /\ Cli.customer k = Cli.customer r
            /\ Cli.date_le (Cli.as_of_date r) (Cli.as_of_date k) = true.
Proof.
  revert r. induction rows as [| x rows IH]; intros r; first by intros _ ?%elem_of_nil.
  simpl. intros [Hx Hs]%andb_true_iff.
  assert (Hrest : forall r', r' ∈ rows ->
            exists k, k ∈ Cli.drop_duplicates_last (x :: rows)
                      /\ Cli.customer k = Cli.customer r'
                      /\ Cli.date_le (Cli.as_of_date r') (Cli.as_of_date k) = true).
  { intros r' Hin. destruct (IH r' Hs Hin) as (k & Hk & Hc & Hd).
    exists k. split; last done. simpl. destruct (existsb _ rows); [done | by right]. }
  intros [-> | Hin]%elem_of_cons; last by apply Hrest.
  simpl. destruct (existsb _ rows) eqn:E.
  - apply existsb_exists in E as (r' & Hin%list_elem_of_In & Heq%Z.eqb_eq).
    destruct (IH r' Hs Hin) as (k & Hk & Hc & Hd).
    exists k. split; first done. split; first congruence.
    rewrite forallb_forall in Hx. apply Hx.
    by apply list_elem_of_In, drop_duplicates_last_sub.
  - exists x. split; first by left. split; first done. apply date_le_refl.
Qed.

(** X25 ([main], cli.py and pyMLChurn.py): after the rows are sorted by
    date, missing dates first, and the duplicates of a customer dropped
    but the last, every customer of the input keeps exactly one row, the
    kept rows are rows of the input, and the kept row of a customer has a
    date that no other row of that customer exceeds: a dated row is always
    preferred to an undated one. *)
Theorem deduplication_keeps_latest (rows sorted : list Cli.Row) :
  sorted ≡ₚ rows ->
  Cli.in_date_order sorted = true ->
  let kept := Cli.drop_duplicates_last sorted in
  NoDup (Cli.customer <$> kept)
  /\ (forall k, k ∈ kept -> k ∈ rows)
  /\ (forall r, r ∈ rows ->
        exists k, k ∈ kept /\ Cli.customer k = Cli.customer r
                  /\ Cli.date_le (Cli.as_of_date r) (Cli.as_of_date k) = true).
Proof.
  intros Hperm Hsorted kept. split; [| split].
  - apply drop_duplicates_last_unique.
  - intros k Hk%drop_duplicates_last_sub. by rewrite <- Hperm.
  - intros r Hr. apply drop_duplicates_last_latest; first done. by rewrite Hperm.
Qed.

(** * The further properties on the sample inputs *)



Lemma maybe_run_sp_skips_only_when_fresh_witness :
  exists kvs s t off life,
    SpRunner.loaded (SpRunner.file w_recent) = JObj kvs
    /\ kvs !! SpRunner._sp_key str_lower_ref cfg0 "sp_build_customer_churn_cadence_v1" "dbo"
       = Some (JStr s)
    /\ fromisoformat_ref s = Some (Aware t off)
    /\ SpRunner.ttl SpRunner.default_policy = Ok life
    /\ SpRunner.clock w_recent < t + life.
Proof.
  destruct (maybe_run_sp_skips_only_when_fresh str_lower_ref isoformat_ref
              fromisoformat_ref runner0
              cfg0 "sp_build_customer_churn_cadence_v1" "dbo" false None w_recent
              {| SpRunner.ran := false;
                 SpRunner.reason := "recent (last run 2024-03-01T08:00:00+00:00)" |}
              w_recent)
    as (_ & _ & kvs & s & t & off & life & H1 & H2 & H3 & H4 & _ & H5 & _);
    [vm_compute; reflexivity | reflexivity |].
  exists kvs, s, t, off, life. repeat split; assumption.
Defined.


Lemma business_flag_monotone_witness :
  BusinessRule.churn_now (BusinessRule.evaluate 200 (Some 0) (CBool false)) = 1
  /\ BusinessRule.churn_now (BusinessRule.evaluate 300 (Some 0) (CBool true)) = 1.
Proof.
  apply (business_flag_monotone 200 300 (Some 0) (CBool true) (CBool false));
    [reflexivity | reflexivity | lia].
Defined.

Lemma business_rule_dates_witness :
  BusinessRule.days_since_last_purchase_today
    (BusinessRule.evaluate 100 (Some 250) (CBool true)) = Some 0
  /\ BusinessRule.churn_now (BusinessRule.evaluate 100 (Some 250) (CBool true)) = 0.
Proof.
  destruct (business_rule_dates 100 (Some 250) (CBool true)) as (_ & H & _).
  apply (H 250); [reflexivity | lia].
Defined.

Lemma coerce_types_idempotent_witness :
  Ml.columns (Ml._coerce_types Ml.decimal_float df_text ["recency_days"]) !! "rev_180d"
  = Ml.columns df_text !! "rev_180d"
  /\ Forall (fun cell => cell = CNaN \/ exists q, cell = CNum q)
            [CNum 120; CNaN; CNum 200].
Proof.
  destruct (coerce_types_idempotent Ml.decimal_float df_text ["recency_days"])
    as (_ & _ & _ & H1 & H2).
  split.
  - apply H1. apply (bool_decide_unpack _). vm_compute. exact I.
  - apply (H2 "recency_days").
    + apply (bool_decide_unpack _). vm_compute. exact I.
    + vm_compute. reflexivity.
Defined.

Lemma train_and_predict_missing_feature_witness :
  Ml.run_canned out_text df_text cfg_tenure = Raise ValueError.
Proof.
  apply (train_and_predict_missing_feature Ml.decimal_float
           (fun _ _ => Ok out_text) (fun f _ => Ml.c_proba f) (fun f _ => Ml.c_Xt f)
           Ml.c_coef (fun f _ => Ml.c_shap f) df_text cfg_tenure "tenure_days").
  - apply (bool_decide_unpack _). vm_compute. exact I.
  - vm_compute. reflexivity.
Defined.

Lemma train_and_predict_shapes_witness :
  exists r,
    Ml.run_canned out_text df_text cfg_ml = Ok r
    /\ length (Ml.customer_id r) = 3%nat
    /\ length (Ml.predicted_churn_reason_90d r) = length (Ml.customer_id r).
Proof.
  destruct (Ml.run_canned out_text df_text cfg_ml) as [r | e] eqn:E;
    [| vm_compute in E; discriminate].
  exists r. split; [reflexivity |].
  destruct (train_and_predict_shapes Ml.decimal_float
              (fun _ _ => Ok out_text) (fun f _ => Ml.c_proba f) (fun f _ => Ml.c_Xt f)
              Ml.c_coef (fun f _ => Ml.c_shap f) df_text cfg_ml r E)
    as (_ & _ & H & _).
  split; [| exact H].
  vm_compute in E. injection E as <-. reflexivity.
Defined.

Lemma predicted_label_threshold_witness :
  exists r p,
    Ml.run_canned out_text df_text cfg_ml = Ok r
    /\ Ml.predicted_churn_probability_90d r !! 1%nat = Some p
    /\ (0 = 1 <-> (1 # 2 <= p)%Q).
Proof.
  destruct (Ml.run_canned out_text df_text cfg_ml) as [r | e] eqn:E;
    [| vm_compute in E; discriminate].
  destruct (predicted_label_threshold Ml.decimal_float
              (fun _ _ => Ok out_text) (fun f _ => Ml.c_proba f) (fun f _ => Ml.c_Xt f)
              Ml.c_coef (fun f _ => Ml.c_shap f) df_text cfg_ml r 1 0 E)
    as (_ & p & Hp & Hiff).
  - vm_compute in E. injection E as <-. reflexivity.
  - exists r, p. split; [reflexivity |]. split; assumption.
Defined.

Lemma row_reason_is_never_empty_witness :
  Ml.row_reason Ml.decimal_float Ml.c_coef df_text (Ml.feature_cols cfg_ml)
    (Some out_text) (Ml.c_Xt out_text) None [1; 0; 1] 0
  = Ok "Low recent revenue ($10.00); No purchases for 120 days"
  /\ "Low recent revenue ($10.00); No purchases for 120 days" <> "".
Proof.
  assert (H : Ml.row_reason Ml.decimal_float Ml.c_coef df_text (Ml.feature_cols cfg_ml)
                (Some out_text) (Ml.c_Xt out_text) None [1; 0; 1] 0
              = Ok "Low recent revenue ($10.00); No purchases for 120 days")
    by (vm_compute; reflexivity).
  split; [exact H |].
  apply (row_reason_is_never_empty Ml.decimal_float Ml.c_coef df_text
           (Ml.feature_cols cfg_ml) (Some out_text) (Ml.c_Xt out_text) None
           [1; 0; 1] 0 _ H).
Defined.

Lemma empty_reason_marks_raise_witness :
  Ml.predicted_reasons Ml.decimal_float Ml.c_coef df_text (Ml.feature_cols cfg_ml)
    (Some out_text) (Ml.c_Xt out_text) None [1; 0; 1] 3 !! 2%nat = Some "".
Proof.
  apply (empty_reason_marks_raise Ml.decimal_float Ml.c_coef df_text
           (Ml.feature_cols cfg_ml) (Some out_text) (Ml.c_Xt out_text) None
           [1; 0; 1] 3 2); [lia |].
  exists 1%nat. split; [lia | vm_compute; reflexivity].
Defined.

Lemma actual_reasons_are_risk_drivers_witness :
  (exists phrases,
     Ml.actual_reasons Ml.decimal_float Ml.c_coef df_text (Ml.feature_cols cfg_ml)
       (Some out_text) (Ml.c_Xt out_text) None [1; 0; 1] 3 !! 0%nat
     = Some (Ml.join_or Ml.ACTUAL_REASON phrases)
     /\ (length phrases <= 3)%nat)
  /\ is_ok (Ml.actual_row_reason Ml.decimal_float Ml.c_coef df_late (Ml.feature_cols cfg_ml)
              (Some out_late) (Ml.c_Xt out_late) (Ml.c_shap out_late) [1; 0] 0) = false
  /\ Ml.actual_reasons Ml.decimal_float Ml.c_coef df_late (Ml.feature_cols cfg_ml)
       (Some out_late) (Ml.c_Xt out_late) (Ml.c_shap out_late) [1; 0] 2 !! 1%nat = Some "".
Proof.
  split; [| split; [vm_compute; reflexivity |]].
  - destruct (actual_reasons_are_risk_drivers Ml.decimal_float Ml.c_coef df_text
                (Ml.feature_cols cfg_ml) (Some out_text) (Ml.c_Xt out_text) None
                [1; 0; 1] 3 0 1) as [_ H]; [lia | reflexivity |].
    destruct (H eq_refl) as (contrib & phrases & _ & Hat & Hlen & _).
    + intros k Hk. assert (k = 0%nat) as -> by lia. vm_compute. reflexivity.
    + exists phrases. split; assumption.
  - destruct (actual_reasons_are_risk_drivers Ml.decimal_float Ml.c_coef df_late
                (Ml.feature_cols cfg_ml) (Some out_late) (Ml.c_Xt out_late)
                (Ml.c_shap out_late) [1; 0] 2 1 0) as [H _]; [lia | reflexivity |].
    apply H. discriminate.
Defined.

Lemma pick_driver_installed_witness :
  Db.pick_driver ["SQL Server"; "ODBC Driver 17 for SQL Server"] (Some "SQL Server")
  = Some "SQL Server".
Proof.
  destruct (pick_driver_installed ["SQL Server"; "ODBC Driver 17 for SQL Server"]
              (Some "SQL Server")) as (_ & H & _).
  apply H; [reflexivity | discriminate |].
  apply (bool_decide_unpack _). vm_compute. exact I.
Defined.

Lemma with_retries_stops_at_first_answer_witness :
  let r := Db.with_retries third_attempt_answers 5 2 sleeps_up_to_a_million in
  Db.ending r = Db.Returned "ok"
  /\ Db.attempts r = 3%nat
  /\ Db.sleeps r = Db.delay 2 <$> [1; 2]%nat
  /\ (Db.total_sleep r == 2 * inject_Z 3)%Q.
Proof.
  apply (with_retries_stops_at_first_answer third_attempt_answers 5 2
           sleeps_up_to_a_million 3 (Db.Returned "ok")).
  - lia.
  - lia.
  - intros j Hj. exists "timeout".
    assert (j = 1 \/ j = 2)%nat as [-> | ->] by lia; reflexivity.
  - intros j Hj.
    assert (j = 1 \/ j = 2)%nat as [-> | ->] by lia; reflexivity.
  - left. exists "ok". split; reflexivity.
Defined.

Lemma with_retries_exhausted_witness :
  let r := Db.with_retries never_answers 3 (1 # 2) sleeps_up_to_a_million in
  Db.ending r = Db.Raised "timeout"
  /\ Db.attempts r = 3%nat
  /\ length (Db.sleeps r) = 2%nat
  /\ (Db.total_sleep r == (1 # 2) * inject_Z 3)%Q.
Proof.
  apply (with_retries_exhausted never_answers 3 (1 # 2) sleeps_up_to_a_million 3 "timeout").
  - lia.
  - reflexivity.
  - intros j _. exists "timeout". reflexivity.
  - intros j Hj.
    assert (j = 1 \/ j = 2)%nat as [-> | ->] by lia; reflexivity.
  - reflexivity.
Defined.

Lemma with_retries_bounds_witness :
  Db.attempts (Db.with_retries third_attempt_answers 0 2 sleeps_up_to_a_million) = 0%nat.
Proof.
  destruct (with_retries_bounds third_attempt_answers 0 2 sleeps_up_to_a_million)
    as (_ & _ & _ & _ & H).
  apply H. lia.
Defined.


Lemma sanitize_shape_witness :
  is_upper "_" = false /\ "_"%char ∉ LoadSql.replacements.*1.
Proof.
  destruct (sanitize_shape "Churn Probability % (Next 90 Days)") as (H & _).
  apply H. vm_compute. reflexivity.
Defined.

Lemma renamed_column_has_no_bracket_witness :
  contains_char "[" (LoadSql.rename ["Customer ID"; "Why [Predicted]"] "Why [Predicted]") = false
  /\ contains_char "]" (LoadSql.rename ["Customer ID"; "Why [Predicted]"] "Why [Predicted]") = false.
Proof.
  apply renamed_column_has_no_bracket.
  apply (bool_decide_unpack _). vm_compute. exact I.
Defined.

Lemma to_pascal_shape_witness :
  LoadSql._is_safe_name (Cli._to_pascal "Churn Probability % (Next 90 Days)") = true.
Proof.
  destruct (to_pascal_shape "Churn Probability % (Next 90 Days)") as (_ & H).
  apply H. exists "C"%char. split; [reflexivity | left; reflexivity].
Defined.

Lemma pascal_names_kept_or_all_sanitized_witness :
  LoadSql.rename (Cli._to_pascal <$> ["customer_id"; "% churn (90d)"]) "CustomerId"
  = "CustomerId".
Proof.
  destruct (pascal_names_kept_or_all_sanitized ["customer_id"; "% churn (90d)"]) as (H & _).
  apply H. repeat constructor.
  - exists "c"%char. split; [reflexivity | left; reflexivity].
  - exists "%"%char. split; [reflexivity | right; reflexivity].
Defined.

Lemma ordered_is_a_rearrangement_witness :
  Cli.ordered ["customer_id"; "as_of_date_t0"; "business_churn_now"]
              ["business_churn_now"; "rev_180d"; "customer_id"]
  ≡ₚ ["business_churn_now"; "rev_180d"; "customer_id"].
Proof.
  destruct (ordered_is_a_rearrangement
              ["customer_id"; "as_of_date_t0"; "business_churn_now"]
              ["business_churn_now"; "rev_180d"; "customer_id"]) as (_ & H).
  apply H; apply (bool_decide_unpack _); vm_compute; exact I.
Defined.

Lemma deduplication_keeps_latest_witness :
  let kept := Cli.drop_duplicates_last [row_b; row_a; row_c] in
  NoDup (Cli.customer <$> kept)
  /\ (forall k, k ∈ kept -> k ∈ [row_a; row_b; row_c])
  /\ (forall r, r ∈ [row_a; row_b; row_c] ->
        exists k, k ∈ kept /\ Cli.customer k = Cli.customer r
                  /\ Cli.date_le (Cli.as_of_date r) (Cli.as_of_date k) = true).
Proof.
  apply (deduplication_keeps_latest [row_a; row_b; row_c] [row_b; row_a; row_c]).
  - apply perm_swap.
  - vm_compute. reflexivity.
Defined.
